(** * Lazy paginated queries of cbc_sdk.endpoint_standard.base

    A shallow embedding of the two query classes of
    [src/cbc_sdk/endpoint_standard/base.py]:

    - [Query], the synchronous offset-paginated search, and
    - [EnrichedEventQuery], the submit / poll / fetch job search.

    Python objects are records, attribute assignment is explicit state
    passing, the HTTP transport and the clock are an abstract world, and
    every request, yielded row and sleep is recorded in a trace.  Loops
    that Python does not bound ([while still_querying], the polling loop)
    take a fuel argument; running out of fuel is the outcome [Diverge]. *)

From stdpp Require Import gmap strings list fin_maps pretty.
From Stdlib Require Import ZArith Lia Ascii.

Local Open Scope Z_scope.

(** ** Python values, truthiness and exceptions *)

(** The values a caller can pass where the code only tests truthiness and
    [isinstance(_, str)]. *)
Inductive PyVal :=
| PyNone
| PyBool (b : bool)
| PyInt (z : Z)
| PyStr (s : string).

(** [if v:] *)
Definition truthy (v : PyVal) : bool :=
  match v with
  | PyNone => false
  | PyBool b => b
  | PyInt z => negb (z =? 0)
  | PyStr s => negb (String.eqb s "")
  end.

(** [isinstance(v, str)] *)
Definition isinstance_str (v : PyVal) : bool :=
  match v with PyStr _ => true | _ => false end.

(** Truthiness of an attribute that is [None] or a string (the job token). *)
Definition truthy_token (t : option string) : bool :=
  match t with
  | None => false
  | Some s => negb (String.eqb s "")
  end.

(** Exceptions.  [ApiError] and [SdkTimeoutError] are the classes of
    [cbc_sdk.errors]; [TypeError] and [AttributeError] are Python's own. *)
Inductive exn :=
| ApiError (message : string)
| SdkTimeoutError (message : string)
| BuiltinException (name : string)
| TypeError (message : string)
| AttributeError (name : string).

(** The usage errors of the error taxonomy are the [ApiError]s. *)
Definition is_UsageError (e : exn) : bool :=
  match e with ApiError _ => true | _ => false end.

(** The timeout error of the error taxonomy is [cbc_sdk.errors.TimeoutError]. *)
Definition is_ProtocolTimeout (e : exn) : bool :=
  match e with SdkTimeoutError _ => true | _ => false end.

(** The names the module binds with its import statements (lines 16-26).
    Any other name used in the module is looked up in Python's builtins. *)
Definition module_imports : list string :=
  [ "MutableBaseModel"; "CreatableModelMixin"; "NewBaseModel"; "PaginatedQuery";
    "QueryBuilder"; "QueryBuilderSupportMixin"; "IterableQueryMixin";
    "UnrefreshableModel"; "PlatformQueryBase"; "convert_query_params";
    "ApiError"; "deepcopy"; "logging"; "json"; "time"; "ServerError" ]%string.

Definition imported (name : string) : bool :=
  bool_decide (name ∈ module_imports).

(** [raise Name(message=msg)]: the exception that reaches the caller.  A
    class imported from [cbc_sdk.errors] takes the [message] keyword; a
    builtin exception class takes no keyword arguments, so evaluating the
    call raises [TypeError] instead. *)
Definition raise_with_message_kw (name msg : string) : exn :=
  if imported name then
    (if String.eqb name "TimeoutError" then SdkTimeoutError msg
     else if String.eqb name "ApiError" then ApiError msg
     else BuiltinException name)
  else TypeError (name ++ "() takes no keyword arguments")%string.

(** What a call returns: a value, an exception, or no answer within the
    fuel given to its loops. *)
Inductive result (A : Type) :=
| Ok (a : A)
| Raise (e : exn)
| Diverge.
Arguments Ok {A} a.
Arguments Raise {A} e.
Arguments Diverge {A}.

(** ** Strings: the pieces of [str] that [prepare_query] uses *)

(** [s.split(sep)] for a one-character separator. *)
Fixpoint split_on (sep : ascii) (s : string) : list string :=
  match s with
  | EmptyString => [EmptyString]
  | String c s' =>
      if Ascii.eqb c sep then EmptyString :: split_on sep s'
      else match split_on sep s' with
           | [] => [String c EmptyString]
           | w :: ws => String c w :: ws
           end
  end.

(** [key, value = s.split(sep, 1)]; [None] is the [ValueError] of the
    unpacking when [s] has no separator. *)
Fixpoint split_once (sep : ascii) (s : string) : option (string * string) :=
  match s with
  | EmptyString => None
  | String c s' =>
      if Ascii.eqb c sep then Some (EmptyString, s')
      else match split_once sep s' with
           | Some (k, v) => Some (String c k, v)
           | None => None
           end
  end.

Fixpoint lstrip (c : ascii) (s : string) : string :=
  match s with
  | EmptyString => EmptyString
  | String a s' => if Ascii.eqb a c then lstrip c s' else s
  end.

Fixpoint rstrip (c : ascii) (s : string) : string :=
  match s with
  | EmptyString => EmptyString
  | String a s' =>
      match rstrip c s' with
      | EmptyString => if Ascii.eqb a c then EmptyString else String a EmptyString
      | r => String a r
      end
  end.

(** [s.strip(c)] for a one-character set. *)
Definition strip (c : ascii) (s : string) : string := rstrip c (lstrip c s).

(** ** QueryBuilder *)

Inductive FilterExpression :=
| Leaf (key value : string)
| And (l r : FilterExpression)
| Or (l r : FilterExpression).

(** The builder object; [_query] is the attribute [Query.__init__] copies. *)
Record QueryBuilder := mkQueryBuilder { _query : option FilterExpression }.

(** Modelled from the spec: the serialization of a filter expression, which
    is part of [cbc_sdk.base.QueryBuilder] and not under src/.  Leaves are
    [key:value] tokens, a combinator joins its operands with [AND] / [OR]
    between spaces and wraps the group in parentheses. *)
Fixpoint render (e : FilterExpression) : string :=
  match e with
  | Leaf k v => k ++ ":" ++ v
  | And l r => "(" ++ render l ++ " AND " ++ render r ++ ")"
  | Or l r => "(" ++ render l ++ " OR " ++ render r ++ ")"
  end%string.

(** Modelled from the spec: [QueryBuilder._collapse], not under src/.  It
    returns [None] if nothing has been added. *)
Definition _collapse (qb : QueryBuilder) : option string :=
  render <$> _query qb.

(** Modelled from the spec: [QueryBuilder.where], not under src/.  It sets
    the initial filter and fails if a filter already exists. *)
Definition QueryBuilder_where (clause : FilterExpression) (qb : QueryBuilder)
  : result unit * QueryBuilder :=
  match _query qb with
  | Some _ => (Raise (ApiError "where: a filter already exists"), qb)
  | None => (Ok tt, mkQueryBuilder (Some clause))
  end.

(** Modelled from the spec: [QueryBuilder.and_], not under src/.  It appends
    a clause combined with AND and requires a non-empty builder. *)
Definition QueryBuilder_and_ (clause : FilterExpression) (qb : QueryBuilder)
  : result unit * QueryBuilder :=
  match _query qb with
  | None => (Raise (ApiError "and_: the builder is empty"), qb)
  | Some q => (Ok tt, mkQueryBuilder (Some (And q clause)))
  end.


(** ** The query objects *)

(** A value of the request dictionary [args]: the integers the code puts
    there ([start], [rows]) or a string taken from the filter. *)
Inductive ArgVal :=
| AInt (z : Z)
| AStr (s : string).

(** The attributes of a [Query] instance that its methods read or write. *)
Record Query := mkQuery {
  _batch_size : Z;
  _query_builder : QueryBuilder;
  _total_results : Z;
  _count_valid : bool
}.

Definition set_total_results (n : Z) (q : Query) : Query :=
  mkQuery (_batch_size q) (_query_builder q) n (_count_valid q).

Definition set_count_valid (b : bool) (q : Query) : Query :=
  mkQuery (_batch_size q) (_query_builder q) (_total_results q) b.

Definition set_query_builder (qb : QueryBuilder) (q : Query) : Query :=
  mkQuery (_batch_size q) qb (_total_results q) (_count_valid q).

(** [Query.__init__] without a query to copy: batch size 100, an empty
    builder, and the counters of [PaginatedQuery.__init__]. *)
Definition Query_init : Query :=
  mkQuery 100 (mkQueryBuilder None) 0 false.

(** One dictionary of the list [_sort]. *)
Record SortItem := mkSortItem { field : string; order : string }.

(** The dictionary [_default_args]; the only keys the class writes are
    ["rows"] and ["sort"]. *)
Record DefaultArgs := mkDefaultArgs {
  da_rows : option Z;
  da_sort : option (list SortItem)
}.

(** [EnrichedEventQuery] extends [Query]; [_submit_time] does not exist
    before the first [_submit]. *)
Record EnrichedEventQuery := mkEnrichedEventQuery {
  base : Query;
  _default_args : DefaultArgs;
  _query_token : option string;
  _timeout : Z;
  _timed_out : bool;
  _sort : list SortItem;
  _time_range : gmap string string;
  _submit_time : option Z
}.

Definition EnrichedEventQuery_init : EnrichedEventQuery :=
  mkEnrichedEventQuery Query_init (mkDefaultArgs None None) None 0 false [] ∅ None.

Definition set_base (b : Query) (q : EnrichedEventQuery) : EnrichedEventQuery :=
  mkEnrichedEventQuery b (_default_args q) (_query_token q) (_timeout q)
    (_timed_out q) (_sort q) (_time_range q) (_submit_time q).

Definition set_default_args (d : DefaultArgs) (q : EnrichedEventQuery) : EnrichedEventQuery :=
  mkEnrichedEventQuery (base q) d (_query_token q) (_timeout q)
    (_timed_out q) (_sort q) (_time_range q) (_submit_time q).

Definition set_query_token (t : option string) (q : EnrichedEventQuery) : EnrichedEventQuery :=
  mkEnrichedEventQuery (base q) (_default_args q) t (_timeout q)
    (_timed_out q) (_sort q) (_time_range q) (_submit_time q).

Definition set_timeout (ms : Z) (q : EnrichedEventQuery) : EnrichedEventQuery :=
  mkEnrichedEventQuery (base q) (_default_args q) (_query_token q) ms
    (_timed_out q) (_sort q) (_time_range q) (_submit_time q).

Definition set_timed_out (b : bool) (q : EnrichedEventQuery) : EnrichedEventQuery :=
  mkEnrichedEventQuery (base q) (_default_args q) (_query_token q) (_timeout q)
    b (_sort q) (_time_range q) (_submit_time q).

Definition set_sort (l : list SortItem) (q : EnrichedEventQuery) : EnrichedEventQuery :=
  mkEnrichedEventQuery (base q) (_default_args q) (_query_token q) (_timeout q)
    (_timed_out q) l (_time_range q) (_submit_time q).

Definition set_time_range_attr (m : gmap string string) (q : EnrichedEventQuery)
  : EnrichedEventQuery :=
  mkEnrichedEventQuery (base q) (_default_args q) (_query_token q) (_timeout q)
    (_timed_out q) (_sort q) m (_submit_time q).

Definition set_submit_time (t : option Z) (q : EnrichedEventQuery) : EnrichedEventQuery :=
  mkEnrichedEventQuery (base q) (_default_args q) (_query_token q) (_timeout q)
    (_timed_out q) (_sort q) (_time_range q) t.

(** ** Methods that only touch the object *)




(** One filter token of [prepare_query]: [key, value = query.split(':', 1)],
    both stripped of parentheses; a token without a colon is skipped. *)
Definition prepare_token (request : gmap string ArgVal) (query : string)
  : gmap string ArgVal :=
  match split_once ":" query with
  | Some (key, value) =>
      <[strip ")" (strip "(" key) := AStr (strip ")" (strip "(" value))]> request
  | None => request
  end.

(** [Query.prepare_query] *)
Definition prepare_query (q : Query) (args : gmap string ArgVal) : gmap string ArgVal :=
  match _collapse (_query_builder q) with
  | Some params => foldl prepare_token args (split_on " " params)
  | None => args
  end.

(** [EnrichedEventQuery.timeout] *)
Definition timeout (msecs : Z) (q : EnrichedEventQuery) : EnrichedEventQuery :=
  set_timeout msecs q.

(** The loop of [sort_by]: every item whose field is [key] gets the new
    direction; the flag is [found]. *)
Fixpoint sort_loop (key direction : string) (l : list SortItem) : list SortItem * bool :=
  match l with
  | [] => ([], false)
  | sort_item :: rest =>
      let '(rest', found) := sort_loop key direction rest in
      if String.eqb (field sort_item) key
      then (mkSortItem (field sort_item) direction :: rest', true)
      else (sort_item :: rest', found)
  end.

(** [EnrichedEventQuery.sort_by].  [_default_args['sort']] is the list
    object [_sort] itself, so it always shows the list's current content. *)
Definition sort_by (key direction : string) (q : EnrichedEventQuery) : EnrichedEventQuery :=
  let '(l, found) := sort_loop key direction (_sort q) in
  let l := if found then l else l ++ [mkSortItem key direction] in
  set_default_args (mkDefaultArgs (da_rows (_default_args q)) (Some l)) (set_sort l q).

(** The value stored by one branch of [set_time_range]. *)
Definition str_of (v : PyVal) : string :=
  match v with PyStr s => s | _ => "" end.

(** One [if arg:] block of [set_time_range]. *)
Definition set_time_field (name : string) (message : string) (v : PyVal)
    (q : EnrichedEventQuery) : result unit * EnrichedEventQuery :=
  if truthy v then
    if negb (isinstance_str v) then (Raise (ApiError message), q)
    else (Ok tt, set_time_range_attr (<[name := str_of v]> (_time_range q)) q)
  else (Ok tt, q).

(** [EnrichedEventQuery.set_time_range] *)
Definition set_time_range (start end_ window : PyVal) (q : EnrichedEventQuery)
  : result unit * EnrichedEventQuery :=
  match set_time_field "start" "Start time must be a string in ISO 8601 format." start q with
  | (Ok _, q1) =>
      match set_time_field "end" "End time must be a string in ISO 8601 format." end_ q1 with
      | (Ok _, q2) => set_time_field "window" "Window must be a string." window q2
      | r => r
      end
  | r => r
  end.

(** ** The transport and the trace *)

(** The value of the key ["results"] in a response body: missing, [null],
    or a list of rows. *)
Inductive JResults (Row : Type) :=
| Absent
| Null
| Rows (l : list Row).
Arguments Absent {Row}.
Arguments Null {Row}.
Arguments Rows {Row} l.

(** A parsed response body: the keys the queries read with [.get]. *)
Record Response (Row : Type) := mkResponse {
  totalResults : option Z;
  results : JResults Row;
  job_id : option string;
  contacted : option Z;
  completed : option Z;
  num_available : option Z
}.
Arguments mkResponse {Row}.
Arguments totalResults {Row}.
Arguments results {Row}.
Arguments job_id {Row}.
Arguments contacted {Row}.
Arguments completed {Row}.
Arguments num_available {Row}.

(** [result.get('results', [])]: [None] is Python's [None]. *)
Definition get_results {Row} (r : Response Row) : option (list Row) :=
  match results r with
  | Absent => Some []
  | Null => None
  | Rows l => Some l
  end.

(** The requests of the two protocols.  The URL of a request is determined
    by its constructor, the organisation key and the arguments shown.
    - [GET_search]: [get_object(urlobject, query_parameters=...)];
    - [POST_search_jobs]: the job creation, body [_default_args] plus
      ["query"];
    - [GET_job_status]: [.../search_jobs/{token}];
    - [GET_job_results]: [.../search_jobs/{token}/results];
    - [GET_job_results_page]: the same with [?start={}&rows={}]. *)
Inductive Request (QP : Type) :=
| GET_search (query_parameters : QP)
| POST_search_jobs (body : DefaultArgs) (query : option string)
| GET_job_status (token : option string)
| GET_job_results (token : option string)
| GET_job_results_page (token : option string) (start rows : Z).
Arguments GET_search {QP}.
Arguments POST_search_jobs {QP}.
Arguments GET_job_status {QP}.
Arguments GET_job_results {QP}.
Arguments GET_job_results_page {QP}.

(** What an observer of a call sees, in order. *)
Inductive Event (Row QP : Type) :=
| Call (r : Request QP) (resp : Response Row)
| Yield (row : Row)
| Sleep.
Arguments Call {Row QP}.
Arguments Yield {Row QP}.
Arguments Sleep {Row QP}.

Definition is_yield {Row QP} (e : Event Row QP) : bool :=
  match e with Yield _ => true | _ => false end.

Definition is_call {Row QP} (e : Event Row QP) : bool :=
  match e with Call _ _ => true | _ => false end.

(** Number of rows handed to the consumer in a trace. *)
Definition yielded {Row QP} (tr : list (Event Row QP)) : Z :=
  Z.of_nat (length (filter (λ e, is_yield e = true) tr)).

(** The requests of a trace, in order. *)
Fixpoint requests {Row QP} (tr : list (Event Row QP)) : list (Request QP) :=
  match tr with
  | [] => []
  | Call r _ :: tr => r :: requests tr
  | _ :: tr => requests tr
  end.

(** Requests that determine a count: the synchronous search request and the
    results requests of a job. *)
Definition count_determining {QP} (r : Request QP) : bool :=
  match r with
  | GET_search _ | GET_job_results _ | GET_job_results_page _ _ _ => true
  | _ => false
  end.

Definition is_submit {QP} (r : Request QP) : bool :=
  match r with POST_search_jobs _ _ => true | _ => false end.

(** Loop variables of [Query._search]. *)
Record SearchVars := mkSearchVars {
  args : gmap string ArgVal;
  current : Z;
  numrows : Z;
  still_querying : bool
}.

(** Loop variables of [EnrichedEventQuery._search]. *)
Record FetchVars := mkFetchVars {
  f_current : Z;
  rows_fetched : Z;
  still_fetching : bool
}.

(** ** The steps of [EnrichedEventQuery] as functions of a response *)

(** The object after a successful [_submit] answered by [resp] at time [t]. *)
Definition submitted {Row} (q : EnrichedEventQuery) (resp : Response Row) (t : Z)
  : EnrichedEventQuery :=
  set_submit_time (Some t) (set_timed_out false (set_query_token (job_id resp) q)).

(** The job creation request of a query. *)
Definition submit_request {QP} (q : EnrichedEventQuery) : Request QP :=
  POST_search_jobs (_default_args q) (_collapse (_query_builder (base q))).

(** What [_still_querying] makes of a status response read at time [t]. *)
Definition status_verdict {Row} (q : EnrichedEventQuery) (resp : Response Row) (t : Z)
  : result bool * EnrichedEventQuery :=
  let searchers_contacted := default 0 (contacted resp) in
  let searchers_completed := default 0 (completed resp) in
  if searchers_contacted =? 0 then (Ok true, q)
  else if searchers_completed <? searchers_contacted then
    if _timeout q =? 0 then (Ok true, q)
    else
      match _submit_time q with
      | None => (Raise (AttributeError "_submit_time"), q)
      | Some submit_time =>
          if _timeout q <? t - submit_time then (Ok false, set_timed_out true q)
          else (Ok true, q)
      end
  else (Ok false, q).

(** Number of count-determining requests in a trace. *)
Definition count_requests {Row QP} (tr : list (Event Row QP)) : nat :=
  length (filter (λ r, count_determining r = true) (requests tr)).

(** A result that is not a usage error. *)
Definition not_usage_error {A} (r : result A) : Prop :=
  match r with
  | Raise e => is_UsageError e = false
  | _ => True
  end.

Section Transport.

Variables Row World QP : Type.

(** [cbc_sdk.utils.convert_query_params] is not under src/; the request
    carries whatever it makes of the dictionary. *)
Variable convert_query_params : gmap string ArgVal → QP.

(** The server behind [self._cb]: a response and the world after it. *)
Variable transport : World → Request QP → Response Row * World.

(** [time.time() * 1000] and [time.sleep(.5)]. *)
Variable now : World → Z.
Variable sleep : World → World.

(** A method of an object of class [O]: it may change the object and the
    world, leaves a trace, and returns, raises or runs out of fuel. *)
Definition M (O A : Type) : Type :=
  O * World → result A * (O * World) * list (Event Row QP).

Definition ret {O A} (a : A) : M O A := λ s, (Ok a, s, []).

Definition bind {O A B} (m : M O A) (k : A → M O B) : M O B :=
  λ s, match m s with
       | (Ok a, s1, t1) => let '(r, s2, t2) := k a s1 in (r, s2, t1 ++ t2)
       | (Raise e, s1, t1) => (Raise e, s1, t1)
       | (Diverge, s1, t1) => (Diverge, s1, t1)
       end.

#[local] Instance M_ret {O} : MRet (M O) := λ A, ret.
#[local] Instance M_bind {O} : MBind (M O) := λ A B k m, bind m k.

Definition raise {O A} (e : exn) : M O A := λ s, (Raise e, s, []).
Definition diverge {O A} : M O A := λ s, (Diverge, s, []).
Definition get_self {O} : M O O := λ s, (Ok (fst s), s, []).
Definition modify {O} (f : O → O) : M O unit := λ s, (Ok tt, (f (fst s), snd s), []).
Definition yield {O} (row : Row) : M O unit := λ s, (Ok tt, s, [Yield row]).
Definition call {O} (r : Request QP) : M O (Response Row) :=
  λ s, let '(resp, w) := transport (snd s) r in (Ok resp, (fst s, w), [Call r resp]).
Definition time_ms {O} : M O Z := λ s, (Ok (now (snd s)), s, []).
Definition time_sleep {O} : M O unit := λ s, (Ok tt, (fst s, sleep (snd s)), [Sleep]).

(** *** Query *)

(** [Query._count] *)
Definition Query_count : M Query Z :=
  self ← get_self;
  if _count_valid self then mret (_total_results self)
  else
    let args := prepare_query self ∅ in
    let query_args := convert_query_params args in
    result ← call (GET_search query_args);
    modify (set_total_results (default 0 (totalResults result)));;
    modify (set_count_valid true);;
    self ← get_self;
    mret (_total_results self).

(** The [for item in results] loop of [Query._search]. *)
Fixpoint for_item_in (results : list Row) (rows : Z) (v : SearchVars)
  : M Query SearchVars :=
  match results with
  | [] => mret v
  | item :: rest =>
      yield item;;
      let v := mkSearchVars (args v) (current v + 1) (numrows v + 1) (still_querying v) in
      if negb (rows =? 0) && (numrows v =? rows)
      then mret (mkSearchVars (args v) (current v) (numrows v) false)
      else for_item_in rest rows v
  end.

(** The [while still_querying] loop of [Query._search]. *)
Fixpoint search_while (fuel : nat) (rows : Z) (v : SearchVars) : M Query unit :=
  if negb (still_querying v) then mret tt
  else
    match fuel with
    | O => diverge
    | S fuel =>
        let query_args := convert_query_params (args v) in
        result ← call (GET_search query_args);
        modify (set_total_results (default 0 (totalResults result)));;
        modify (set_count_valid true);;
        match get_results result with
        | None => mret tt
        | Some results =>
            v ← for_item_in results rows v;
            let v := mkSearchVars (<["start" := AInt (current v + 1)]> (args v))
                       (current v) (numrows v) (still_querying v) in
            self ← get_self;
            if _total_results self <=? current v then mret tt
            else
              match results with
              | [] => modify (set_total_results (current v))
              | _ :: _ => search_while fuel rows v
              end
        end
    end.

(** [Query._search], consumed to the end. *)
Definition Query_search (fuel : nat) (start rows : Z) : M Query unit :=
  let args : gmap string ArgVal := ∅ in
  let args := if negb (start =? 0) then <["start" := AInt start]> args else args in
  self ← get_self;
  let args := <["rows" := AInt (_batch_size self)]> args in
  let args := prepare_query self args in
  search_while fuel rows (mkSearchVars args start 0 true).

(** *** EnrichedEventQuery *)

Definition set_total (n : Z) (q : EnrichedEventQuery) : EnrichedEventQuery :=
  set_base (set_total_results n (base q)) q.

Definition set_valid (b : bool) (q : EnrichedEventQuery) : EnrichedEventQuery :=
  set_base (set_count_valid b (base q)) q.

(** [EnrichedEventQuery._submit]; the body is [_get_query_parameters()]:
    a copy of [_default_args] with ["query"] set to the collapsed filter. *)
Definition _submit : M EnrichedEventQuery unit :=
  self ← get_self;
  if truthy_token (_query_token self)
  then raise (ApiError "Query already submitted")
  else
    query_start ← call (POST_search_jobs (_default_args self)
                          (_collapse (_query_builder (base self))));
    modify (set_query_token (job_id query_start));;
    modify (set_timed_out false);;
    t ← time_ms;
    modify (set_submit_time (Some t)).

(** [EnrichedEventQuery._still_querying] *)
Definition _still_querying : M EnrichedEventQuery bool :=
  self ← get_self;
  (if negb (truthy_token (_query_token self)) then _submit else mret tt);;
  self ← get_self;
  result ← call (GET_job_status (_query_token self));
  let searchers_contacted := default 0 (contacted result) in
  let searchers_completed := default 0 (completed result) in
  if searchers_contacted =? 0 then mret true
  else if searchers_completed <? searchers_contacted then
    if _timeout self =? 0 then mret true
    else
      t ← time_ms;
      match _submit_time self with
      | None => raise (AttributeError "_submit_time")
      | Some submit_time =>
          if _timeout self <? t - submit_time
          then (modify (set_timed_out true);; mret false)
          else mret true
      end
  else mret false.

(** [while self._still_querying(): time.sleep(.5)] *)
Fixpoint wait_while_querying (fuel : nat) : M EnrichedEventQuery unit :=
  match fuel with
  | O => diverge
  | S fuel =>
      querying ← _still_querying;
      if querying : bool then (time_sleep;; wait_while_querying fuel) else mret tt
  end.

Definition timeout_message : string :=
  "user-specified timeout exceeded while waiting for results".

(** [EnrichedEventQuery._count] *)
Definition EnrichedEventQuery_count (fuel : nat) : M EnrichedEventQuery Z :=
  self ← get_self;
  if _count_valid (base self) then mret (_total_results (base self))
  else
    wait_while_querying fuel;;
    self ← get_self;
    if _timed_out self
    then raise (raise_with_message_kw "TimeoutError" timeout_message)
    else
      result ← call (GET_job_results (_query_token self));
      modify (set_total (default 0 (num_available result)));;
      modify (set_valid true);;
      self ← get_self;
      mret (_total_results (base self)).

(** The [for item in results] loop of [EnrichedEventQuery._search]. *)
Fixpoint fetch_item_in (results : list Row) (rows : Z) (v : FetchVars)
  : M EnrichedEventQuery FetchVars :=
  match results with
  | [] => mret v
  | item :: rest =>
      yield item;;
      let v := mkFetchVars (f_current v + 1) (rows_fetched v + 1) (still_fetching v) in
      if negb (rows =? 0) && (rows <=? rows_fetched v)
      then mret (mkFetchVars (f_current v) (rows_fetched v) false)
      else fetch_item_in rest rows v
  end.

(** The [while still_fetching] loop of [EnrichedEventQuery._search]. *)
Fixpoint fetch_while (fuel : nat) (rows : Z) (v : FetchVars) : M EnrichedEventQuery unit :=
  if negb (still_fetching v) then mret tt
  else
    match fuel with
    | O => diverge
    | S fuel =>
        self ← get_self;
        result ← call (GET_job_results_page (_query_token self) (f_current v)
                         (_batch_size (base self)));
        modify (set_total (default 0 (num_available result)));;
        modify (set_valid true);;
        match get_results result with
        | None => raise (TypeError "'NoneType' object is not iterable")
        | Some results =>
            v ← fetch_item_in results rows v;
            self ← get_self;
            let v := if _total_results (base self) <=? f_current v
                     then mkFetchVars (f_current v) (rows_fetched v) false
                     else v in
            fetch_while fuel rows v
        end
    end.

(** [EnrichedEventQuery._search], consumed to the end. *)
Definition EnrichedEventQuery_search (fuel : nat) (start rows : Z)
  : M EnrichedEventQuery unit :=
  self ← get_self;
  (if negb (truthy_token (_query_token self)) then _submit else mret tt);;
  wait_while_querying fuel;;
  self ← get_self;
  if _timed_out self
  then raise (raise_with_message_kw "TimeoutError" timeout_message)
  else fetch_while fuel rows (mkFetchVars start 0 true).

(** The status check of [_still_querying], after the token test: the
    request, the verdict on its response, and the object it leaves. *)
Definition check_status (q : EnrichedEventQuery) (w : World)
  : result bool * (EnrichedEventQuery * World) * list (Event Row QP) :=
  let req := GET_job_status (_query_token q) in
  let '(resp, w1) := transport w req in
  let '(r, q') := status_verdict q resp (now w1) in
  (r, (q', w1), [Call req resp]).

(** Modelled from the spec: [PaginatedQuery.__len__], which is in
    [cbc_sdk.base] and not under src/; [len(query)] is [_count()]. *)
Definition Query_len : M Query Z := Query_count.

Definition EnrichedEventQuery_len (fuel : nat) : M EnrichedEventQuery Z :=
  EnrichedEventQuery_count fuel.

(** [n] calls of a method one after the other by a caller that catches
    whatever a call raises: the results in order, and the whole trace. *)
Fixpoint repeat_call {O A} (n : nat) (m : M O A) (s : O * World)
  : list (result A) * (O * World) * list (Event Row QP) :=
  match n with
  | O => ([], s, [])
  | S n =>
      let '(r, s1, t1) := m s in
      let '(rs, s2, t2) := repeat_call n m s1 in
      (r :: rs, s2, t1 ++ t2)
  end.

End Transport.

Arguments M Row World QP O A : clear implicits.
Arguments Query_count {Row World QP}.
Arguments Query_search {Row World QP}.
Arguments search_while {Row World QP}.
Arguments for_item_in {Row World QP}.
Arguments _submit {Row World QP}.
Arguments _still_querying {Row World QP}.
Arguments wait_while_querying {Row World QP}.
Arguments EnrichedEventQuery_count {Row World QP}.
Arguments EnrichedEventQuery_search {Row World QP}.
Arguments fetch_while {Row World QP}.
Arguments fetch_item_in {Row World QP}.
Arguments Query_len {Row World QP}.
Arguments EnrichedEventQuery_len {Row World QP}.
Arguments repeat_call {Row World QP O A}.
Arguments check_status {Row World QP}.

(** ** The loops of [Query._search] as functions of a page *)

(** The rows one pass of the [for] loop yields when [n] rows were
    yielded before it. *)
Fixpoint for_rows {Row} (results : list Row) (rows n : Z) : list Row :=
  match results with
  | [] => []
  | item :: rest =>
      if negb (rows =? 0) && (n + 1 =? rows) then [item]
      else item :: for_rows rest rows (n + 1)
  end.

(** Whether that pass ended with [break]. *)
Fixpoint for_broke {Row} (results : list Row) (rows n : Z) : bool :=
  match results with
  | [] => false
  | item :: rest =>
      if negb (rows =? 0) && (n + 1 =? rows) then true
      else for_broke rest rows (n + 1)
  end.

Definition for_vars {Row} (results : list Row) (rows : Z) (v : SearchVars) : SearchVars :=
  let k := Z.of_nat (length (for_rows results rows (numrows v))) in
  mkSearchVars (args v) (current v + k) (numrows v + k)
    (still_querying v && negb (for_broke results rows (numrows v))).

(** The variables after a page: the [for] loop, then [args['start']]. *)
Definition page_vars {Row} (results : list Row) (rows : Z) (v : SearchVars) : SearchVars :=
  let v1 := for_vars results rows v in
  mkSearchVars (<["start" := AInt (current v1 + 1)]> (args v1))
    (current v1) (numrows v1) (still_querying v1).

(** The arguments of the first request of [Query._search]. *)
Definition first_args (q : Query) (start : Z) : gmap string ArgVal :=
  prepare_query q
    (<["rows" := AInt (_batch_size q)]>
       (if negb (start =? 0) then <["start" := AInt start]> ∅ else ∅)).

(** ** Concrete servers, for the scenarios of the test plan *)

Definition empty_response {Row} : Response Row :=
  mkResponse None Absent None None None None.

(** Rows of a page of the legacy search endpoint: [start] is 1-based and a
    request without [start] begins at the first row. *)
Definition page_of (total : Z) (qp : gmap string ArgVal) : list Z :=
  let s := match qp !! "start" with Some (AInt s) => s | _ => 1 end in
  let n := match qp !! "rows" with Some (AInt n) => n | _ => 0 end in
  seqZ s (Z.min n (total - s + 1)).

(** A search endpoint holding the rows [1 .. total]. *)
Definition paged_server (total : Z) (w : unit) (r : Request (gmap string ArgVal))
  : Response Z * unit :=
  match r with
  | GET_search qp =>
      (mkResponse (Some total) (Rows (page_of total qp)) None None None None, w)
  | _ => (empty_response, w)
  end.

(** A search endpoint that reports [total] rows and delivers only
    [1 .. have]. *)
Definition drifting_server (total have : Z) (w : unit) (r : Request (gmap string ArgVal))
  : Response Z * unit :=
  match r with
  | GET_search qp =>
      (mkResponse (Some total) (Rows (page_of have qp)) None None None None, w)
  | _ => (empty_response, w)
  end.

(** The world of a job endpoint: a clock in milliseconds and the number
    of status requests answered. *)
Record JobWorld := mkJobWorld { clock : Z; polls : nat }.

Definition tick (ms : Z) (w : JobWorld) : JobWorld :=
  mkJobWorld (clock w + ms) (polls w).

(** [time.sleep(.5)] *)
Definition sleep_half_second (w : JobWorld) : JobWorld := tick 500 w.

(** A job endpoint whose status always reports 2 of 5 searchers completed;
    every request takes 10 ms. *)
Definition stuck_server (w : JobWorld) (r : Request (gmap string ArgVal))
  : Response Z * JobWorld :=
  match r with
  | POST_search_jobs _ _ =>
      (mkResponse None Absent (Some "job-1") None None None, tick 10 w)
  | GET_job_status _ =>
      (mkResponse None Absent None (Some 5) (Some 2) None,
       mkJobWorld (clock w + 10) (S (polls w)))
  | _ => (empty_response, tick 10 w)
  end.

(** A job endpoint that reports completion from its [ready]-th status
    request on and holds the rows [1 .. n]; the results endpoint is
    0-indexed. *)
Definition job_server (ready : nat) (n : Z) (w : JobWorld)
    (r : Request (gmap string ArgVal)) : Response Z * JobWorld :=
  match r with
  | POST_search_jobs _ _ =>
      (mkResponse None Absent (Some "job-1") None None None, tick 10 w)
  | GET_job_status _ =>
      (mkResponse None Absent None (Some 5)
         (Some (if (ready <=? S (polls w))%nat then 5 else 2)) None,
       mkJobWorld (clock w + 10) (S (polls w)))
  | GET_job_results _ =>
      (mkResponse None Absent None None None (Some n), tick 10 w)
  | GET_job_results_page _ start rows =>
      (mkResponse None (Rows (seqZ (start + 1) (Z.min rows (n - start))))
         None None None (Some n), tick 10 w)
  | GET_search _ => (empty_response, tick 10 w)
  end.

Definition world0 : JobWorld := mkJobWorld 0 0.

(** A sequence of [sort_by] calls, oldest first. *)
Definition sort_calls (calls : list (string * string)) (q : EnrichedEventQuery)
  : EnrichedEventQuery :=
  foldl (λ q c, sort_by c.1 c.2 q) q calls.

(** [sort_item['order'] = direction] on the items whose field is [key]. *)
Definition overwrite (key direction : string) (sort_item : SortItem) : SortItem :=
  if String.eqb (field sort_item) key then mkSortItem (field sort_item) direction
  else sort_item.

(** The time range after the three blocks of [set_time_range]. *)
Definition store_if_truthy (name : string) (v : PyVal) (m : gmap string string)
  : gmap string string :=
  if truthy v then <[name := str_of v]> m else m.

(** An argument that passes its block: falsy, or a string. *)
Definition passes (v : PyVal) : bool := negb (truthy v) || isinstance_str v.

(** The parameters of a page request with batch size 100; [start] is
    absent on the first page. *)
Definition page_params (start_param : option Z) : gmap string ArgVal :=
  match start_param with
  | None => {["rows" := AInt 100]}
  | Some s => <["start" := AInt s]> {["rows" := AInt 100]}
  end.

(** One page of the 250-row scenario as the observer sees it: the request,
    the response, and the rows [first .. first + len - 1] yielded. *)
Definition page_250 (start_param : option Z) (first len : Z)
  : list (Event Z (gmap string ArgVal)) :=
  Call (GET_search (page_params start_param))
       (mkResponse (Some 250) (Rows (seqZ first len)) None None None None)
    :: map Yield (seqZ first len).

(** A full iteration against a server that reports 250 rows and has 130. *)
Definition run_drift
  : result unit * (Query * unit) * list (Event Z (gmap string ArgVal)) :=
  Query_search id (drifting_server 250 130) 3 0 0 (Query_init, tt).

(** A query with a timeout of 100 ms, as [timeout(100)] leaves it. *)
Definition query_timeout_100 : EnrichedEventQuery :=
  timeout 100 EnrichedEventQuery_init.

(** A query that holds a job token. *)
Definition query_submitted : EnrichedEventQuery :=
  set_submit_time (Some 0) (set_query_token (Some "job-1") EnrichedEventQuery_init).

(** A search endpoint that reports [total] rows, delivers the rows
    [1 .. cap] and answers a request beyond them with a null result list. *)
Definition capped_server (total cap : Z) (w : unit) (r : Request (gmap string ArgVal))
  : Response Z * unit :=
  match r with
  | GET_search qp =>
      (mkResponse (Some total)
         (match page_of cap qp with [] => Null | page => Rows page end)
         None None None None, w)
  | _ => (empty_response, w)
  end.

(** A full iteration against a server that reports 250 rows and answers
    with null after 130. *)
Definition run_capped
  : result unit * (Query * unit) * list (Event Z (gmap string ArgVal)) :=
  Query_search id (capped_server 250 130) 3 0 0 (Query_init, tt).

(** ** The loops of [EnrichedEventQuery._search] as functions of a page *)

(** The rows one pass of the [for] loop yields when [n] rows were fetched
    before it; the pass breaks once [rows_fetched >= rows] for a non-zero
    [rows]. *)
Fixpoint fetch_rows {Row} (results : list Row) (rows n : Z) : list Row :=
  match results with
  | [] => []
  | item :: rest =>
      if negb (rows =? 0) && (rows <=? n + 1) then [item]
      else item :: fetch_rows rest rows (n + 1)
  end.

(** Whether that pass ended with [break]. *)
Fixpoint fetch_broke {Row} (results : list Row) (rows n : Z) : bool :=
  match results with
  | [] => false
  | item :: rest =>
      if negb (rows =? 0) && (rows <=? n + 1) then true
      else fetch_broke rest rows (n + 1)
  end.

Definition fetch_vars {Row} (results : list Row) (rows : Z) (v : FetchVars) : FetchVars :=
  let k := Z.of_nat (length (fetch_rows results rows (rows_fetched v))) in
  mkFetchVars (f_current v + k) (rows_fetched v + k)
    (still_fetching v && negb (fetch_broke results rows (rows_fetched v))).

(** [if current >= self._total_results: still_fetching = False] *)
Definition after_page (total : Z) (v : FetchVars) : FetchVars :=
  if total <=? f_current v then mkFetchVars (f_current v) (rows_fetched v) false else v.

(** The events of polling: job creation, status requests and sleeps. *)
Definition polling_event {Row QP} (e : Event Row QP) : bool :=
  match e with
  | Call (POST_search_jobs _ _) _ | Call (GET_job_status _) _ | Sleep => true
  | _ => false
  end.

Definition is_status {QP} (r : Request QP) : bool :=
  match r with GET_job_status _ => true | _ => false end.

Definition is_page {QP} (r : Request QP) : bool :=
  match r with GET_job_results_page _ _ _ => true | _ => false end.

(** The part of [EnrichedEventQuery._search] before its first page: the
    submission of a query without a token, then the polling loop. *)
Definition search_prologue {Row World QP}
    (transport : World → Request QP → Response Row * World)
    (now : World → Z) (sleep : World → World) (fuel : nat)
    (s : EnrichedEventQuery * World)
  : result unit * (EnrichedEventQuery * World) * list (Event Row QP) :=
  let '(r0, s0, t0) :=
    if truthy_token (_query_token s.1) then (Ok tt, s, [])
    else _submit transport now s in
  match r0 with
  | Ok _ =>
      let '(r1, s1, t1) := wait_while_querying transport now sleep fuel s0 in
      (r1, s1, t0 ++ t1)
  | Raise e => (Raise e, s0, t0)
  | Diverge => (Diverge, s0, t0)
  end.

(** Number of requests of a trace that satisfy [p]. *)
Definition count_calls {Row QP} (p : Request QP → bool) (tr : list (Event Row QP)) : nat :=
  length (filter (λ r, p r = true) (requests tr)).

(** A job endpoint that reports completion at once, promises [n] rows and
    delivers empty pages. *)
Definition empty_pages_server (n : Z) (w : JobWorld)
    (r : Request (gmap string ArgVal)) : Response Z * JobWorld :=
  match r with
  | POST_search_jobs _ _ =>
      (mkResponse None Absent (Some "job-1") None None None, tick 10 w)
  | GET_job_status _ =>
      (mkResponse None Absent None (Some 5) (Some 5) None, tick 10 w)
  | GET_job_results _ | GET_job_results_page _ _ _ =>
      (mkResponse None (Rows []) None None None (Some n), tick 10 w)
  | GET_search _ => (empty_response, tick 10 w)
  end.

(** A job endpoint whose searchers have not been contacted yet. *)
Definition uncontacted_server (w : JobWorld) (r : Request (gmap string ArgVal))
  : Response Z * JobWorld :=
  match r with
  | POST_search_jobs _ _ =>
      (mkResponse None Absent (Some "job-1") None None None, tick 10 w)
  | GET_job_status _ =>
      (mkResponse None Absent None (Some 0) (Some 0) None, tick 10 w)
  | _ => (empty_response, tick 10 w)
  end.

(** A job endpoint whose job creation answers without a [job_id]. *)
Definition tokenless_server (w : JobWorld) (r : Request (gmap string ArgVal))
  : Response Z * JobWorld :=
  match r with
  | GET_job_status _ =>
      (mkResponse None Absent None (Some 5) (Some 2) None, tick 10 w)
  | _ => (empty_response, tick 10 w)
  end.

(** A job that completes at its second status request and holds 250
    rows, iterated to the end by a fresh query. *)
Definition run_job
  : result unit * (EnrichedEventQuery * JobWorld) * list (Event Z (gmap string ArgVal)) :=
  EnrichedEventQuery_search (job_server 2 250) clock sleep_half_second 4 0 0
    (EnrichedEventQuery_init, world0).

(** A query whose polling ran into its timeout. *)
Definition query_timed_out : EnrichedEventQuery :=
  set_timed_out true query_submitted.

(** ** More methods that only touch the object *)

Definition set_batch_size (n : Z) (q : Query) : Query :=
  mkQuery n (_query_builder q) (_total_results q) (_count_valid q).

(** [isinstance(v, int)]; Python's [bool] is a subclass of [int]. *)
Definition isinstance_int (v : PyVal) : bool :=
  match v with PyInt _ | PyBool _ => true | _ => false end.

(** The integer an [int] stands for; [True] and [False] are 1 and 0. *)
Definition int_of (v : PyVal) : Z :=
  match v with
  | PyInt z => z
  | PyBool b => Z.b2z b
  | _ => 0
  end.

(** [f"{v}"] *)
Definition py_format (v : PyVal) : string :=
  match v with
  | PyNone => "None"
  | PyBool b => if b then "True" else "False"
  | PyInt z => pretty z
  | PyStr s => s
  end.

(** [f"{type(v)}"] *)
Definition py_type (v : PyVal) : string :=
  match v with
  | PyNone => "<class 'NoneType'>"
  | PyBool _ => "<class 'bool'>"
  | PyInt _ => "<class 'int'>"
  | PyStr _ => "<class 'str'>"
  end.

(** [EnrichedEventQuery.set_rows].  [True] and [False] pass the test and
    are stored as they are; the record keeps the integer they equal. *)
Definition set_rows (rows : PyVal) (q : EnrichedEventQuery)
  : result unit * EnrichedEventQuery :=
  if negb (isinstance_int rows)
  then (Raise (ApiError ("Rows must be an integer. " +:+ py_format rows +:+ " is a "
                           +:+ py_type rows +:+ ".")), q)
  else
    let q := set_base (set_batch_size (int_of rows) (base q)) q in
    (Ok tt,
     set_default_args
       (mkDefaultArgs (Some (_batch_size (base q))) (da_sort (_default_args q))) q).

(** [c in s] for a character. *)
Fixpoint contains (c : ascii) (s : string) : bool :=
  match s with
  | EmptyString => false
  | String a s' => Ascii.eqb a c || contains c s'
  end.

(** A job of 120 rows iterated after [set_rows(50)]. *)
Definition run_rows_50
  : result unit * (EnrichedEventQuery * JobWorld) * list (Event Z (gmap string ArgVal)) :=
  EnrichedEventQuery_search (job_server 1 120) clock sleep_half_second 4 0 0
    ((set_rows (PyInt 50) EnrichedEventQuery_init).2, world0).

(** The outcome of a call whose query carries another time range. *)
Definition with_time_range {A World Ev} (m : gmap string string)
    (x : result A * (EnrichedEventQuery * World) * list Ev)
  : result A * (EnrichedEventQuery * World) * list Ev :=
  (x.1.1, (set_time_range_attr m x.1.2.1, x.1.2.2), x.2).

(** ** Reading a trace *)

(** The rows handed to the consumer, in order. *)
Fixpoint rows_of {Row QP} (tr : list (Event Row QP)) : list Row :=
  match tr with
  | [] => []
  | Yield row :: tr => row :: rows_of tr
  | _ :: tr => rows_of tr
  end.

(** The rows the server delivered, page after page; a page without a list
    delivers nothing. *)
Fixpoint pages_of {Row QP} (tr : list (Event Row QP)) : list Row :=
  match tr with
  | [] => []
  | Call _ resp :: tr => default [] (get_results resp) ++ pages_of tr
  | _ :: tr => pages_of tr
  end.

(** The first [rows - n] elements for a positive [rows], every element
    otherwise. *)
Definition limit_from {A} (n rows : Z) (l : list A) : list A :=
  if 0 <? rows then take (Z.to_nat (rows - n)) l else l.

(** The responses of a trace, in order. *)
Fixpoint responses {Row QP} (tr : list (Event Row QP)) : list (Response Row) :=
  match tr with
  | [] => []
  | Call _ resp :: tr => resp :: responses tr
  | _ :: tr => responses tr
  end.

(** Number of [time.sleep(.5)] in a trace. *)
Fixpoint sleeps {Row QP} (tr : list (Event Row QP)) : nat :=
  match tr with
  | [] => 0
  | Sleep :: tr => S (sleeps tr)
  | _ :: tr => sleeps tr
  end.

(** ** Mutable models: [EndpointStandardMutableModel] *)

(** A decoded JSON document; a dictionary keeps its keys in order.
    Numbers are integers here. *)
#[warnings="-register-all"] Inductive Json :=
| JNull
| JBool (b : bool)
| JNum (z : Z)
| JStr (s : string)
| JList (l : list Json)
| JDict (d : list (string * Json)).

Definition Dict : Type := list (string * Json).

(** [d.get(k)] *)
Fixpoint dict_get (k : string) (d : Dict) : option Json :=
  match d with
  | [] => None
  | (k', v) :: d => if String.eqb k' k then Some v else dict_get k d
  end.

(** [k in d.keys()] *)
Definition has_key (k : string) (d : Dict) : bool :=
  match dict_get k d with Some _ => true | None => false end.

(** [d[k] = v] *)
Fixpoint dict_set (k : string) (v : Json) (d : Dict) : Dict :=
  match d with
  | [] => [(k, v)]
  | (k', v') :: d =>
      if String.eqb k' k then (k', v) :: d else (k', v') :: dict_set k v d
  end.

(** [del d[k]] inside [try ... except Exception: pass] *)
Fixpoint dict_discard (k : string) (d : Dict) : Dict :=
  match d with
  | [] => []
  | (k', v) :: d => if String.eqb k' k then d else (k', v) :: dict_discard k d
  end.

(** [if j:] *)
Definition json_truthy (j : Json) : bool :=
  match j with
  | JNull => false
  | JBool b => b
  | JNum z => negb (z =? 0)
  | JStr s => negb (String.eqb s "")
  | JList l => match l with [] => false | _ => true end
  | JDict d => match d with [] => false | _ => true end
  end.

(** What [api_json_request] returns: [status_code], [text], and what
    [json()] makes of the text, [None] when it is no JSON. *)
Record HttpResponse := mkHttpResponse {
  status_code : Z;
  text : string;
  json_body : option Json
}.

Inductive model_exn :=
| ServerError (error_code : Z) (message : Json) (result_ : string)
| JSONDecodeError
| KeyError (key : string)
| RefreshError (description : string).

Inductive outcome (A : Type) :=
| Returned (a : A)
| Raised (e : model_exn).
Arguments Returned {A} a.
Arguments Raised {A} e.

(** The class attributes the methods read.  [declared_key_name] is the
    class attribute [_change_object_key_name]. *)
Record ModelClass := mkModelClass {
  class_name : string;
  urlobject : string;
  primary_key : string;
  info_key : string;
  _change_object_http_method : string;
  declared_key_name : option string;
  _new_object_http_method : string;
  _new_object_needs_primary_key : bool
}.

(** [_change_object_key_name] as [__init__] leaves it: the primary key
    when the class declares none. *)
Definition _change_object_key_name (cls : ModelClass) : string :=
  match declared_key_name cls with
  | Some k => if String.eqb k "" then primary_key cls else k
  | None => primary_key cls
  end.

(** [Device] and [Policy]; what they inherit from [MutableBaseModel],
    which is not under src/, is a parameter. *)
Definition Device (new_method : string) (needs_key : bool) : ModelClass :=
  mkModelClass "Device" "/integrationServices/v3/device" "deviceId" "deviceInfo"
    "PATCH" None new_method needs_key.

Definition Policy (key new_method : string) (needs_key : bool) : ModelClass :=
  mkModelClass "Policy" "/integrationServices/v3/policy" key "policyInfo"
    "PUT" (Some "policyId") new_method needs_key.

(** The attributes of a model object that the update methods write. *)
Record Model := mkModel {
  _info : Dict;
  _full_init : bool;
  _dirty_attributes : Dict
}.

Definition set_info (d : Dict) (m : Model) : Model :=
  mkModel d (_full_init m) (_dirty_attributes m).

Definition set_full_init (b : bool) (m : Model) : Model :=
  mkModel (_info m) b (_dirty_attributes m).

Definition set_dirty_attributes (d : Dict) (m : Model) : Model :=
  mkModel (_info m) (_full_init m) d.

(** [self._model_unique_id]: not an attribute of its own but the entry of
    [_info] under the primary key, [None] (JSON null) without one.  The
    property is defined in [NewBaseModel], which is not under src/;
    [_refresh_if_needed] relies on it when it writes the id the server
    returned into [_info] for [refresh] and for its return value. *)
Definition _model_unique_id (cls : ModelClass) (self : Model) : Json :=
  default JNull (dict_get (primary_key cls) (_info self)).

(** [j is None] *)
Definition is_null (j : Json) : bool :=
  match j with JNull => true | _ => false end.

(** What an observer of an update sees: a request with its response, and
    a call of [refresh]. *)
Inductive ModelEvent :=
| Sent (method uri : string) (data : Json) (ret : HttpResponse)
| Refreshed.

(** Number of calls of [refresh] in a trace. *)
Fixpoint refreshes (tr : list ModelEvent) : nat :=
  match tr with
  | [] => 0
  | Refreshed :: tr => S (refreshes tr)
  | _ :: tr => refreshes tr
  end.

(** [json.loads(request_ret.text)[0]], or the text when that raises: on
    a body that is no JSON, an empty list or string, a dictionary (its
    keys are strings) or a value that cannot be indexed. *)
Definition error_message (request_ret : HttpResponse) : Json :=
  match json_body request_ret with
  | Some (JList (m :: _)) => m
  | Some (JStr (String c _)) => JStr (String c EmptyString)
  | _ => JStr (text request_ret)
  end.

(** [updates[k] = self._info[k]] for the keys in order; [inl k] is the
    [KeyError] of a key missing from [_info]. *)
Fixpoint collect_updates (keys : list string) (info updates : Dict) : string + Dict :=
  match keys with
  | [] => inr updates
  | k :: keys =>
      match dict_get k info with
      | Some v => collect_updates keys info (dict_set k v updates)
      | None => inl k
      end
  end.

(** The message of a response that [_refresh_if_needed] takes for a
    success: status 2xx, a dictionary, a truthy ["success"]. *)
Definition success_message (request_ret : HttpResponse) : option Dict :=
  if (200 <=? status_code request_ret) && (status_code request_ret <? 300) then
    match json_body request_ret with
    | Some (JDict message) =>
        if json_truthy (default (JBool false) (dict_get "success" message))
        then Some message else None
    | _ => None
    end
  else None.

Section Models.

Variable World : Type.

(** [self._cb.api_json_request(method, uri, data=data)], [refresh()] and
    [_build_api_request_uri()] are not under src/. *)
Variable api_json_request : World → string → string → Json → HttpResponse * World.
Variable refresh : Model * World → outcome unit * (Model * World).
Variable _build_api_request_uri : Model → string.

(** [EndpointStandardMutableModel._refresh_if_needed] *)
Definition _refresh_if_needed (cls : ModelClass) (request_ret : HttpResponse)
    (s : Model * World) : outcome Json * (Model * World) * list ModelEvent :=
  let '(self, w) := s in
  if negb ((200 <=? status_code request_ret) && (status_code request_ret <? 300)) then
    (Raised (ServerError (status_code request_ret) (error_message request_ret)
               ("Did not update " +:+ class_name cls +:+ " record.")), s, [])
  else
    match json_body request_ret with
    | None => (Raised JSONDecodeError, s, [])
    | Some (JDict message) =>
        if json_truthy (default (JBool false) (dict_get "success" message)) then
          let '(self, refresh_required) :=
            match dict_get (info_key cls) message with
            | Some (JDict info) => (set_full_init true (set_info info self), false)
            | _ =>
                match dict_get (_change_object_key_name cls) message with
                | Some v =>
                    (set_info (dict_set (primary_key cls) v (_info self)) self, true)
                | None => (self, true)
                end
            end in
          let self := set_dirty_attributes [] self in
          if refresh_required : bool then
            match refresh (self, w) with
            | (Returned _, (self, w)) =>
                (Returned (_model_unique_id cls self), (self, w), [Refreshed])
            | (Raised e, s') => (Raised e, s', [Refreshed])
            end
          else (Returned (_model_unique_id cls self), (self, w), [])
        else
          (Raised (ServerError (status_code request_ret)
                     (default (JStr "") (dict_get "message" message))
                     ("Did not update " +:+ class_name cls +:+ " record.")), s, [])
    | Some message =>
        (Raised (ServerError (status_code request_ret) message
                   ("Unknown error updating " +:+ class_name cls +:+ " record.")), s, [])
    end.

(** A request, then [_refresh_if_needed] on its response. *)
Definition send_and_refresh (cls : ModelClass) (method uri : string) (data : Json)
    (s : Model * World) : outcome Json * (Model * World) * list ModelEvent :=
  let '(ret, w) := api_json_request s.2 method uri data in
  let '(r, s', t) := _refresh_if_needed cls ret (s.1, w) in
  (r, s', Sent method uri data ret :: t).

(** [EndpointStandardMutableModel._update_entire_object] *)
Definition _update_entire_object (cls : ModelClass) (s : Model * World)
  : outcome Json * (Model * World) * list ModelEvent :=
  let self := s.1 in
  if has_key (primary_key cls) (_dirty_attributes self)
     || is_null (_model_unique_id cls self)
  then
    let new_object_info := _info self in
    let new_object_info :=
      if negb (_new_object_needs_primary_key cls)
      then dict_discard (primary_key cls) new_object_info
      else new_object_info in
    send_and_refresh cls (_new_object_http_method cls) (urlobject cls)
      (JDict [(info_key cls, JDict new_object_info)]) s
  else
    send_and_refresh cls (_change_object_http_method cls) (_build_api_request_uri self)
      (JDict [(info_key cls, JDict (_info self))]) s.

(** [EndpointStandardMutableModel._patch_object] *)
Definition _patch_object (cls : ModelClass) (s : Model * World)
  : outcome Json * (Model * World) * list ModelEvent :=
  let self := s.1 in
  if has_key (primary_key cls) (_dirty_attributes self)
     || is_null (_model_unique_id cls self)
  then
    send_and_refresh cls (_new_object_http_method cls) (urlobject cls)
      (JDict (_info self)) s
  else
    match collect_updates (map fst (_dirty_attributes self)) (_info self) [] with
    | inl k => (Raised (KeyError k), s, [])
    | inr updates =>
        send_and_refresh cls (_change_object_http_method cls)
          (_build_api_request_uri self) (JDict updates) s
    end.

(** [EndpointStandardMutableModel._update_object] *)
Definition _update_object (cls : ModelClass) (s : Model * World)
  : outcome Json * (Model * World) * list ModelEvent :=
  if negb (String.eqb (_change_object_http_method cls) "PATCH")
  then _update_entire_object cls s
  else _patch_object cls s.

End Models.

Arguments _refresh_if_needed {World}.
Arguments send_and_refresh {World}.
Arguments _update_entire_object {World}.
Arguments _patch_object {World}.
Arguments _update_object {World}.

(** A server that answers every request with status 500 and a list of
    messages. *)
Definition failing_api (w : unit) (method uri : string) (data : Json)
  : HttpResponse * unit :=
  (mkHttpResponse 500 "[busy]" (Some (JList [JStr "busy"])), w).

(** A server that answers every request with the record it holds. *)
Definition record_api (info : Dict) (w : unit) (method uri : string) (data : Json)
  : HttpResponse * unit :=
  (mkHttpResponse 200 ""
     (Some (JDict [("success", JBool true); ("deviceInfo", JDict info)])), w).

(** A [refresh] that changes nothing. *)
Definition idle_refresh (s : Model * unit) : outcome unit * (Model * unit) :=
  (Returned tt, s).

Definition device_uri (self : Model) : string := "/integrationServices/v3/device/7".

(** A device with a changed name. *)
Definition renamed_device : Model :=
  mkModel [("deviceId", JNum 7); ("name", JStr "new"); ("status", JStr "LIVE")]
    true [("name", JStr "old")].

(** * Properties *)

(** ** Traces *)

Section Traces.

Context {Row QP : Type}.
Implicit Types (tr pre post : list (Event Row QP)) (ys : list Row).

Lemma yielded_nil : yielded (@nil (Event Row QP)) = 0.
Proof. reflexivity. Qed.

Lemma yielded_app tr1 tr2 : yielded (tr1 ++ tr2) = yielded tr1 + yielded tr2.
Proof. unfold yielded. rewrite filter_app, length_app. lia. Qed.

Lemma yielded_call r resp tr : yielded (Call r resp :: tr) = yielded tr.
Proof. reflexivity. Qed.

Lemma yielded_sleep tr : yielded (Sleep :: tr) = yielded tr.
Proof. reflexivity. Qed.

Lemma yielded_yield row tr : yielded (Yield row :: tr) = 1 + yielded tr.
Proof.
  unfold yielded. rewrite filter_cons. simpl.
  destruct (decide (true = true)); [|done]. simpl. lia.
Qed.

Lemma yielded_yields ys : yielded (map (@Yield Row QP) ys) = Z.of_nat (length ys).
Proof.
  induction ys as [|y ys IH]; [done|].
  cbn [map length]. rewrite yielded_yield, IH. lia.
Qed.

Lemma yielded_nonneg tr : 0 ≤ yielded tr.
Proof. unfold yielded. lia. Qed.

Lemma requests_app tr1 tr2 : requests (tr1 ++ tr2) = requests tr1 ++ requests tr2.
Proof.
  induction tr1 as [|e tr1 IH]; [done|].
  destruct e; simpl; by rewrite ?IH.
Qed.

Lemma requests_yields ys : requests (map (@Yield Row QP) ys) = [].
Proof. induction ys; [done|]. simpl. done. Qed.

Lemma count_requests_app tr1 tr2 :
  count_requests (tr1 ++ tr2) = (count_requests tr1 + count_requests tr2)%nat.
Proof. unfold count_requests. by rewrite requests_app, filter_app, length_app. Qed.

(** A request found behind a run of yields lies in what follows the run. *)
Lemma split_after_yields ys tr pre r resp post :
  map Yield ys ++ tr = pre ++ Call r resp :: post →
  ∃ pre', pre = map Yield ys ++ pre' ∧ tr = pre' ++ Call r resp :: post.
Proof.
  revert pre. induction ys as [|y ys IH]; intros pre H.
  - exists pre. done.
  - destruct pre as [|e pre]; [discriminate|].
    simpl in H. injection H as He H. subst e.
    destruct (IH _ H) as (pre' & -> & ->). by exists pre'.
Qed.

(** Where a request can sit in a page followed by more trace: it is the
    page's own request, or it lies in what follows the page. *)
Lemma split_page req0 resp0 ys tr pre r resp post :
  Call req0 resp0 :: map Yield ys ++ tr = pre ++ Call r resp :: post →
  (pre = [] ∧ r = req0 ∧ resp = resp0 ∧ post = map Yield ys ++ tr) ∨
  (∃ pre', pre = Call req0 resp0 :: map Yield ys ++ pre' ∧
           tr = pre' ++ Call r resp :: post).
Proof.
  intros H. destruct pre as [|e pre].
  - left. simpl in H. injection H as <- <- <-. done.
  - right. simpl in H. injection H as He H. subst e.
    destruct (split_after_yields _ _ _ _ _ _ H) as (pre' & -> & ->).
    by exists pre'.
Qed.

End Traces.

(** ** Running the code *)

Ltac munfold :=
  unfold mbind, mret, M_bind, M_ret, bind, ret, call, modify, get_self,
    yield, raise, diverge, time_ms, time_sleep in *.

Section Facts.

Variables Row World QP : Type.
Variable convert_query_params : gmap string ArgVal → QP.
Variable transport : World → Request QP → Response Row * World.
Variable now : World → Z.
Variable sleep : World → World.

Local Abbreviation cqp := convert_query_params.

(** *** The synchronous search *)

Lemma for_item_in_run (results : list Row) rows v s :
  for_item_in (World:=World) (QP:=QP) results rows v s =
    (Ok (for_vars results rows v), s, map Yield (for_rows results rows (numrows v))).
Proof.
  revert v. induction results as [|item rest IH]; intros v.
  - unfold for_vars. simpl. munfold.
    rewrite !Z.add_0_r, andb_true_r. by destruct v.
  - simpl. munfold. simpl.
    destruct (negb (rows =? 0) && (numrows v + 1 =? rows)) eqn:E.
    + unfold for_vars. simpl. rewrite E. simpl. by rewrite andb_false_r.
    + rewrite IH. unfold for_vars. simpl. rewrite E. simpl.
      rewrite Nat2Z.inj_succ. do 3 f_equal. f_equal; lia.
Qed.

(** One turn of the [while] loop, written out. *)
Lemma search_while_step fuel rows v q w :
  still_querying v = true →
  search_while cqp transport (S fuel) rows v (q, w) =
    let req := GET_search (cqp (args v)) in
    let '(resp, w1) := transport w req in
    let q1 := set_count_valid true
                (set_total_results (default 0 (totalResults resp)) q) in
    match get_results resp with
    | None => (Ok tt, (q1, w1), [Call req resp])
    | Some results =>
        let v2 := page_vars results rows v in
        let tr1 := Call req resp :: map Yield (for_rows results rows (numrows v)) in
        if default 0 (totalResults resp) <=? current v2 then (Ok tt, (q1, w1), tr1)
        else
          match results with
          | [] => (Ok tt, (set_total_results (current v2) q1, w1), tr1)
          | _ :: _ =>
              let '(r, s2, t2) := search_while cqp transport fuel rows v2 (q1, w1) in
              (r, s2, tr1 ++ t2)
          end
    end.
Proof.
  intros Hq. cbn [search_while]. rewrite Hq. cbn [negb].
  munfold. cbn [fst snd].
  destruct (transport w _) as [resp w1]. cbn [fst snd].
  destruct (get_results resp) as [results|]; [|done].
  rewrite for_item_in_run. cbn [fst snd].
  unfold page_vars. cbn [current args numrows still_querying for_vars].
  cbn [set_count_valid set_total_results _total_results].
  destruct (_ <=? _); [by rewrite app_nil_r|].
  destruct results as [|item rest]; [done|].
  destruct (search_while _ _ _ _ _ _) as [[r s2] t2].
  by rewrite app_nil_l.
Qed.

Lemma for_vars_nil rows (v : SearchVars) : for_vars (@nil Row) rows v = v.
Proof.
  unfold for_vars. simpl. rewrite !Z.add_0_r, andb_true_r. by destruct v.
Qed.

Lemma current_page_vars results rows v :
  current (page_vars results rows v) =
    current v + yielded (map (@Yield Row QP) (for_rows results rows (numrows v))).
Proof. by rewrite yielded_yields. Qed.

(** An empty page below the reported total ends the loop and clamps the
    cached total to the position reached. *)
Lemma search_while_empty_page fuel : ∀ rows v q w r s' tr,
  search_while cqp transport fuel rows v (q, w) = (r, s', tr) →
  ∀ pre req resp post,
    tr = pre ++ Call req resp :: post →
    get_results resp = Some [] →
    current v + yielded pre < default 0 (totalResults resp) →
    post = [] ∧ r = Ok tt ∧
    _total_results (fst s') = current v + yielded pre ∧
    _count_valid (fst s') = true.
Proof.
  induction fuel as [|fuel IH]; intros rows v q w r s' tr Hrun pre req resp post Htr Hres Hlt.
  - simpl in Hrun. destruct (still_querying v); simpl in Hrun;
      injection Hrun as _ _ <-; by destruct pre.
  - destruct (still_querying v) eqn:Hq;
      [|simpl in Hrun; rewrite Hq in Hrun; injection Hrun as _ _ <-; by destruct pre].
    rewrite search_while_step in Hrun by done. cbv zeta in Hrun.
    destruct (transport w _) as [resp0 w1].
    destruct (get_results resp0) as [results|] eqn:Hres0.
    + pose proof (current_page_vars results rows v) as Hcur.
      remember (for_rows results rows (numrows v)) as ys eqn:Hys.
      remember (page_vars results rows v) as v2 eqn:Hv2.
      destruct (_ <=? _) eqn:Hle.
      * injection Hrun as <- <- <-. rewrite <- (app_nil_r (map _ _)) in Htr.
        apply split_page in Htr as [(-> & -> & -> & ->)|(pre' & _ & Hnil)];
          [|by destruct pre'].
        rewrite Hres in Hres0. injection Hres0 as <-. simpl in Hys. subst ys.
        exfalso. apply Z.leb_le in Hle. rewrite Hcur in Hle.
        change (yielded (map Yield [])) with 0 in *. change (yielded []) with 0 in *. lia.
      * destruct results as [|item rest].
        -- injection Hrun as <- <- <-. simpl in Hys. subst ys.
           rewrite <- (app_nil_r (map _ _)) in Htr.
           apply split_page in Htr as [(-> & -> & -> & ->)|(pre' & _ & Hnil)];
             [|by destruct pre'].
           split; [done|]. split; [done|]. split; [|done].
           cbn [fst set_total_results _total_results]. by rewrite Hcur.
        -- destruct (search_while _ _ _ _ _ _) as [[r2 s2] t2] eqn:Hrec.
           injection Hrun as <- <- <-.
           change ((Call ?a ?b :: ?l) ++ t2) with (Call a b :: l ++ t2) in Htr.
           apply split_page in Htr as [(-> & -> & -> & ->)|(pre' & -> & Ht2)].
           ++ rewrite Hres in Hres0. discriminate.
           ++ rewrite yielded_call, yielded_app, Z.add_assoc, <- Hcur in Hlt |- *.
              by eapply IH.
    + injection Hrun as <- <- <-.
      change [Call ?a ?b] with (Call a b :: map Yield [] ++ []) in Htr.
      apply split_page in Htr as [(-> & -> & -> & ->)|(pre' & _ & Hnil)];
        [|by destruct pre'].
      rewrite Hres in Hres0. discriminate.
Qed.

(** Every request of the loop after its first carries
    [start = current + 1], where [current] counts the rows consumed. *)
Lemma search_while_next_start fuel : ∀ rows v q w r s' tr,
  search_while cqp transport fuel rows v (q, w) = (r, s', tr) →
  ∀ pre req resp post,
    tr = pre ++ Call req resp :: post →
    (pre = [] ∧ req = GET_search (cqp (args v))) ∨
    (pre ≠ [] ∧ ∃ a, req = GET_search (cqp a) ∧
       a !! "start" = Some (AInt (current v + yielded pre + 1))).
Proof.
  induction fuel as [|fuel IH]; intros rows v q w r s' tr Hrun pre req resp post Htr.
  - simpl in Hrun. destruct (still_querying v); simpl in Hrun;
      injection Hrun as _ _ <-; by destruct pre.
  - destruct (still_querying v) eqn:Hq;
      [|simpl in Hrun; rewrite Hq in Hrun; injection Hrun as _ _ <-; by destruct pre].
    rewrite search_while_step in Hrun by done. cbv zeta in Hrun.
    destruct (transport w _) as [resp0 w1].
    destruct (get_results resp0) as [results|] eqn:Hres0.
    + pose proof (current_page_vars results rows v) as Hcur.
      remember (for_rows results rows (numrows v)) as ys eqn:Hys.
      assert (Hargs : args (page_vars results rows v) !! "start"
                      = Some (AInt (current (page_vars results rows v) + 1)))
        by apply lookup_insert_eq.
      remember (page_vars results rows v) as v2 eqn:Hv2.
      destruct (_ <=? _) eqn:Hle.
      * injection Hrun as <- <- <-. rewrite <- (app_nil_r (map _ _)) in Htr.
        apply split_page in Htr as [(-> & -> & -> & ->)|(pre' & _ & Hnil)];
          [by left|by destruct pre'].
      * destruct results as [|item rest].
        -- injection Hrun as <- <- <-. rewrite <- (app_nil_r (map _ _)) in Htr.
           apply split_page in Htr as [(-> & -> & -> & ->)|(pre' & _ & Hnil)];
             [by left|by destruct pre'].
        -- destruct (search_while _ _ _ _ _ _) as [[r2 s2] t2] eqn:Hrec.
           injection Hrun as <- <- <-.
           change ((Call ?a ?b :: ?l) ++ t2) with (Call a b :: l ++ t2) in Htr.
           apply split_page in Htr as [(-> & -> & -> & ->)|(pre' & -> & Ht2)];
             [by left|].
           right. split; [done|].
           rewrite yielded_call, yielded_app, Z.add_assoc, <- Hcur.
           destruct (IH _ _ _ _ _ _ _ Hrec _ _ _ _ Ht2) as [[-> ->]|(_ & a & -> & Ha)].
           ++ exists (args v2). split; [done|].
              change (yielded []) with 0. by rewrite Z.add_0_r.
           ++ by exists a.
    + injection Hrun as <- <- <-.
      change [Call ?a ?b] with (Call a b :: map Yield [] ++ []) in Htr.
      apply split_page in Htr as [(-> & -> & -> & ->)|(pre' & _ & Hnil)];
        [by left|by destruct pre'].
Qed.

(** More fuel does not change a run that ended. *)
Lemma search_while_fuel n : ∀ m rows v s r s' tr,
  search_while cqp transport n rows v s = (r, s', tr) →
  r ≠ Diverge → (n ≤ m)%nat →
  search_while cqp transport m rows v s = (r, s', tr).
Proof.
  induction n as [|n IH]; intros m rows v [q w] r s' tr Hrun Hr Hnm.
  - simpl in Hrun. destruct (still_querying v) eqn:Hq; simpl in Hrun.
    + by injection Hrun as <- _ _.
    + destruct m; simpl; by rewrite Hq.
  - destruct m as [|m]; [lia|].
    destruct (still_querying v) eqn:Hq;
      [|simpl in *; by rewrite Hq in *].
    rewrite search_while_step in Hrun |- * by done. cbv zeta in *.
    destruct (transport w _) as [resp0 w1].
    destruct (get_results resp0) as [results|]; [|done].
    destruct (_ <=? _); [done|].
    destruct results as [|item rest]; [done|].
    destruct (search_while cqp transport n _ _ _) as [[r2 s2] t2] eqn:Hrec.
    injection Hrun as <- <- <-.
    by rewrite (IH m _ _ _ _ _ _ Hrec Hr ltac:(lia)).
Qed.

(** [Query._search] is its loop started at [current = start]. *)
Lemma Query_search_unfold fuel start rows q w :
  Query_search cqp transport fuel start rows (q, w) =
    search_while cqp transport fuel rows (mkSearchVars (first_args q start) start 0 true) (q, w).
Proof.
  unfold Query_search, first_args. munfold. cbn [fst snd].
  destruct (search_while _ _ _ _ _ _) as [[r s2] t2]. done.
Qed.

(** A valid cached count is returned without a request. *)
Lemma Query_count_cached q w :
  _count_valid q = true →
  Query_count cqp transport (q, w) = (Ok (_total_results q), (q, w), []).
Proof. intros H. unfold Query_count. munfold. cbn [fst snd]. by rewrite H. Qed.

(** Without a valid count, [_count] issues one search request and caches
    the total it reports. *)
Lemma Query_count_fresh q w :
  _count_valid q = false →
  Query_count cqp transport (q, w) =
    let req := GET_search (cqp (prepare_query q ∅)) in
    let '(resp, w1) := transport w req in
    let n := default 0 (totalResults resp) in
    (Ok n, (set_count_valid true (set_total_results n q), w1), [Call req resp]).
Proof.
  intros H. unfold Query_count. munfold. cbn [fst snd]. rewrite H.
  cbn [fst snd]. destruct (transport w _) as [resp w1]. done.
Qed.

(** *** The job protocol *)

(** A second [_submit] raises and does nothing else. *)
Lemma _submit_again q w :
  truthy_token (_query_token q) = true →
  _submit transport now (q, w) =
    (Raise (ApiError "Query already submitted"), (q, w), []).
Proof. intros H. unfold _submit. munfold. cbn [fst snd]. by rewrite H. Qed.

(** The first [_submit] posts the job and stores token and time. *)
Lemma _submit_first q w :
  truthy_token (_query_token q) = false →
  _submit transport now (q, w) =
    let '(resp, w1) := transport w (submit_request q) in
    (Ok tt, (submitted q resp (now w1), w1), [Call (submit_request q) resp]).
Proof.
  intros H. unfold _submit, submit_request, submitted. munfold.
  cbn [fst snd]. rewrite H. cbn [fst snd].
  destruct (transport w _) as [resp w1]. done.
Qed.

Lemma _still_querying_submitted q w :
  truthy_token (_query_token q) = true →
  _still_querying transport now (q, w) = check_status transport now q w.
Proof.
  intros H. unfold _still_querying, check_status, status_verdict. munfold.
  cbn [fst snd]. rewrite H. cbn [negb fst snd].
  destruct (transport w _) as [resp w1]. cbn [fst snd].
  destruct (_ =? 0); [done|]. destruct (_ <? _); [|done].
  destruct (_timeout q =? 0); [done|].
  destruct (_submit_time q) as [st|]; [|done].
  by destruct (_ <? _).
Qed.

Lemma _still_querying_unsubmitted q w :
  truthy_token (_query_token q) = false →
  _still_querying transport now (q, w) =
    let '(resp, w1) := transport w (submit_request q) in
    let '(r, s2, t2) := check_status transport now (submitted q resp (now w1)) w1 in
    (r, s2, Call (submit_request q) resp :: t2).
Proof.
  intros H. unfold _still_querying.
  unfold mbind at 1. unfold M_bind, bind at 1. unfold get_self at 1. cbn [fst snd].
  rewrite H. cbn [negb].
  unfold mbind at 1. unfold M_bind, bind at 1.
  rewrite (_submit_first _ _ H).
  destruct (transport w (submit_request q)) as [resp w1].
  unfold check_status, status_verdict. munfold. cbn [fst snd].
  destruct (transport w1 _) as [resp1 w2]. cbn [fst snd].
  change (_timeout (submitted q resp (now w1))) with (_timeout q).
  change (_submit_time (submitted q resp (now w1))) with (Some (now w1)).
  destruct (_ =? 0); [done|]. destruct (_ <? _); [|done].
  destruct (_timeout q =? 0); [done|].
  by destruct (_ <? _).
Qed.

Lemma check_status_facts q w r s t :
  check_status transport now q w = (r, s, t) →
  not_usage_error r ∧ count_requests t = 0%nat ∧
  base s.1 = base q ∧ _query_token s.1 = _query_token q ∧
  (∃ b, r = Ok b) ∨ (r = Raise (AttributeError "_submit_time") ∧ _submit_time q = None
                     ∧ count_requests t = 0%nat ∧ s.1 = q).
Proof.
  unfold check_status, status_verdict. cbv zeta.
  destruct (transport w _) as [resp w1].
  assert (Hc : ∀ r, count_requests [@Call Row QP (GET_job_status r) resp] = 0%nat)
    by done.
  destruct (_ =? 0); [intros [= <- <- <-]; left; repeat split; eauto|].
  destruct (_ <? _); [|intros [= <- <- <-]; left; repeat split; eauto].
  destruct (_timeout q =? 0); [intros [= <- <- <-]; left; repeat split; eauto|].
  destruct (_submit_time q) as [st|]; [|intros [= <- <- <-]; by right].
  destruct (_ <? _); intros [= <- <- <-]; left; repeat split; eauto.
Qed.

(** [_still_querying] never raises a usage error, issues no
    count-determining request and leaves the inherited attributes alone;
    on a query without a token its first request is the job creation. *)
Lemma _still_querying_facts q w r s t :
  _still_querying transport now (q, w) = (r, s, t) →
  not_usage_error r ∧ count_requests t = 0%nat ∧ base s.1 = base q ∧
  (truthy_token (_query_token q) = false →
     (∃ b, r = Ok b) ∧ ∃ resp t', t = Call (submit_request q) resp :: t').
Proof.
  destruct (truthy_token (_query_token q)) eqn:Htok.
  - rewrite _still_querying_submitted by done. intros H.
    apply check_status_facts in H as [(? & ? & ? & ? & ?)|(-> & ? & ? & ->)];
      repeat split; done.
  - rewrite _still_querying_unsubmitted by done.
    destruct (transport w _) as [resp w1].
    destruct (check_status _ _ _ _) as [[r2 s2] t2] eqn:Hc.
    intros [= <- <- <-].
    apply check_status_facts in Hc as [(? & ? & ? & ? & ?)|(_ & ? & _)];
      [|discriminate].
    repeat split; eauto.
Qed.

(** One turn of the polling loop, written out. *)
Lemma wait_while_querying_step fuel s :
  wait_while_querying transport now sleep (S fuel) s =
    let '(r, s1, t1) := _still_querying transport now s in
    match r with
    | Ok true =>
        let '(r2, s2, t2) :=
          wait_while_querying transport now sleep fuel (s1.1, sleep s1.2) in
        (r2, s2, t1 ++ Sleep :: t2)
    | Ok false => (Ok tt, s1, t1)
    | Raise e => (Raise e, s1, t1)
    | Diverge => (Diverge, s1, t1)
    end.
Proof.
  cbn [wait_while_querying]. munfold.
  destruct (_still_querying _ _ _) as [[r s1] t1].
  destruct r as [[|]| |]; cbn [fst snd]; [|by rewrite app_nil_r|done|done].
  destruct (wait_while_querying _ _ _ _ _) as [[r2 s2] t2]. done.
Qed.

Lemma wait_while_querying_facts fuel : ∀ q w r s t,
  wait_while_querying transport now sleep fuel (q, w) = (r, s, t) →
  not_usage_error r ∧ count_requests t = 0%nat ∧ base s.1 = base q.
Proof.
  induction fuel as [|fuel IH]; intros q w r s t.
  - intros [= <- <- <-]. done.
  - rewrite wait_while_querying_step.
    destruct (_still_querying _ _ _) as [[r1 [q1 w1]] t1] eqn:H1.
    apply _still_querying_facts in H1 as (Hr1 & Hc1 & Hb1 & _).
    destruct r1 as [[|]| |]; try (intros [= <- <- <-]; done).
    cbn [fst snd].
    destruct (wait_while_querying _ _ _ _ _) as [[r2 s2] t2] eqn:H2.
    intros [= <- <- <-]. apply IH in H2 as (? & Hc2 & Hb2).
    rewrite count_requests_app, Hc1. cbn [fst] in *.
    change (count_requests (Sleep :: t2)) with (count_requests t2).
    rewrite Hc2, Hb2. done.
Qed.

(** A poll on a query without a token starts with the job creation. *)
Lemma wait_while_querying_submits fuel q w r s t :
  truthy_token (_query_token q) = false →
  wait_while_querying transport now sleep (S fuel) (q, w) = (r, s, t) →
  ∃ resp t', t = Call (submit_request q) resp :: t'.
Proof.
  intros Htok. rewrite wait_while_querying_step.
  destruct (_still_querying _ _ _) as [[r1 [q1 w1]] t1] eqn:H1.
  apply _still_querying_facts in H1 as (_ & _ & _ & H1).
  destruct (H1 Htok) as (_ & resp & t' & ->).
  destruct r1 as [[|]| |]; try (intros [= <- <- <-]; eauto).
  destruct (wait_while_querying _ _ _ _ _) as [[r2 s2] t2].
  intros [= <- <- <-]. eauto.
Qed.

(** A valid cached count is returned without polling or fetching. *)
Lemma EnrichedEventQuery_count_cached fuel q w :
  _count_valid (base q) = true →
  EnrichedEventQuery_count transport now sleep fuel (q, w) =
    (Ok (_total_results (base q)), (q, w), []).
Proof.
  intros H. unfold EnrichedEventQuery_count. munfold. cbn [fst snd]. by rewrite H.
Qed.

(** Without a valid count: poll, then raise on a timeout or read
    [num_available] with one results request. *)
Lemma EnrichedEventQuery_count_fresh fuel q w :
  _count_valid (base q) = false →
  EnrichedEventQuery_count transport now sleep fuel (q, w) =
    let '(r, s1, t1) := wait_while_querying transport now sleep fuel (q, w) in
    match r with
    | Ok _ =>
        if _timed_out s1.1
        then (Raise (raise_with_message_kw "TimeoutError" timeout_message), s1, t1)
        else
          let req := GET_job_results (_query_token s1.1) in
          let '(resp, w2) := transport s1.2 req in
          let n := default 0 (num_available resp) in
          (Ok n, (set_valid true (set_total n s1.1), w2), t1 ++ [Call req resp])
    | Raise e => (Raise e, s1, t1)
    | Diverge => (Diverge, s1, t1)
    end.
Proof.
  intros H. unfold EnrichedEventQuery_count. munfold. cbn [fst snd].
  rewrite H. cbn [fst snd].
  destruct (wait_while_querying _ _ _ _ _) as [[r [q1 w1]] t1].
  destruct r as [[]| |]; [|done|done]. cbn [fst snd].
  destruct (_timed_out q1); cbn [fst snd]; [by rewrite app_nil_r|].
  destruct (transport w1 _) as [resp w2]. done.
Qed.

Lemma fetch_item_in_ok (results : list Row) rows v (s : EnrichedEventQuery * World) :
  ∃ v' t, fetch_item_in (QP:=QP) results rows v s = (Ok v', s, t).
Proof.
  revert v. induction results as [|item rest IH]; intros v.
  - by eexists _, _.
  - cbn [fetch_item_in]. munfold. cbn [fst snd].
    destruct (_ && _).
    + by eexists _, _.
    + destruct (IH (mkFetchVars (f_current v + 1) (rows_fetched v + 1) (still_fetching v)))
        as (v' & t & ->). by eexists _, _.
Qed.

(** The fetch loop never raises a usage error. *)
Lemma fetch_while_facts fuel : ∀ rows v s r s' t,
  fetch_while transport fuel rows v s = (r, s', t) → not_usage_error r.
Proof.
  induction fuel as [|fuel IH]; intros rows v [q w] r s' t.
  - cbn [fetch_while]. destruct (still_fetching v); intros [= <- <- <-]; done.
  - cbn [fetch_while]. destruct (still_fetching v); [|by intros [= <- <- <-]].
    cbn [negb]. munfold. cbn [fst snd].
    destruct (transport w _) as [resp w1]. cbn [fst snd].
    destruct (get_results resp) as [results|]; [|by intros [= <- <- <-]].
    match goal with |- context [fetch_item_in ?a ?b ?c ?d] =>
      destruct (fetch_item_in_ok a b c d) as (v' & t1 & ->) end.
    cbn [fst snd].
    match goal with |- context [fetch_while ?a ?b ?c ?d ?e] =>
      destruct (fetch_while a b c d e) as [[r2 s2] t2] eqn:Hrec end.
    intros [= <- <- <-]. by eapply IH.
Qed.

(** [_search] never raises a usage error, and on a query without a token
    its first request is the job creation. *)
Lemma EnrichedEventQuery_search_facts fuel start rows q w r s t :
  EnrichedEventQuery_search transport now sleep fuel start rows (q, w) = (r, s, t) →
  not_usage_error r ∧
  (truthy_token (_query_token q) = false →
     ∃ resp t', t = Call (submit_request q) resp :: t').
Proof.
  unfold EnrichedEventQuery_search. munfold. cbn [fst snd].
  destruct (truthy_token (_query_token q)) eqn:Htok; cbn [negb fst snd].
  - destruct (wait_while_querying _ _ _ _ _) as [[r1 [q1 w1]] t1] eqn:Hw.
    apply wait_while_querying_facts in Hw as (Hr1 & _).
    destruct r1 as [[]| |]; try (intros [= <- <- <-]; done).
    cbn [fst snd]. destruct (_timed_out q1); cbn [fst snd].
    + intros [= <- <- <-]. done.
    + destruct (fetch_while _ _ _ _ _) as [[r2 s2] t2] eqn:Hf.
      intros [= <- <- <-]. split; [|done]. by eapply fetch_while_facts.
  - rewrite (_submit_first _ _ Htok).
    destruct (transport w _) as [resp w1]. cbn [fst snd].
    destruct (wait_while_querying _ _ _ _ _) as [[r1 [q1 w1']] t1] eqn:Hw.
    apply wait_while_querying_facts in Hw as (Hr1 & _).
    destruct r1 as [[]| |]; try (intros [= <- <- <-]; split; [done|eauto]).
    cbn [fst snd]. destruct (_timed_out q1); cbn [fst snd].
    + intros [= <- <- <-]. split; [done|eauto].
    + destruct (fetch_while _ _ _ _ _) as [[r2 s2] t2] eqn:Hf.
      intros [= <- <- <-]. split; [|eauto]. by eapply fetch_while_facts.
Qed.

(** *** Repeated calls *)

(** A method that answers from a cache once [valid] holds, and that needs
    at most one count-determining request to make it hold, issues at most
    one such request however often it is called. *)
Lemma repeat_call_count_requests {O A} (valid : O → bool)
    (m : M Row World QP O A) :
  (∀ s, valid s.1 = true → ∃ r, m s = (r, s, [])) →
  (∀ s r s' t, m s = (r, s', t) → valid s.1 = false →
     count_requests t = 0%nat ∨ (count_requests t = 1%nat ∧ valid s'.1 = true)) →
  ∀ n s,
    (count_requests (repeat_call n m s).2 ≤ 1)%nat ∧
    (valid s.1 = true → count_requests (repeat_call n m s).2 = 0%nat).
Proof.
  intros Hcached Hfresh. induction n as [|n IH]; intros s.
  - cbn [repeat_call snd]. split; [|done]. unfold count_requests. simpl. lia.
  - cbn [repeat_call]. destruct (m s) as [[r s1] t1] eqn:Hm.
    destruct (repeat_call n m s1) as [[rs s2] t2] eqn:Hrec. cbn [snd].
    rewrite count_requests_app.
    pose proof (IH s1) as [IH1 IH2]. rewrite Hrec in IH1, IH2. cbn [snd] in IH1, IH2.
    destruct (valid s.1) eqn:Hv.
    + destruct (Hcached s Hv) as [r' Hm']. rewrite Hm' in Hm.
      injection Hm as <- <- <-.
      change (count_requests []) with 0%nat. specialize (IH2 Hv). lia.
    + split; [|done].
      destruct (Hfresh _ _ _ _ Hm Hv) as [->|[-> Hv1]]; [lia|].
      specialize (IH2 Hv1). lia.
Qed.

Lemma Query_count_requests q w r s' t :
  Query_count cqp transport (q, w) = (r, s', t) →
  _count_valid q = false →
  count_requests t = 1%nat ∧ _count_valid s'.1 = true.
Proof.
  intros H Hv. rewrite Query_count_fresh in H by done. cbv zeta in H.
  destruct (transport w _) as [resp w1]. by injection H as <- <- <-.
Qed.

Lemma EnrichedEventQuery_count_requests fuel q w r s' t :
  EnrichedEventQuery_count transport now sleep fuel (q, w) = (r, s', t) →
  _count_valid (base q) = false →
  count_requests t = 0%nat ∨
  (count_requests t = 1%nat ∧ _count_valid (base s'.1) = true).
Proof.
  intros H Hv. rewrite EnrichedEventQuery_count_fresh in H by done.
  destruct (wait_while_querying _ _ _ _ _) as [[r1 [q1 w1]] t1] eqn:Hw.
  apply wait_while_querying_facts in Hw as (_ & Hc & _).
  destruct r1 as [[]| |]; [|injection H as <- <- <-; by left..].
  cbn [fst snd] in H. destruct (_timed_out q1).
  - injection H as <- <- <-. by left.
  - cbv zeta in H. destruct (transport w1 _) as [resp w2].
    injection H as <- <- <-. right. rewrite count_requests_app, Hc. done.
Qed.

(** *** The claims about one query and any server *)

(** After its first request, every request of [Query._search] carries
    [start = start0 + rows consumed so far + 1]. *)
Lemma Query_search_next_start fuel start rows q w r s' tr pre req resp post :
  Query_search cqp transport fuel start rows (q, w) = (r, s', tr) →
  tr = pre ++ Call req resp :: post →
  (pre = [] ∧ req = GET_search (cqp (first_args q start))) ∨
  (pre ≠ [] ∧ ∃ a, req = GET_search (cqp a) ∧
     a !! "start" = Some (AInt (start + yielded pre + 1))).
Proof.
  rewrite Query_search_unfold. intros Hrun Htr.
  by apply (search_while_next_start _ _ _ _ _ _ _ _ Hrun _ _ _ _ Htr).
Qed.

(** C2: when a page of a synchronous iteration (start 0, any row limit)
    comes back with an empty, non-null result list while the rows
    consumed so far are fewer than the total that page reports, the
    iteration ends with that page, [_total_results] is set to the number
    of rows consumed, and a following [_count()] returns that number
    without a request. *)
Theorem Query_search_drift_clamps_count fuel rows q w r s' tr pre req resp post :
  Query_search cqp transport fuel 0 rows (q, w) = (r, s', tr) →
  tr = pre ++ Call req resp :: post →
  get_results resp = Some [] →
  yielded pre < default 0 (totalResults resp) →
  post = [] ∧ r = Ok tt ∧
  _total_results s'.1 = yielded pre ∧
  Query_count cqp transport s' = (Ok (yielded pre), s', []).
Proof.
  rewrite Query_search_unfold. intros Hrun Htr Hres Hlt.
  destruct (search_while_empty_page _ _ _ _ _ _ _ _ Hrun _ _ _ _ Htr Hres)
    as (Hpost & Hr & Htot & Hvalid); [done|].
  cbn [current] in Htot. rewrite Z.add_0_l in Htot.
  repeat split; [done..|].
  destruct s' as [q' w']. cbn [fst] in *.
  rewrite Query_count_cached by done. by rewrite Htot.
Qed.

(** The same for a search that starts at any offset: the cached total
    becomes the position reached, [start] plus the rows consumed. *)
Lemma Query_search_drift_clamps_position fuel start rows q w r s' tr pre req resp post :
  Query_search cqp transport fuel start rows (q, w) = (r, s', tr) →
  tr = pre ++ Call req resp :: post →
  get_results resp = Some [] →
  start + yielded pre < default 0 (totalResults resp) →
  post = [] ∧ r = Ok tt ∧ _total_results s'.1 = start + yielded pre.
Proof.
  rewrite Query_search_unfold. intros Hrun Htr Hres Hlt.
  destruct (search_while_empty_page _ _ _ _ _ _ _ _ Hrun _ _ _ _ Htr Hres)
    as (Hpost & Hr & Htot & Hvalid); done.
Qed.

(** C4: on a submitted query without a timeout, [_still_querying] makes
    one status request, changes nothing in the query, and returns true
    when [contacted] is 0, true when [completed < contacted], and false
    exactly when [contacted] is not 0 and [completed >= contacted]; for
    a count of shards ([0 <= contacted]) that is [contacted > 0]. *)
Theorem _still_querying_no_timeout q w :
  truthy_token (_query_token q) = true →
  _timeout q = 0 →
  let req := GET_job_status (_query_token q) in
  let resp := (transport w req).1 in
  let searchers_contacted := default 0 (contacted resp) in
  let searchers_completed := default 0 (completed resp) in
  ∃ b, _still_querying transport now (q, w) =
         (Ok b, (q, (transport w req).2), [Call req resp]) ∧
    (searchers_contacted = 0 → b = true) ∧
    (searchers_completed < searchers_contacted → b = true) ∧
    (b = false ↔ searchers_contacted ≠ 0 ∧ searchers_completed >= searchers_contacted) ∧
    (0 <= searchers_contacted →
       (b = false ↔ searchers_contacted > 0 ∧ searchers_completed >= searchers_contacted)).
Proof.
  intros Htok Hto. cbv zeta.
  rewrite _still_querying_submitted by done.
  unfold check_status, status_verdict. cbv zeta.
  destruct (transport w _) as [resp w1]. cbn [fst snd]. rewrite Hto.
  change (0 =? 0) with true. cbv iota.
  destruct (default 0 (contacted resp) =? 0) eqn:Hc;
    [apply Z.eqb_eq in Hc|apply Z.eqb_neq in Hc].
  - exists true. split; [done|]. repeat split; try done; intros; lia.
  - destruct (default 0 (completed resp) <? default 0 (contacted resp)) eqn:Hd;
      [apply Z.ltb_lt in Hd|apply Z.ltb_ge in Hd].
    + exists true. split; [done|]. repeat split; try done; intros; lia.
    + exists false. split; [done|]. repeat split; try done; intros; lia.
Qed.

(** C5: on a query that holds a job token, [_submit] raises a usage error,
    makes no request, and leaves the query (so its token) and the world
    as they were; in particular a second [_submit] after one that stored
    a token fails in this way. *)
Theorem _submit_twice_fails q w :
  (truthy_token (_query_token q) = true →
     ∃ e, is_UsageError e = true ∧
          _submit transport now (q, w) = (Raise e, (q, w), [])) ∧
  (truthy_token (_query_token q) = false →
     ∀ r1 s1 t1, _submit transport now (q, w) = (r1, s1, t1) →
       truthy_token (_query_token s1.1) = true →
       ∃ e, is_UsageError e = true ∧
            _submit transport now s1 = (Raise e, s1, [])).
Proof.
  split.
  - intros H. eexists. split; [|by apply _submit_again]. done.
  - intros _ r1 [q1 w1] t1 _ H. cbn [fst] in H.
    eexists. split; [|by apply _submit_again]. done.
Qed.

(** C8: once a count has been determined the count-valid flag is set and
    every later [_count()] returns the cached [_total_results] without a
    request; any number of [len()] calls in a row issues at most one
    count-determining request.  Synchronous queries first, then job
    queries, whose call may also raise or run out of fuel without having
    determined a count. *)
Theorem count_is_cached :
  (∀ q w r1 s1 t1,
     Query_count cqp transport (q, w) = (r1, s1, t1) →
     _count_valid s1.1 = true ∧ r1 = Ok (_total_results s1.1) ∧
     Query_count cqp transport s1 = (r1, s1, [])) ∧
  (∀ n q w,
     (count_requests (repeat_call n (Query_len cqp transport) (q, w)).2 ≤ 1)%nat) ∧
  (∀ fuel q w v s1 t1,
     EnrichedEventQuery_count transport now sleep fuel (q, w) = (Ok v, s1, t1) →
     _count_valid (base s1.1) = true ∧ _total_results (base s1.1) = v ∧
     ∀ fuel', EnrichedEventQuery_count transport now sleep fuel' s1 = (Ok v, s1, [])) ∧
  (∀ fuel n q w,
     (count_requests
        (repeat_call n (EnrichedEventQuery_len transport now sleep fuel) (q, w)).2 ≤ 1)%nat).
Proof.
  split; [|split; [|split]].
  - intros q w r1 s1 t1 H. destruct (_count_valid q) eqn:Hv.
    + rewrite Query_count_cached in H by done. injection H as <- <- <-.
      cbn [fst]. by rewrite Query_count_cached.
    + rewrite Query_count_fresh in H by done. cbv zeta in H.
      destruct (transport w _) as [resp w1]. injection H as <- <- <-.
      cbn [fst]. by rewrite Query_count_cached.
  - intros n q w.
    apply (repeat_call_count_requests (λ q, _count_valid q)).
    + intros [q0 w0] H. eexists. by apply Query_count_cached.
    + intros [q0 w0] r s' t H Hv. right. by eapply Query_count_requests.
  - intros fuel q w v [q1 w1] t1 H. cbn [fst].
    assert (Hv : _count_valid (base q1) = true ∧ _total_results (base q1) = v).
    { destruct (_count_valid (base q)) eqn:Hv.
      - rewrite EnrichedEventQuery_count_cached in H by done.
        by injection H as <- <- <- <-.
      - rewrite EnrichedEventQuery_count_fresh in H by done.
        destruct (wait_while_querying _ _ _ _ _) as [[r0 [q0 w0]] t0].
        destruct r0 as [[]| |]; [|done..]. cbn [fst snd] in H.
        destruct (_timed_out q0); [done|]. cbv zeta in H.
        destruct (transport w0 _) as [resp w2]. by injection H as <- <- <- <-. }
    destruct Hv as [Hv Ht]. repeat split; [done..|].
    intros fuel'. rewrite EnrichedEventQuery_count_cached by done. by rewrite Ht.
  - intros fuel n q w.
    apply (repeat_call_count_requests (λ q, _count_valid (base q))).
    + intros [q0 w0] H. eexists. by apply EnrichedEventQuery_count_cached.
    + intros [q0 w0] r s' t H Hv. by eapply EnrichedEventQuery_count_requests.
Qed.

(** A status that reports the job complete ends the polling. *)
Lemma check_status_complete q w :
  default 0 (contacted (transport w (GET_job_status (_query_token q))).1) ≠ 0 →
  default 0 (contacted (transport w (GET_job_status (_query_token q))).1)
    ≤ default 0 (completed (transport w (GET_job_status (_query_token q))).1) →
  check_status transport now q w =
    (Ok false, (q, (transport w (GET_job_status (_query_token q))).2),
     [Call (GET_job_status (_query_token q))
        (transport w (GET_job_status (_query_token q))).1]).
Proof.
  intros Hc Hd. unfold check_status, status_verdict. cbv zeta.
  destruct (transport w _) as [resp w1]. cbn [fst snd] in *.
  apply Z.eqb_neq in Hc. rewrite Hc.
  apply Z.ltb_ge in Hd. by rewrite Hd.
Qed.

(** C10, amended: on a query without a job token, [_still_querying]
    returns (it never raises): its first request creates the job, whose
    [job_id] becomes the token, and then it polls.  [_count] (with no count
    cached and fuel for one poll) and [_search] start by creating the job
    as well, and on no query at all does any of the three raise a usage
    error, so the duplicate-submission error is reached through [_submit]
    alone.  When the status endpoint reports the job complete, [_count]
    on such a query returns the number of available rows after exactly
    three requests (job creation, status, results), and [_search], given a
    job id, is the page loop run on the submitted query after the job
    creation and one status request.  Nothing more is promised: after the
    implicit submission the polling can still end the call in an
    exception. *)
Theorem implicit_submission q w :
  truthy_token (_query_token q) = false →
  (∃ b s resp t,
     _still_querying transport now (q, w) = (Ok b, s, Call (submit_request q) resp :: t) ∧
     _query_token s.1 = job_id resp) ∧
  (∀ fuel, _count_valid (base q) = false →
     ∃ r s resp t,
       EnrichedEventQuery_count transport now sleep (S fuel) (q, w) =
         (r, s, Call (submit_request q) resp :: t) ∧ not_usage_error r) ∧
  (∀ fuel start rows,
     ∃ r s resp t,
       EnrichedEventQuery_search transport now sleep fuel start rows (q, w) =
         (r, s, Call (submit_request q) resp :: t) ∧ not_usage_error r) ∧
  (∀ q' w' fuel start rows,
     not_usage_error (_still_querying transport now (q', w')).1.1 ∧
     not_usage_error (EnrichedEventQuery_count transport now sleep fuel (q', w')).1.1 ∧
     not_usage_error
       (EnrichedEventQuery_search transport now sleep fuel start rows (q', w')).1.1) ∧
  ((∀ w' tok,
      default 0 (contacted (transport w' (GET_job_status tok)).1) ≠ 0 ∧
      default 0 (contacted (transport w' (GET_job_status tok)).1)
        ≤ default 0 (completed (transport w' (GET_job_status tok)).1)) →
   let created := transport w (submit_request q) in
   let q1 := submitted q created.1 (now created.2) in
   let polled := transport created.2 (GET_job_status (job_id created.1)) in
   (∀ fuel, _count_valid (base q) = false →
      let read := transport polled.2 (GET_job_results (job_id created.1)) in
      let n := default 0 (num_available read.1) in
      EnrichedEventQuery_count transport now sleep (S fuel) (q, w) =
        (Ok n, (set_valid true (set_total n q1), read.2),
         [Call (submit_request q) created.1;
          Call (GET_job_status (job_id created.1)) polled.1;
          Call (GET_job_results (job_id created.1)) read.1])) ∧
   (∀ fuel start rows, truthy_token (job_id created.1) = true →
      EnrichedEventQuery_search transport now sleep (S fuel) start rows (q, w) =
        let '(r, s, t) :=
          fetch_while transport (S fuel) rows (mkFetchVars start 0 true) (q1, polled.2) in
        (r, s,
         Call (submit_request q) created.1
           :: Call (GET_job_status (job_id created.1)) polled.1 :: t))).
Proof.
  intros Htok. split; [|split; [|split; [|split]]].
  - rewrite _still_querying_unsubmitted by done.
    destruct (transport w _) as [resp w1].
    destruct (check_status _ _ _ _) as [[r2 s2] t2] eqn:Hc.
    apply check_status_facts in Hc as [(_ & _ & _ & Ht & b & ->)|(_ & ? & _)];
      [|discriminate].
    exists b, s2, resp, t2. by rewrite Ht.
  - intros fuel Hv. rewrite EnrichedEventQuery_count_fresh by done.
    destruct (wait_while_querying _ _ _ _ _) as [[r1 [q1 w1]] t1] eqn:Hw.
    destruct (wait_while_querying_submits _ _ _ _ _ _ Htok Hw) as (resp & t' & ->).
    apply wait_while_querying_facts in Hw as (Hr & _).
    destruct r1 as [[]| |]; [|by eexists _, _, _, _..].
    cbn [fst snd]. destruct (_timed_out q1); [by eexists _, _, _, _|].
    cbv zeta. destruct (transport w1 _) as [resp2 w2].
    by eexists _, _, _, _.
  - intros fuel start rows.
    destruct (EnrichedEventQuery_search _ _ _ _ _ _ _) as [[r s] t] eqn:H.
    apply EnrichedEventQuery_search_facts in H as (Hr & Ht).
    destruct (Ht Htok) as (resp & t' & ->). by eexists _, _, _, _.
  - intros q' w' fuel start rows. repeat split.
    + destruct (_still_querying _ _ _) as [[r s] t] eqn:H.
      by apply _still_querying_facts in H as (? & _).
    + destruct (_count_valid (base q')) eqn:Hv.
      * by rewrite EnrichedEventQuery_count_cached.
      * rewrite EnrichedEventQuery_count_fresh by done.
        destruct (wait_while_querying _ _ _ _ _) as [[r1 [q1 w1]] t1] eqn:Hw.
        apply wait_while_querying_facts in Hw as (Hr & _).
        destruct r1 as [[]| |]; [|done..].
        cbn [fst snd]. destruct (_timed_out q1); [done|].
        cbv zeta. by destruct (transport w1 _) as [resp2 w2].
    + destruct (EnrichedEventQuery_search _ _ _ _ _ _ _) as [[r s] t] eqn:H.
      by apply EnrichedEventQuery_search_facts in H as (? & _).
  - intros Hdone. cbv zeta. split.
    + intros fuel Hv. rewrite EnrichedEventQuery_count_fresh by done.
      rewrite wait_while_querying_step, _still_querying_unsubmitted by done.
      destruct (transport w (submit_request q)) as [resp1 w1]. cbn [fst snd].
      destruct (Hdone w1 (job_id resp1)) as [Hc Hd].
      rewrite check_status_complete by done.
      change (_query_token (submitted q resp1 (now w1))) with (job_id resp1).
      destruct (transport w1 (GET_job_status (job_id resp1))) as [resp2 w2].
      cbn [fst snd]. change (_timed_out (submitted q resp1 (now w1))) with false.
      cbv iota zeta. change (_query_token (submitted q resp1 (now w1))) with (job_id resp1).
      by destruct (transport w2 (GET_job_results (job_id resp1))) as [resp3 w3].
    + intros fuel start rows Hid.
      unfold EnrichedEventQuery_search at 1.
      unfold mbind at 1. unfold M_bind, bind at 1. unfold get_self at 1. cbn [fst snd].
      rewrite Htok. cbn [negb].
      unfold mbind at 1. unfold M_bind, bind at 1.
      rewrite (_submit_first _ _ Htok).
      destruct (transport w (submit_request q)) as [resp1 w1]. cbn [fst snd] in *.
      unfold mbind at 1. unfold M_bind, bind at 1.
      rewrite wait_while_querying_step, _still_querying_submitted by done.
      destruct (Hdone w1 (job_id resp1)) as [Hc Hd].
      rewrite check_status_complete by done.
      change (_query_token (submitted q resp1 (now w1))) with (job_id resp1).
      destruct (transport w1 (GET_job_status (job_id resp1))) as [resp2 w2].
      cbn [fst snd].
      unfold mbind at 1. unfold M_bind, bind at 1. unfold get_self at 1. cbn [fst snd].
      change (_timed_out (submitted q resp1 (now w1))) with false. cbv iota.
      by destruct (fetch_while _ _ _ _ _) as [[r s] t].
Qed.

End Facts.

(** ** The builder methods *)

Lemma set_base_builder_id q :
  set_base (set_query_builder (_query_builder (base q)) (base q)) q = q.
Proof. by destruct q as [[] ? ? ? ? ? ? ?]. Qed.



(** ** Sorting *)

Lemma sort_loop_spec key direction l :
  sort_loop key direction l =
    (map (overwrite key direction) l, bool_decide (key ∈ map field l)).
Proof.
  induction l as [|it l IH]; [done|].
  cbn [sort_loop map]. rewrite IH.
  change (overwrite key direction it)
    with (if String.eqb (field it) key then mkSortItem (field it) direction else it).
  destruct (String.eqb (field it) key) eqn:E.
  - apply String.eqb_eq in E.
    rewrite (bool_decide_eq_true_2 (key ∈ field it :: map field l)); [done|].
    rewrite E. constructor.
  - apply String.eqb_neq in E.
    rewrite (bool_decide_ext (key ∈ field it :: map field l) (key ∈ map field l));
      [done|].
    rewrite elem_of_cons. split; [intros [?|?]; congruence|auto].
Qed.

(** The loop leaves a list without the key as it is. *)
Lemma overwrite_absent key direction l :
  key ∉ map field l → map (overwrite key direction) l = l.
Proof.
  induction l as [|it l IH]; intros Hnotin; [done|].
  cbn [map] in *. apply not_elem_of_cons in Hnotin as [Hne Hnotin].
  rewrite IH by done. f_equal. unfold overwrite.
  destruct (String.eqb (field it) key) eqn:E; [|done].
  apply String.eqb_eq in E. congruence.
Qed.

Lemma _sort_sort_by key direction q :
  _sort (sort_by key direction q) =
    if bool_decide (key ∈ map field (_sort q))
    then map (overwrite key direction) (_sort q)
    else _sort q ++ [mkSortItem key direction].
Proof.
  unfold sort_by. rewrite sort_loop_spec.
  destruct (bool_decide _) eqn:E; [reflexivity|].
  apply bool_decide_eq_false in E. cbn [_sort set_default_args set_sort].
  by rewrite overwrite_absent.
Qed.

Lemma field_overwrite key direction it : field (overwrite key direction it) = field it.
Proof. unfold overwrite. by destruct (String.eqb _ _). Qed.

Lemma fields_overwrite key direction l :
  map field (map (overwrite key direction) l) = map field l.
Proof.
  induction l as [|it l IH]; [done|].
  cbn [map]. by rewrite field_overwrite, IH.
Qed.

(** [sort_by] keeps the keys in place and adds a new key at the end. *)
Lemma fields_sort_by key direction q :
  map field (_sort (sort_by key direction q)) =
    if bool_decide (key ∈ map field (_sort q)) then map field (_sort q)
    else map field (_sort q) ++ [key].
Proof.
  rewrite _sort_sort_by. destruct (bool_decide _).
  - apply fields_overwrite.
  - by rewrite map_app.
Qed.

Lemma sort_by_NoDup key direction q :
  NoDup (map field (_sort q)) → NoDup (map field (_sort (sort_by key direction q))).
Proof.
  intros H. rewrite fields_sort_by.
  destruct (bool_decide _) eqn:E; [done|].
  apply bool_decide_eq_false in E.
  apply NoDup_app. split; [done|]. split; [|apply NoDup_singleton].
  intros x Hx Hx'. apply list_elem_of_singleton in Hx'. by subst.
Qed.

Lemma sort_calls_NoDup calls : ∀ q,
  NoDup (map field (_sort q)) → NoDup (map field (_sort (sort_calls calls q))).
Proof.
  induction calls as [|c calls IH]; intros q H; [done|].
  apply IH. by apply sort_by_NoDup.
Qed.

Lemma filter_overwrite_absent key direction l :
  key ∉ map field l →
  filter (λ it, field it = key) (map (overwrite key direction) l) = [].
Proof.
  induction l as [|it l IH]; intros Hnotin; [done|].
  cbn [map] in *. apply not_elem_of_cons in Hnotin as [Hne Hnotin].
  rewrite filter_cons, field_overwrite.
  destruct (decide (field it = key)); [congruence|]. by apply IH.
Qed.

(** With one entry per key, the entries for [key] after an overwrite are
    the single new one. *)
Lemma filter_overwrite key direction l :
  NoDup (map field l) → key ∈ map field l →
  filter (λ it, field it = key) (map (overwrite key direction) l) =
    [mkSortItem key direction].
Proof.
  induction l as [|it l IH]; intros Hnd Hin; [by apply elem_of_nil in Hin|].
  cbn [map] in *. apply NoDup_cons in Hnd as [Hnotin Hnd].
  rewrite filter_cons, field_overwrite.
  destruct (decide (field it = key)) as [E|E].
  - unfold overwrite at 1. rewrite (proj2 (String.eqb_eq _ _) E). rewrite E. f_equal.
    apply filter_overwrite_absent. by rewrite <- E.
  - apply elem_of_cons in Hin as [Hin|Hin]; [by subst|]. by apply IH.
Qed.

Lemma overwrite_twice key direction l :
  map (overwrite key direction) (map (overwrite key direction) l) =
    map (overwrite key direction) l.
Proof.
  induction l as [|it l IH]; [done|]. cbn [map]. rewrite IH. f_equal.
  unfold overwrite. destruct (String.eqb (field it) key) eqn:E; cbn [field]; by rewrite E.
Qed.

Lemma key_in_sort_by key direction q :
  key ∈ map field (_sort (sort_by key direction q)).
Proof.
  rewrite fields_sort_by. destruct (bool_decide _) eqn:E.
  - by apply bool_decide_eq_true in E.
  - apply elem_of_app. right. constructor.
Qed.

Lemma _sort_sort_by_twice key direction q :
  _sort (sort_by key direction (sort_by key direction q)) =
    _sort (sort_by key direction q).
Proof.
  rewrite (_sort_sort_by key direction (sort_by key direction q)).
  rewrite bool_decide_eq_true_2 by apply key_in_sort_by.
  rewrite _sort_sort_by. destruct (bool_decide _) eqn:E.
  - apply overwrite_twice.
  - apply bool_decide_eq_false in E.
    rewrite map_app, overwrite_absent by done. cbn [map]. unfold overwrite.
    cbn [field]. by rewrite String.eqb_refl.
Qed.

Lemma sort_by_unfold key direction q :
  sort_by key direction q =
    set_default_args
      (mkDefaultArgs (da_rows (_default_args q)) (Some (_sort (sort_by key direction q))))
      (set_sort (_sort (sort_by key direction q)) q).
Proof.
  unfold sort_by. destruct (sort_loop key direction (_sort q)) as [l found].
  by destruct found.
Qed.

Lemma sort_by_twice key direction q :
  sort_by key direction (sort_by key direction q) = sort_by key direction q.
Proof.
  rewrite (sort_by_unfold key direction (sort_by key direction q)).
  rewrite _sort_sort_by_twice.
  remember (_sort (sort_by key direction q)) as l eqn:Hl.
  rewrite (sort_by_unfold key direction q), <- Hl. reflexivity.
Qed.

(** C7: after any sequence of [sort_by] calls on a new query the sort list
    has one entry per key; [sort_by(key, d2)] for a key that has an entry
    overwrites that entry's direction in place (every other entry and the
    order of the keys stay, and the one entry for [key] has direction
    [d2]); for a new key it appends the entry at the end; a repeated call
    changes nothing; ["sort"] in [_default_args] is the list.  So
    [sort_by("ts", "ASC")] then [sort_by("ts", "DESC")] leaves exactly the
    entry [("ts", "DESC")]. *)
Theorem sort_by_per_key :
  (∀ calls key d2,
     let q := sort_calls calls EnrichedEventQuery_init in
     let q' := sort_by key d2 q in
     NoDup (map field (_sort q)) ∧
     da_sort (_default_args q') = Some (_sort q') ∧
     (key ∈ map field (_sort q) →
        _sort q' = map (overwrite key d2) (_sort q) ∧
        map field (_sort q') = map field (_sort q) ∧
        filter (λ it, field it = key) (_sort q') = [mkSortItem key d2]) ∧
     (key ∉ map field (_sort q) → _sort q' = _sort q ++ [mkSortItem key d2]) ∧
     sort_by key d2 q' = q') ∧
  _sort (sort_by "ts" "DESC" (sort_by "ts" "ASC" EnrichedEventQuery_init)) =
    [mkSortItem "ts" "DESC"].
Proof.
  split; [|reflexivity].
  intros calls key d2 q q'.
  assert (Hnd : NoDup (map field (_sort q))).
  { apply sort_calls_NoDup. constructor. }
  split; [done|]. split.
  { subst q'. rewrite (sort_by_unfold key d2 q) at 1. reflexivity. }
  split; [|split].
  - intros Hin. subst q'. rewrite _sort_sort_by.
    rewrite bool_decide_eq_true_2 by done.
    split; [done|]. split; [apply fields_overwrite|by apply filter_overwrite].
  - intros Hnotin. subst q'. rewrite _sort_sort_by.
    by rewrite bool_decide_eq_false_2.
  - apply sort_by_twice.
Qed.

(** ** The time range *)

Lemma set_time_field_spec name message v q :
  set_time_field name message v q =
    if passes v
    then (Ok tt, set_time_range_attr (store_if_truthy name v (_time_range q)) q)
    else (Raise (ApiError message), q).
Proof.
  unfold set_time_field, passes, store_if_truthy.
  destruct (truthy v); cbn [negb orb].
  - by destruct (isinstance_str v).
  - by destruct q.
Qed.

(** C9, as the claim states it: a provided argument that is not a string
    raises a usage error.  The integer 0 (or [False]) passed as [start] is
    provided and is not a string, and the call returns without an error. *)
Lemma set_time_range_falsy_non_string_accepted :
  ¬ (∀ start end_ window q,
       start ≠ PyNone → isinstance_str start = false →
       ∃ e, is_UsageError e = true ∧
            (set_time_range start end_ window q).1 = Raise e).
Proof.
  intros H.
  destruct (H (PyInt 0) PyNone PyNone EnrichedEventQuery_init) as (e & _ & He);
    [done..|].
  vm_compute in He. discriminate.
Qed.

(** C9, amended: [set_time_range] takes its arguments in the order start,
    end, window; an argument that is falsy ([None], [""], [0], [False]) is
    skipped without validation; a truthy argument that is not a string
    raises a usage error before it changes the time range (what earlier
    arguments stored stays); a truthy string is stored under its own key.
    No block removes or overwrites another key, so a window is stored
    alongside the start and end entries already there. *)
Theorem set_time_range_validates_truthy start end_ window q :
  let m1 := store_if_truthy "start" start (_time_range q) in
  let m2 := store_if_truthy "end" end_ m1 in
  let m3 := store_if_truthy "window" window m2 in
  (passes start = false →
     ∃ e, is_UsageError e = true ∧ set_time_range start end_ window q = (Raise e, q)) ∧
  (passes start = true → passes end_ = false →
     ∃ e, is_UsageError e = true ∧
          set_time_range start end_ window q = (Raise e, set_time_range_attr m1 q)) ∧
  (passes start = true → passes end_ = true → passes window = false →
     ∃ e, is_UsageError e = true ∧
          set_time_range start end_ window q = (Raise e, set_time_range_attr m2 q)) ∧
  (passes start = true → passes end_ = true → passes window = true →
     set_time_range start end_ window q = (Ok tt, set_time_range_attr m3 q)) ∧
  (truthy window = true →
     m3 !! "window" = Some (str_of window) ∧
     m3 !! "start" = m1 !! "start" ∧ m3 !! "end" = m2 !! "end") ∧
  (truthy start = false → m1 = _time_range q) ∧
  (truthy end_ = false → m2 = m1).
Proof.
  cbv zeta. unfold set_time_range. rewrite set_time_field_spec.
  repeat split.
  - intros ->. eexists. split; [|reflexivity]. done.
  - intros -> H2. rewrite set_time_field_spec, H2. cbn [_time_range set_time_range_attr].
    eexists. split; [|reflexivity]. done.
  - intros -> H2 H3. rewrite set_time_field_spec, H2, set_time_field_spec, H3.
    cbn [_time_range set_time_range_attr].
    eexists. split; [|reflexivity]. done.
  - intros -> H2 H3. rewrite set_time_field_spec, H2, set_time_field_spec, H3.
    reflexivity.
  - unfold store_if_truthy at 1. rewrite H. apply lookup_insert_eq.
  - unfold store_if_truthy at 1 2. rewrite H. rewrite lookup_insert_ne by done.
    destruct (truthy end_); [by rewrite lookup_insert_ne|done].
  - unfold store_if_truthy at 1. rewrite H. by rewrite lookup_insert_ne.
  - intros H. unfold store_if_truthy. by rewrite H.
  - intros H. unfold store_if_truthy at 1. by rewrite H.
Qed.

(** ** The scenarios *)

(** C1: against a server holding 250 rows, with batch size 100, a full
    iteration (caller start 0, no row limit, fuel for three pages or more)
    issues exactly three search requests: the first without a [start]
    parameter (the caller's start 0 is not sent), then [start = 101] and
    [start = 201], consuming 100, 100 and 50 rows.  For every query and
    server, each request after the first carries
    [start = caller start + rows consumed so far + 1]. *)
Theorem Query_search_pagination :
  (∀ fuel, (3 ≤ fuel)%nat →
     Query_search id (paged_server 250) fuel 0 0 (Query_init, tt) =
       (Ok tt, (set_count_valid true (set_total_results 250 Query_init), tt),
        page_250 None 1 100 ++ page_250 (Some 101) 101 100 ++ page_250 (Some 201) 201 50)) ∧
  (∀ (Row World QP : Type) (convert_query_params : gmap string ArgVal → QP)
     (transport : World → Request QP → Response Row * World)
     fuel start rows q w r s' tr pre req resp post,
     Query_search convert_query_params transport fuel start rows (q, w) = (r, s', tr) →
     tr = pre ++ Call req resp :: post →
     pre ≠ [] →
     ∃ a, req = GET_search (convert_query_params a) ∧
          a !! "start" = Some (AInt (start + yielded pre + 1))).
Proof.
  split.
  - intros fuel Hfuel. rewrite Query_search_unfold.
    apply (search_while_fuel _ _ _ _ _ 3%nat); [|done|done].
    vm_compute. reflexivity.
  - intros Row World QP cqp transport fuel start rows q w r s' tr pre req resp post
      Hrun Htr Hpre.
    destruct (Query_search_next_start Row World QP cqp transport fuel start rows
                q w r s' tr pre req resp post Hrun Htr)
      as [[-> _]|[_ H]]; done.
Qed.

Lemma Query_search_pagination_witness :
  Query_search id (paged_server 250) 3 0 0 (Query_init, tt) =
    (Ok tt, (set_count_valid true (set_total_results 250 Query_init), tt),
     page_250 None 1 100 ++ page_250 (Some 101) 101 100 ++ page_250 (Some 201) 201 50) ∧
  ∃ a : gmap string ArgVal,
    GET_search (page_params (Some 101)) = GET_search (id a) ∧
    a !! "start" = Some (AInt (0 + yielded (take 101 run_drift.2) + 1)).
Proof.
  split.
  - apply (proj1 Query_search_pagination 3%nat). lia.
  - apply (proj2 Query_search_pagination Z unit (gmap string ArgVal) id
             (drifting_server 250 130) 3%nat 0 0 Query_init tt
             run_drift.1.1 run_drift.1.2 run_drift.2 (take 101 run_drift.2)
             (GET_search (page_params (Some 101)))
             (mkResponse (Some 250) (Rows (seqZ 101 30)) None None None None)
             (drop 102 run_drift.2)).
    + vm_compute. reflexivity.
    + vm_compute. reflexivity.
    + vm_compute. discriminate.
Defined.

Lemma Query_search_drift_clamps_count_witness :
  _total_results run_drift.1.2.1 = yielded (take 132 run_drift.2) ∧
  Query_count id (drifting_server 250 130) run_drift.1.2 =
    (Ok (yielded (take 132 run_drift.2)), run_drift.1.2, []).
Proof.
  destruct (Query_search_drift_clamps_count Z unit (gmap string ArgVal) id
              (drifting_server 250 130) 3%nat 0 Query_init tt
              run_drift.1.1 run_drift.1.2 run_drift.2 (take 132 run_drift.2)
              (GET_search (page_params (Some 131)))
              (mkResponse (Some 250) (Rows []) None None None None) [])
    as (_ & _ & Htotal & Hcount).
  - vm_compute. reflexivity.
  - vm_compute. reflexivity.
  - reflexivity.
  - vm_compute. reflexivity.
  - split; [exact Htotal|exact Hcount].
Defined.

(** C3: a query with [timeout(100)] polling a job whose status always
    reports 2 of 5 searchers completed.  The first poll comes 20 ms after
    the submission and goes on; the second, after the sleep of 500 ms,
    sets [_timed_out].  Then [_count()] and [_search()] evaluate
    [TimeoutError(message=...)]: the module does not import
    [TimeoutError] from [cbc_sdk.errors], the name is Python's builtin
    class, which takes no keyword arguments, and what the caller gets is a
    [TypeError], not the timeout error of the taxonomy. *)
Theorem timeout_raises_TypeError :
  (EnrichedEventQuery_count stuck_server clock sleep_half_second 2
     (query_timeout_100, world0)).1.1 =
    Raise (TypeError "TimeoutError() takes no keyword arguments") ∧
  (EnrichedEventQuery_search stuck_server clock sleep_half_second 2 0 0
     (query_timeout_100, world0)).1.1 =
    Raise (TypeError "TimeoutError() takes no keyword arguments") ∧
  _timed_out
    (EnrichedEventQuery_count stuck_server clock sleep_half_second 2
       (query_timeout_100, world0)).1.2.1 = true ∧
  is_ProtocolTimeout (TypeError "TimeoutError() takes no keyword arguments") = false ∧
  imported "TimeoutError" = false.
Proof. repeat split; vm_compute; reflexivity. Qed.

Lemma _still_querying_no_timeout_witness :
  ∃ b, _still_querying stuck_server clock (query_submitted, world0) =
         (Ok b, (query_submitted, mkJobWorld 10 1),
          [Call (GET_job_status (Some "job-1"))
             (mkResponse None Absent None (Some 5) (Some 2) None)]) ∧
       b = true.
Proof.
  destruct (_still_querying_no_timeout Z JobWorld (gmap string ArgVal)
              stuck_server clock query_submitted world0)
    as (b & Hrun & _ & Hlt & _).
  - reflexivity.
  - reflexivity.
  - exists b. split; [exact Hrun|]. apply Hlt. vm_compute. reflexivity.
Defined.

Lemma _submit_twice_fails_witness :
  (∃ e, is_UsageError e = true ∧
        _submit stuck_server clock (query_submitted, world0) =
          (Raise e, (query_submitted, world0), [])) ∧
  (∃ e, is_UsageError e = true ∧
        _submit stuck_server clock
          (_submit stuck_server clock (EnrichedEventQuery_init, world0)).1.2 =
          (Raise e, (_submit stuck_server clock (EnrichedEventQuery_init, world0)).1.2, [])).
Proof.
  split.
  - apply (proj1 (_submit_twice_fails Z JobWorld (gmap string ArgVal)
                    stuck_server clock query_submitted world0)).
    reflexivity.
  - apply (proj2 (_submit_twice_fails Z JobWorld (gmap string ArgVal)
                    stuck_server clock EnrichedEventQuery_init world0)
             eq_refl
             (_submit stuck_server clock (EnrichedEventQuery_init, world0)).1.1
             (_submit stuck_server clock (EnrichedEventQuery_init, world0)).1.2
             (_submit stuck_server clock (EnrichedEventQuery_init, world0)).2).
    + vm_compute. reflexivity.
    + vm_compute. reflexivity.
Defined.

Lemma count_is_cached_witness :
  EnrichedEventQuery_count (job_server 2 250) clock sleep_half_second 0
    (EnrichedEventQuery_count (job_server 2 250) clock sleep_half_second 5
       (EnrichedEventQuery_init, world0)).1.2 =
  (Ok 250,
   (EnrichedEventQuery_count (job_server 2 250) clock sleep_half_second 5
      (EnrichedEventQuery_init, world0)).1.2, []).
Proof.
  apply (proj1 (proj2 (proj2
           (count_is_cached Z JobWorld (gmap string ArgVal) id
              (job_server 2 250) clock sleep_half_second)))
           5%nat EnrichedEventQuery_init world0 250
           (EnrichedEventQuery_count (job_server 2 250) clock sleep_half_second 5
              (EnrichedEventQuery_init, world0)).1.2
           (EnrichedEventQuery_count (job_server 2 250) clock sleep_half_second 5
              (EnrichedEventQuery_init, world0)).2).
  vm_compute. reflexivity.
Defined.

(** C10, as the claim states it: [_count()] and [_search()] on a query
    that has not been submitted do not fail.  A new query with
    [timeout(100)] whose job stays incomplete is submitted by the call and
    then, at the second poll, the call ends in an exception. *)
Lemma unsubmitted_query_can_fail :
  ¬ (∀ (q : EnrichedEventQuery) (w : JobWorld) fuel start rows,
       truthy_token (_query_token q) = false →
       (∀ e, (EnrichedEventQuery_count stuck_server clock sleep_half_second fuel
                (q, w)).1.1 ≠ Raise e) ∧
       (∀ e, (EnrichedEventQuery_search stuck_server clock sleep_half_second fuel
                start rows (q, w)).1.1 ≠ Raise e)).
Proof.
  intros H.
  destruct (H query_timeout_100 world0 2%nat 0 0 eq_refl) as [Hcount _].
  apply (Hcount (TypeError "TimeoutError() takes no keyword arguments")).
  vm_compute. reflexivity.
Qed.

Lemma implicit_submission_witness :
  (∃ b s resp t,
     _still_querying (job_server 1 250) clock (EnrichedEventQuery_init, world0) =
       (Ok b, s, Call (submit_request EnrichedEventQuery_init) resp :: t) ∧
     _query_token s.1 = job_id resp) ∧
  (EnrichedEventQuery_count (job_server 1 250) clock sleep_half_second 1
     (EnrichedEventQuery_init, world0)).1.1 = Ok 250 ∧
  requests
    (EnrichedEventQuery_count (job_server 1 250) clock sleep_half_second 1
       (EnrichedEventQuery_init, world0)).2 =
    [submit_request EnrichedEventQuery_init; GET_job_status (Some "job-1");
     GET_job_results (Some "job-1")].
Proof.
  pose proof (implicit_submission Z JobWorld (gmap string ArgVal)
                (job_server 1 250) clock sleep_half_second
                EnrichedEventQuery_init world0 eq_refl) as (Hpoll & _ & _ & _ & Hdone).
  split; [exact Hpoll|].
  specialize (Hdone ltac:(intros w' tok; simpl; lia)).
  cbv zeta in Hdone. destruct Hdone as [Hcount _].
  rewrite (Hcount 0%nat eq_refl). split; vm_compute; reflexivity.
Defined.


Lemma sort_by_per_key_witness :
  _sort (sort_by "ts" "DESC" (sort_calls [("ts", "ASC")] EnrichedEventQuery_init)) =
    map (overwrite "ts" "DESC") (_sort (sort_calls [("ts", "ASC")] EnrichedEventQuery_init)) ∧
  _sort (sort_by "pid" "ASC" (sort_calls [("ts", "ASC")] EnrichedEventQuery_init)) =
    _sort (sort_calls [("ts", "ASC")] EnrichedEventQuery_init) ++ [mkSortItem "pid" "ASC"].
Proof.
  split.
  - apply (proj1 (proj2 (proj2
             (proj1 sort_by_per_key [("ts", "ASC")] "ts" "DESC")))).
    constructor.
  - apply (proj1 (proj2 (proj2 (proj2
             (proj1 sort_by_per_key [("ts", "ASC")] "pid" "ASC"))))).
    intros H. apply list_elem_of_singleton in H. discriminate.
Defined.

Lemma set_time_range_validates_truthy_witness :
  set_time_range PyNone PyNone (PyStr "-3d")
    (set_time_range (PyStr "2020-10-20T20:34:07Z") PyNone PyNone
       EnrichedEventQuery_init).2 =
  (Ok tt,
   set_time_range_attr
     (<["window" := "-3d"]> ({["start" := "2020-10-20T20:34:07Z"]} : gmap string string))
     EnrichedEventQuery_init).
Proof.
  apply (proj1 (proj2 (proj2 (proj2
           (set_time_range_validates_truthy PyNone PyNone (PyStr "-3d")
              (set_time_range (PyStr "2020-10-20T20:34:07Z") PyNone PyNone
                 EnrichedEventQuery_init).2))))).
  - reflexivity.
  - reflexivity.
  - reflexivity.
Defined.

(** * More of the two queries *)

(** ** Traces, continued *)

Section MoreTraces.

Context {Row QP : Type}.
Implicit Types (tr : list (Event Row QP)) (ys : list Row).

Lemma rows_of_app tr1 tr2 : rows_of (tr1 ++ tr2) = rows_of tr1 ++ rows_of tr2.
Proof.
  induction tr1 as [|e tr1 IH]; [done|].
  destruct e; simpl; by rewrite ?IH.
Qed.

Lemma rows_of_yields ys : rows_of (map (@Yield Row QP) ys) = ys.
Proof. induction ys as [|y ys IH]; [done|]. simpl. by rewrite IH. Qed.

Lemma pages_of_app tr1 tr2 : pages_of (tr1 ++ tr2) = pages_of tr1 ++ pages_of tr2.
Proof.
  induction tr1 as [|e tr1 IH]; [done|].
  destruct e; simpl; rewrite ?IH; by rewrite ?app_assoc.
Qed.

Lemma pages_of_yields ys : pages_of (map (@Yield Row QP) ys) = [].
Proof. induction ys as [|y ys IH]; [done|]. simpl. by rewrite IH. Qed.

Lemma yielded_rows_of tr : yielded tr = Z.of_nat (length (rows_of tr)).
Proof.
  induction tr as [|e tr IH]; [done|].
  destruct e; [by rewrite yielded_call| |by rewrite yielded_sleep].
  rewrite yielded_yield, IH. simpl length. lia.
Qed.

End MoreTraces.

(** ** The pages of the synchronous search *)

Section PageFacts.

Context {Row : Type}.
Implicit Types (results : list Row).

(** With a positive limit not yet reached, one pass of the [for] loop
    yields the rows up to the limit. *)
Lemma for_rows_limited results rows n :
  n < rows → 0 ≤ n →
  for_rows results rows n = take (Z.to_nat (rows - n)) results ∧
  for_broke results rows n = bool_decide (rows - n ≤ Z.of_nat (length results)).
Proof.
  revert n. induction results as [|item rest IH]; intros n Hn H0.
  - cbn [for_rows for_broke length]. rewrite take_nil. split; [done|].
    symmetry. apply bool_decide_eq_false. lia.
  - cbn [for_rows for_broke length].
    assert (negb (rows =? 0) = true) as -> by (apply negb_true_iff, Z.eqb_neq; lia).
    cbn [andb]. destruct (n + 1 =? rows) eqn:E;
      [apply Z.eqb_eq in E|apply Z.eqb_neq in E].
    + replace (Z.to_nat (rows - n)) with 1%nat by lia. cbn [take].
      rewrite take_0. split; [done|]. symmetry. apply bool_decide_eq_true. lia.
    + destruct (IH (n + 1)) as [-> ->]; [lia..|].
      replace (Z.to_nat (rows - n)) with (S (Z.to_nat (rows - (n + 1)))) by lia.
      split; [done|]. apply bool_decide_ext. lia.
Qed.

(** Without a positive limit the pass yields the whole page. *)
Lemma for_rows_unlimited results rows n :
  rows ≤ 0 → 0 ≤ n →
  for_rows results rows n = results ∧ for_broke results rows n = false.
Proof.
  revert n. induction results as [|item rest IH]; intros n Hrows H0; [done|].
  cbn [for_rows for_broke].
  assert ((n + 1 =? rows) = false) as -> by (apply Z.eqb_neq; lia).
  rewrite andb_false_r. destruct (IH (n + 1)) as [-> ->]; [lia..|]. done.
Qed.

Lemma for_rows_cons (item : Row) rest rows n : for_rows (item :: rest) rows n ≠ [].
Proof. cbn [for_rows]. by destruct (_ && _). Qed.

End PageFacts.

(** ** The synchronous search, continued *)

Section SearchFacts.

Variables Row World QP : Type.
Variable convert_query_params : gmap string ArgVal → QP.
Variable transport : World → Request QP → Response Row * World.

Local Abbreviation cqp := convert_query_params.

Lemma limit_from_nil {A} n rows : limit_from n rows (@nil A) = [].
Proof. unfold limit_from. destruct (0 <? rows); by rewrite ?take_nil. Qed.

(** A loop whose flag is down does nothing. *)
Lemma search_while_stopped fuel rows v (s : Query * World) :
  still_querying v = false →
  search_while cqp transport fuel rows v s = (Ok tt, s, []).
Proof. intros H. destruct fuel; simpl; by rewrite H. Qed.

(** The rows yielded by the loop are the rows of its pages, up to the
    limit. *)
Lemma search_while_rows fuel : ∀ rows v q w r s' tr,
  search_while cqp transport fuel rows v (q, w) = (r, s', tr) →
  0 ≤ numrows v → (0 < rows → numrows v < rows) →
  rows_of tr = limit_from (numrows v) rows (pages_of tr).
Proof.
  induction fuel as [|fuel IH]; intros rows v q w r s' tr Hrun H0 Hlim.
  - simpl in Hrun. destruct (still_querying v); simpl in Hrun;
      injection Hrun as _ _ <-; cbn [rows_of pages_of]; by rewrite limit_from_nil.
  - destruct (still_querying v) eqn:Hq; cycle 1.
    { rewrite search_while_stopped in Hrun by done. injection Hrun as _ _ <-.
      cbn [rows_of pages_of]. by rewrite limit_from_nil. }
    rewrite search_while_step in Hrun by done. cbv zeta in Hrun.
    destruct (transport w _) as [resp0 w1].
    destruct (get_results resp0) as [results|] eqn:Hres0; cycle 1.
    { injection Hrun as _ _ <-. cbn [rows_of pages_of]. rewrite Hres0.
      cbn [default app]. by rewrite limit_from_nil. }
    assert (Hpage : ∀ t2,
      rows_of t2 = limit_from (numrows (page_vars results rows v)) rows (pages_of t2) ∨
      (still_querying (page_vars results rows v) = false ∧ t2 = []) →
      rows_of (Call (GET_search (cqp (args v))) resp0
                 :: map Yield (for_rows results rows (numrows v)) ++ t2) =
        limit_from (numrows v) rows
          (pages_of (Call (GET_search (cqp (args v))) resp0
                       :: map Yield (for_rows results rows (numrows v)) ++ t2))).
    { intros t2 Ht2. cbn [rows_of pages_of].
      rewrite rows_of_app, pages_of_app, rows_of_yields, pages_of_yields, Hres0.
      cbn [default app]. unfold limit_from in *.
      cbn [page_vars for_vars numrows still_querying] in Ht2. rewrite Hq in Ht2.
      destruct (0 <? rows) eqn:Hpos; [apply Z.ltb_lt in Hpos|apply Z.ltb_ge in Hpos].
      - destruct (for_rows_limited results rows (numrows v)) as [Hys Hbr]; [lia..|].
        rewrite Hys, Hbr in *. rewrite take_app.
        destruct (bool_decide _) eqn:Hd;
          [apply bool_decide_eq_true in Hd|apply bool_decide_eq_false in Hd].
        + destruct Ht2 as [Ht2|[_ ->]].
          * rewrite Ht2, length_take. f_equal. f_equal. unfold id. lia.
          * cbn [rows_of pages_of]. by rewrite take_nil.
        + destruct Ht2 as [Ht2|[Hf _]]; [|done].
          rewrite Ht2, length_take. f_equal. f_equal. unfold id. lia.
      - destruct (for_rows_unlimited results rows (numrows v)) as [Hys Hbr]; [lia..|].
        rewrite Hys, Hbr in *. destruct Ht2 as [->|[Hf _]]; done. }
    destruct (_ <=? _).
    { injection Hrun as _ _ <-.
      rewrite <- (app_nil_r (map _ _)). apply Hpage.
      destruct (still_querying (page_vars results rows v)) eqn:Hs; [left|by right].
      cbn [rows_of pages_of]. by rewrite limit_from_nil. }
    destruct results as [|item rest].
    { injection Hrun as _ _ <-.
      change [Call ?a ?b] with (Call a b :: map Yield (for_rows [] rows (numrows v)) ++ []).
      apply Hpage. left. cbn [rows_of pages_of]. by rewrite limit_from_nil. }
    destruct (search_while _ _ _ _ _ _) as [[r2 s2] t2] eqn:Hrec.
    injection Hrun as _ _ <-.
    change ((Call ?a ?b :: ?l) ++ t2) with (Call a b :: l ++ t2).
    apply Hpage.
    destruct (still_querying (page_vars (item :: rest) rows v)) eqn:Hs.
    + left. eapply IH; [exact Hrec| |].
      * cbn [page_vars for_vars numrows]. lia.
      * intros Hpos. cbn [page_vars for_vars numrows still_querying] in Hs |- *.
        rewrite Hq in Hs. cbn [andb] in Hs. apply negb_true_iff in Hs.
        destruct (for_rows_limited (item :: rest) rows (numrows v)) as [Hys Hbr];
          [lia..|].
        rewrite Hbr in Hs. apply bool_decide_eq_false in Hs.
        rewrite Hys, length_take. lia.
    + right. split; [done|].
      rewrite search_while_stopped in Hrec by done. by injection Hrec as _ _ <-.
Qed.

(** X1: the rows [Query._search] yields are the rows of the pages it
    fetched, in the order the server delivered them, none skipped and none
    repeated: all of them without a positive row limit (a zero or negative
    [rows]), the first [rows] of them with one; so a positive limit is
    never exceeded. *)
Theorem Query_search_yields_pages fuel start rows q w :
  let tr := (Query_search cqp transport fuel start rows (q, w)).2 in
  rows_of tr = limit_from 0 rows (pages_of tr) ∧
  (0 < rows → yielded tr ≤ rows).
Proof.
  cbv zeta. rewrite Query_search_unfold.
  destruct (search_while _ _ _ _ _ _) as [[r s'] tr] eqn:Hrun. cbn [snd].
  assert (H : rows_of tr = limit_from 0 rows (pages_of tr)).
  { by apply (search_while_rows _ _ _ _ _ _ _ _ Hrun). }
  split; [done|]. intros Hpos.
  rewrite yielded_rows_of, H. unfold limit_from.
  rewrite (proj2 (Z.ltb_lt 0 rows) Hpos), length_take. lia.
Qed.

(** The loop ends while the server's totals are bounded: at most one
    request per row up to the bound, plus one. *)
Lemma search_while_terminates T :
  (∀ w r, default 0 (totalResults (transport w r).1) ≤ T) →
  ∀ fuel rows v q w,
    (Z.to_nat (T - current v) < fuel)%nat →
    (search_while cqp transport fuel rows v (q, w)).1.1 = Ok tt ∧
    (length (requests (search_while cqp transport fuel rows v (q, w)).2)
       ≤ Z.to_nat (T - current v) + 1)%nat.
Proof.
  intros HT. induction fuel as [|fuel IH]; intros rows v q w Hfuel; [lia|].
  destruct (still_querying v) eqn:Hq; cycle 1.
  { rewrite search_while_stopped by done. split; [done|]. cbn. lia. }
  rewrite search_while_step by done. cbv zeta.
  pose proof (HT w (GET_search (cqp (args v)))) as Hle.
  destruct (transport w _) as [resp0 w1]. cbn [fst] in Hle.
  destruct (get_results resp0) as [results|]; [|split; [done|]; cbn; lia].
  pose proof (current_page_vars Row QP results rows v) as Hcur.
  destruct (_ <=? _) eqn:Hcmp.
  { split; [done|]. cbn [fst snd requests]. rewrite requests_yields. cbn. lia. }
  apply Z.leb_gt in Hcmp.
  destruct results as [|item rest]; [split; [done|]; cbn; lia|].
  assert (Hys : 1 ≤ yielded (map (@Yield Row QP)
                               (for_rows (item :: rest) rows (numrows v)))).
  { rewrite yielded_yields.
    pose proof (for_rows_cons item rest rows (numrows v)).
    destruct (for_rows _ _ _); [done|]. cbn [length]. lia. }
  destruct (IH rows (page_vars (item :: rest) rows v)
              (set_count_valid true (set_total_results (default 0 (totalResults resp0)) q))
              w1) as [Hr Hn]; [lia|].
  destruct (search_while _ _ _ _ _ _) as [[r2 s2] t2].
  cbn [fst snd] in *. split; [done|].
  rewrite requests_app. cbn [requests].
  rewrite requests_yields, length_app. cbn [length]. lia.
Qed.

(** X2: if the search endpoint never reports more than [T] rows in
    total, [Query._search] ends: with fuel for [T - start + 1] pages it
    returns, and it issues at most that many requests. *)
Theorem Query_search_terminates T fuel start rows q w :
  (∀ w r, default 0 (totalResults (transport w r).1) ≤ T) →
  (Z.to_nat (T - start) < fuel)%nat →
  (Query_search cqp transport fuel start rows (q, w)).1.1 = Ok tt ∧
  (length (requests (Query_search cqp transport fuel start rows (q, w)).2)
     ≤ Z.to_nat (T - start) + 1)%nat.
Proof.
  intros HT Hfuel. rewrite Query_search_unfold.
  by apply (search_while_terminates T HT).
Qed.

(** The loop keeps a valid count valid. *)
Lemma search_while_keeps_valid fuel : ∀ rows v q w,
  _count_valid q = true →
  _count_valid (search_while cqp transport fuel rows v (q, w)).1.2.1 = true.
Proof.
  induction fuel as [|fuel IH]; intros rows v q w Hv.
  - simpl. by destruct (still_querying v).
  - destruct (still_querying v) eqn:Hq; cycle 1.
    { by rewrite search_while_stopped. }
    rewrite search_while_step by done. cbv zeta.
    destruct (transport w _) as [resp0 w1].
    destruct (get_results resp0) as [results|]; [|done].
    destruct (_ <=? _); [done|].
    destruct results as [|item rest]; [done|].
    specialize (IH rows (page_vars (item :: rest) rows v)
                 (set_count_valid true
                    (set_total_results (default 0 (totalResults resp0)) q)) w1 eq_refl).
    by destruct (search_while _ _ _ _ _ _) as [[r2 s2] t2].
Qed.

(** X3: once [Query._search] has made a request (any fuel but none), the
    count is cached: a following [_count()], hence [len()], returns
    [_total_results] without a request of its own. *)
Theorem Query_count_after_search fuel start rows q w :
  let s' := (Query_search cqp transport (S fuel) start rows (q, w)).1.2 in
  Query_count cqp transport s' = (Ok (_total_results s'.1), s', []).
Proof.
  cbv zeta. rewrite Query_search_unfold.
  assert (Hv : _count_valid
                 (search_while cqp transport (S fuel) rows
                    (mkSearchVars (first_args q start) start 0 true) (q, w)).1.2.1 = true).
  { rewrite search_while_step by done. cbv zeta.
    destruct (transport w _) as [resp0 w1].
    destruct (get_results resp0) as [results|]; [|done].
    destruct (_ <=? _); [done|].
    destruct results as [|item rest]; [done|].
    pose proof (search_while_keeps_valid fuel rows
                  (page_vars (item :: rest) rows (mkSearchVars (first_args q start) start 0 true))
                  (set_count_valid true
                     (set_total_results (default 0 (totalResults resp0)) q)) w1 eq_refl).
    by destruct (search_while _ _ _ _ _ _) as [[r2 s2] t2]. }
  destruct (search_while _ _ _ _ _ _) as [[r [q' w']] tr]. cbn [fst snd] in *.
  by apply Query_count_cached.
Qed.

(** X4: a page whose result list is null ends [Query._search]: nothing is
    requested or yielded after it, the call returns, and the cached total
    is the one that page reported, whatever was consumed (a null page is
    not treated as count drift). *)
Theorem Query_search_null_page fuel start rows q w r s' tr pre req resp post :
  Query_search cqp transport fuel start rows (q, w) = (r, s', tr) →
  tr = pre ++ Call req resp :: post →
  get_results resp = None →
  post = [] ∧ r = Ok tt ∧
  _total_results s'.1 = default 0 (totalResults resp) ∧
  _count_valid s'.1 = true.
Proof.
  rewrite Query_search_unfold.
  generalize (mkSearchVars (first_args q start) start 0 true). intros v.
  revert v q w r s' tr pre.
  induction fuel as [|fuel IH]; intros v q w r s' tr pre Hrun Htr Hres.
  - simpl in Hrun. destruct (still_querying v); simpl in Hrun;
      injection Hrun as _ _ <-; by destruct pre.
  - destruct (still_querying v) eqn:Hq; cycle 1.
    { rewrite search_while_stopped in Hrun by done. injection Hrun as _ _ <-.
      by destruct pre. }
    rewrite search_while_step in Hrun by done. cbv zeta in Hrun.
    destruct (transport w _) as [resp0 w1].
    destruct (get_results resp0) as [results|] eqn:Hres0.
    + remember (for_rows results rows (numrows v)) as ys eqn:Hys.
      remember (page_vars results rows v) as v2 eqn:Hv2.
      destruct (_ <=? _).
      * injection Hrun as <- <- <-. rewrite <- (app_nil_r (map _ _)) in Htr.
        apply split_page in Htr as [(-> & -> & -> & ->)|(pre' & _ & Hnil)];
          [congruence|by destruct pre'].
      * destruct results as [|item rest].
        -- injection Hrun as <- <- <-. simpl in Hys. subst ys.
           rewrite <- (app_nil_r (map _ _)) in Htr.
           apply split_page in Htr as [(-> & -> & -> & ->)|(pre' & _ & Hnil)];
             [congruence|by destruct pre'].
        -- destruct (search_while _ _ _ _ _ _) as [[r2 s2] t2] eqn:Hrec.
           injection Hrun as <- <- <-.
           change ((Call ?a ?b :: ?l) ++ t2) with (Call a b :: l ++ t2) in Htr.
           apply split_page in Htr as [(-> & -> & -> & ->)|(pre' & -> & Ht2)];
             [congruence|].
           by eapply IH.
    + injection Hrun as <- <- <-.
      change [Call ?a ?b] with (Call a b :: map Yield [] ++ []) in Htr.
      apply split_page in Htr as [(-> & -> & -> & ->)|(pre' & _ & Hnil)];
        [done|by destruct pre'].
Qed.

End SearchFacts.

(** ** The job search, continued *)

Section JobFacts.

Variables Row World QP : Type.
Variable transport : World → Request QP → Response Row * World.
Variable now : World → Z.
Variable sleep : World → World.

Lemma fetch_item_in_run (results : list Row) rows v (s : EnrichedEventQuery * World) :
  fetch_item_in (QP:=QP) results rows v s =
    (Ok (fetch_vars results rows v), s,
     map Yield (fetch_rows results rows (rows_fetched v))).
Proof.
  revert v. induction results as [|item rest IH]; intros v.
  - unfold fetch_vars. simpl. munfold.
    rewrite !Z.add_0_r, andb_true_r. by destruct v.
  - simpl. munfold. simpl.
    destruct (negb (rows =? 0) && (rows <=? rows_fetched v + 1)) eqn:E.
    + unfold fetch_vars. simpl. rewrite E. simpl. by rewrite andb_false_r.
    + rewrite IH. unfold fetch_vars. simpl. rewrite E. simpl.
      rewrite Nat2Z.inj_succ. do 3 f_equal. f_equal; lia.
Qed.

(** A fetch loop whose flag is down does nothing. *)
Lemma fetch_while_stopped fuel rows v (s : EnrichedEventQuery * World) :
  still_fetching v = false →
  fetch_while transport fuel rows v s = (Ok tt, s, []).
Proof. intros H. destruct fuel; simpl; by rewrite H. Qed.

(** One turn of the fetch loop, written out. *)
Lemma fetch_while_step fuel rows v q w :
  still_fetching v = true →
  fetch_while transport (S fuel) rows v (q, w) =
    let req := GET_job_results_page (_query_token q) (f_current v)
                 (_batch_size (base q)) in
    let '(resp, w1) := transport w req in
    let total := default 0 (num_available resp) in
    let q1 := set_valid true (set_total total q) in
    match get_results resp with
    | None =>
        (Raise (TypeError "'NoneType' object is not iterable"), (q1, w1),
         [Call req resp])
    | Some results =>
        let v2 := after_page total (fetch_vars results rows v) in
        let '(r, s2, t2) := fetch_while transport fuel rows v2 (q1, w1) in
        (r, s2, Call req resp :: map Yield (fetch_rows results rows (rows_fetched v)) ++ t2)
    end.
Proof.
  intros Hq. cbn [fetch_while]. rewrite Hq. cbn [negb].
  munfold. cbn [fst snd].
  destruct (transport w _) as [resp w1]. cbn [fst snd].
  destruct (get_results resp) as [results|]; [|done].
  rewrite fetch_item_in_run. cbn [fst snd].
  unfold after_page, set_valid, set_total.
  cbn [base set_base _total_results set_count_valid set_total_results].
  destruct (fetch_while _ _ _ _ _) as [[r s2] t2]. done.
Qed.

(** [_search] is its prologue followed by the timeout test and the fetch
    loop. *)
Lemma EnrichedEventQuery_search_unfold fuel start rows q w :
  EnrichedEventQuery_search transport now sleep fuel start rows (q, w) =
    let '(r1, s1, t1) := search_prologue transport now sleep fuel (q, w) in
    match r1 with
    | Ok _ =>
        if _timed_out s1.1
        then (Raise (raise_with_message_kw "TimeoutError" timeout_message), s1, t1)
        else
          let '(r2, s2, t2) :=
            fetch_while transport fuel rows (mkFetchVars start 0 true) s1 in
          (r2, s2, t1 ++ t2)
    | Raise e => (Raise e, s1, t1)
    | Diverge => (Diverge, s1, t1)
    end.
Proof.
  unfold EnrichedEventQuery_search, search_prologue. munfold. cbn [fst snd].
  destruct (truthy_token (_query_token q)) eqn:Htok; cbn [negb fst snd].
  - destruct (wait_while_querying _ _ _ _ _) as [[r1 [q1 w1]] t1].
    destruct r1 as [[]| |]; [|done..]. cbn [fst snd].
    destruct (_timed_out q1); cbn [fst snd]; [by rewrite app_nil_r|].
    by destruct (fetch_while _ _ _ _ _) as [[r2 s2] t2].
  - rewrite (_submit_first _ _ _ _ _ _ _ Htok).
    destruct (transport w _) as [resp w1]. cbn [fst snd].
    destruct (wait_while_querying _ _ _ _ _) as [[r1 [q1 w1']] t1].
    destruct r1 as [[]| |]; [|done..]. cbn [fst snd].
    destruct (_timed_out q1); cbn [fst snd]; [by rewrite app_nil_r|].
    by destruct (fetch_while _ _ _ _ _) as [[r2 s2] t2].
Qed.

Lemma check_status_polling q w :
  forallb polling_event (check_status transport now q w).2 = true ∧
  base (check_status transport now q w).1.2.1 = base q.
Proof.
  unfold check_status. destruct (transport w _) as [resp w1].
  destruct (status_verdict q resp (now w1)) as [r q'] eqn:Hv. split; [done|].
  cbn [fst snd]. unfold status_verdict in Hv. cbv zeta in Hv.
  destruct (_ =? 0); [by injection Hv as _ <-|].
  destruct (_ <? _); [|by injection Hv as _ <-].
  destruct (_timeout q =? 0); [by injection Hv as _ <-|].
  destruct (_submit_time q); [|by injection Hv as _ <-].
  destruct (_ <? _); by injection Hv as _ <-.
Qed.

Lemma _still_querying_polling q w :
  forallb polling_event (_still_querying transport now (q, w)).2 = true ∧
  base (_still_querying transport now (q, w)).1.2.1 = base q.
Proof.
  destruct (truthy_token (_query_token q)) eqn:Htok.
  - rewrite _still_querying_submitted by done. apply check_status_polling.
  - rewrite _still_querying_unsubmitted by done.
    destruct (transport w _) as [resp w1].
    pose proof (check_status_polling (submitted q resp (now w1)) w1) as [H1 H2].
    destruct (check_status _ _ _ _) as [[r2 s2] t2]. cbn [fst snd] in *.
    split; [|by rewrite H2]. unfold submit_request. cbn [forallb polling_event andb].
    exact H1.
Qed.

Lemma wait_while_querying_polling fuel : ∀ q w,
  forallb polling_event (wait_while_querying transport now sleep fuel (q, w)).2 = true ∧
  base (wait_while_querying transport now sleep fuel (q, w)).1.2.1 = base q.
Proof.
  induction fuel as [|fuel IH]; intros q w; [done|].
  rewrite wait_while_querying_step.
  pose proof (_still_querying_polling q w) as [H1 H2].
  destruct (_still_querying _ _ _) as [[r1 [q1 w1]] t1]. cbn [fst snd] in *.
  destruct r1 as [[|]| |]; [|done..].
  pose proof (IH q1 (sleep w1)) as [H3 H4].
  destruct (wait_while_querying _ _ _ _ _) as [[r2 s2] t2]. cbn [fst snd] in *.
  split; [|congruence].
  rewrite forallb_app, H1. cbn [forallb polling_event andb]. done.
Qed.

(** The prologue only polls, and leaves the inherited attributes (the
    batch size among them) alone. *)
Lemma search_prologue_polling fuel q w :
  forallb polling_event (search_prologue transport now sleep fuel (q, w)).2 = true ∧
  base (search_prologue transport now sleep fuel (q, w)).1.2.1 = base q.
Proof.
  unfold search_prologue. cbn [fst].
  destruct (truthy_token (_query_token q)) eqn:Htok.
  - pose proof (wait_while_querying_polling fuel q w) as [H1 H2].
    by destruct (wait_while_querying _ _ _ _ _) as [[r1 s1] t1].
  - rewrite (_submit_first _ _ _ _ _ _ _ Htok).
    destruct (transport w _) as [resp w1].
    pose proof (wait_while_querying_polling fuel (submitted q resp (now w1)) w1)
      as [H1 H2].
    by destruct (wait_while_querying _ _ _ _ _) as [[r1 s1] t1].
Qed.

Lemma yielded_polling (t : list (Event Row QP)) :
  forallb polling_event t = true → yielded t = 0.
Proof.
  induction t as [|e t IH]; [done|]. cbn [forallb].
  intros [He Ht]%andb_true_iff. destruct e as [r resp|row|]; [|done|].
  - rewrite yielded_call. by apply IH.
  - rewrite yielded_sleep. by apply IH.
Qed.

(** A page request behind a polling trace lies in what follows it. *)
Lemma split_after_polling (t1 t2 pre : list (Event Row QP)) req resp post :
  forallb polling_event t1 = true → is_page req = true →
  t1 ++ t2 = pre ++ Call req resp :: post →
  ∃ pre', pre = t1 ++ pre' ∧ t2 = pre' ++ Call req resp :: post.
Proof.
  intros Hpoll Hpage. revert pre.
  induction t1 as [|e t1 IH]; intros pre H; [by exists pre|].
  cbn [forallb] in Hpoll. apply andb_true_iff in Hpoll as [He Ht1].
  destruct pre as [|e' pre].
  - simpl in H. injection H as -> _. destruct req; done.
  - simpl in H. injection H as <- H.
    destruct (IH Ht1 _ H) as (pre' & -> & ->). by exists pre'.
Qed.

(** The page requests of the fetch loop are 0-indexed: each asks for the
    rows from position [current], the rows consumed so far added to the
    start, with the batch size of the query. *)
Lemma fetch_while_pages fuel : ∀ rows v q w r s' tr,
  fetch_while transport fuel rows v (q, w) = (r, s', tr) →
  ∀ pre req resp post,
    tr = pre ++ Call req resp :: post →
    req = GET_job_results_page (_query_token q) (f_current v + yielded pre)
            (_batch_size (base q)).
Proof.
  induction fuel as [|fuel IH]; intros rows v q w r s' tr Hrun pre req resp post Htr.
  - simpl in Hrun. destruct (still_fetching v); simpl in Hrun;
      injection Hrun as _ _ <-; by destruct pre.
  - destruct (still_fetching v) eqn:Hq; cycle 1.
    { rewrite fetch_while_stopped in Hrun by done. injection Hrun as _ _ <-.
      by destruct pre. }
    rewrite fetch_while_step in Hrun by done. cbv zeta in Hrun.
    destruct (transport w _) as [resp0 w1].
    destruct (get_results resp0) as [results|].
    + remember (fetch_rows results rows (rows_fetched v)) as ys eqn:Hys.
      destruct (fetch_while _ _ _ _ _) as [[r2 s2] t2] eqn:Hrec.
      injection Hrun as <- <- <-.
      apply split_page in Htr as [(-> & -> & -> & ->)|(pre' & -> & Ht2)].
      * change (yielded []) with 0. by rewrite Z.add_0_r.
      * rewrite (IH _ _ _ _ _ _ _ Hrec _ _ _ _ Ht2).
        rewrite yielded_call, yielded_app, yielded_yields.
        unfold after_page, fetch_vars.
        destruct (_ <=? _); cbn [f_current]; rewrite <- Hys; f_equal; lia.
    + injection Hrun as <- <- <-.
      change [Call ?a ?b] with (Call a b :: map Yield [] ++ []) in Htr.
      apply split_page in Htr as [(-> & -> & -> & ->)|(pre' & _ & Hnil)];
        [|by destruct pre'].
      change (yielded []) with 0. by rewrite Z.add_0_r.
Qed.

(** A page request found anywhere in a run of the job search. *)
Lemma search_page_request fuel start rows q w r s' tr
    pre token first n resp post :
  EnrichedEventQuery_search transport now sleep fuel start rows (q, w) = (r, s', tr) →
  tr = pre ++ Call (GET_job_results_page token first n) resp :: post →
  first = start + yielded pre ∧ n = _batch_size (base q).
Proof.
  rewrite EnrichedEventQuery_search_unfold.
  pose proof (search_prologue_polling fuel q w) as [Hpoll Hbase].
  destruct (search_prologue _ _ _ _ _) as [[r1 [q1 w1]] t1]. cbn [fst snd] in *.
  assert (Hno : ∀ pre post, t1 ≠ pre ++ Call (GET_job_results_page token first n) resp :: post).
  { intros pre0 post0 H. rewrite <- (app_nil_r t1) in H.
    apply split_after_polling in H as (pre' & _ & H'); [|done..]. by destruct pre'. }
  destruct r1 as [[]| |]; [|intros [= _ _ <-] H; by apply Hno in H..].
  destruct (_timed_out q1); [intros [= _ _ <-] H; by apply Hno in H|].
  destruct (fetch_while _ _ _ _ _) as [[r2 s2] t2] eqn:Hf.
  intros [= _ _ <-] Htr.
  apply split_after_polling in Htr as (pre' & -> & Ht2); [|done..].
  apply (fetch_while_pages _ _ _ _ _ _ _ _ Hf) in Ht2.
  injection Ht2 as _ -> ->. cbn [f_current].
  rewrite yielded_app, (yielded_polling t1 Hpoll), Hbase. split; [lia|done].
Qed.

(** X5: the results endpoint is read 0-indexed: every page request of
    [EnrichedEventQuery._search] asks for the rows from the caller's start
    plus the rows yielded so far (not one more, as the synchronous search
    does), with the batch size of the query. *)
Theorem EnrichedEventQuery_search_pages fuel start rows q w r s' tr
    pre token first n resp post :
  EnrichedEventQuery_search transport now sleep fuel start rows (q, w) = (r, s', tr) →
  tr = pre ++ Call (GET_job_results_page token first n) resp :: post →
  first = start + yielded pre ∧ n = _batch_size (base q).
Proof. apply search_page_request. Qed.

(** The fetch loop has no answer to an empty page below the promised
    number of rows: it asks for the same page again. *)
Lemma fetch_while_empty_pages start :
  (∀ w tok first n,
     get_results (transport w (GET_job_results_page tok first n)).1 = Some [] ∧
     start < default 0 (num_available (transport w (GET_job_results_page tok first n)).1)) →
  ∀ fuel rows n q w,
    (fetch_while transport fuel rows (mkFetchVars start n true) (q, w)).1.1 = Diverge ∧
    requests (fetch_while transport fuel rows (mkFetchVars start n true) (q, w)).2 =
      replicate fuel (GET_job_results_page (_query_token q) start (_batch_size (base q))).
Proof.
  intros Hpage. induction fuel as [|fuel IH]; intros rows n q w; [done|].
  rewrite fetch_while_step by done. cbv zeta. cbn [f_current rows_fetched].
  destruct (Hpage w (_query_token q) start (_batch_size (base q))) as [Hres Hlt].
  destruct (transport w _) as [resp w1]. cbn [fst] in Hres, Hlt. rewrite Hres.
  unfold after_page, fetch_vars. cbn [fetch_rows fetch_broke length f_current
    rows_fetched still_fetching negb andb map app].
  rewrite !Z.add_0_r. rewrite (proj2 (Z.leb_gt _ _) Hlt).
  destruct (IH rows n (set_valid true (set_total (default 0 (num_available resp)) q)) w1)
    as [Hr Hreq].
  destruct (fetch_while _ _ _ _ _) as [[r2 s2] t2]. cbn [fst snd] in *.
  split; [done|]. cbn [requests replicate]. by rewrite Hreq.
Qed.

(** X6: [EnrichedEventQuery._search] has no guard against count drift.
    When the job is complete and the results endpoint answers with empty
    pages while promising more rows than the start, the search asks for
    the same page again and again and does not return: whatever the fuel,
    it is spent on identical page requests. *)
Theorem EnrichedEventQuery_search_empty_page_repeats fuel start rows q w :
  truthy_token (_query_token q) = true →
  _timed_out q = false →
  (∀ w tok,
     default 0 (contacted (transport w (GET_job_status tok)).1) ≠ 0 ∧
     default 0 (contacted (transport w (GET_job_status tok)).1)
       ≤ default 0 (completed (transport w (GET_job_status tok)).1)) →
  (∀ w tok first n,
     get_results (transport w (GET_job_results_page tok first n)).1 = Some [] ∧
     start < default 0 (num_available (transport w (GET_job_results_page tok first n)).1)) →
  (EnrichedEventQuery_search transport now sleep (S fuel) start rows (q, w)).1.1 = Diverge ∧
  requests (EnrichedEventQuery_search transport now sleep (S fuel) start rows (q, w)).2 =
    GET_job_status (_query_token q)
      :: replicate (S fuel)
           (GET_job_results_page (_query_token q) start (_batch_size (base q))).
Proof.
  intros Htok Hnot Hstatus Hpage.
  rewrite EnrichedEventQuery_search_unfold. unfold search_prologue. cbn [fst].
  rewrite Htok, wait_while_querying_step, _still_querying_submitted by done.
  unfold check_status, status_verdict. cbv zeta.
  destruct (Hstatus w (_query_token q)) as [Hc Hd].
  destruct (transport w _) as [resp w1]. cbn [fst] in Hc, Hd.
  rewrite (proj2 (Z.eqb_neq _ _) Hc), (proj2 (Z.ltb_ge _ _) Hd).
  cbn [app fst snd]. rewrite Hnot.
  destruct (fetch_while_empty_pages start Hpage (S fuel) rows 0 q w1) as [Hr Hreq].
  destruct (fetch_while _ _ _ _ _) as [[r2 s2] t2]. cbn [fst snd] in *.
  split; [done|]. cbn [requests app]. by rewrite Hreq.
Qed.

(** While [contacted] is 0 a poll answers true before it looks at the
    timeout. *)
Lemma _still_querying_uncontacted q w :
  (∀ w tok, default 0 (contacted (transport w (GET_job_status tok)).1) = 0) →
  ∃ s t, _still_querying transport now (q, w) = (Ok true, s, t) ∧ sleeps t = 0%nat.
Proof.
  intros H0.
  assert (Hcheck : ∀ q w, ∃ w1 t, check_status transport now q w = (Ok true, (q, w1), t) ∧
                                  sleeps t = 0%nat).
  { intros q0 w0. unfold check_status, status_verdict. cbv zeta.
    specialize (H0 w0 (_query_token q0)).
    destruct (transport w0 _) as [resp w1]. cbn [fst] in H0. rewrite H0.
    by eexists _, _. }
  destruct (truthy_token (_query_token q)) eqn:Htok.
  - rewrite _still_querying_submitted by done.
    destruct (Hcheck q w) as (w1 & t & -> & Ht). by eexists _, _.
  - rewrite _still_querying_unsubmitted by done.
    destruct (transport w _) as [resp w1].
    destruct (Hcheck (submitted q resp (now w1)) w1) as (w2 & t & -> & Ht).
    by eexists _, _.
Qed.

Lemma wait_while_querying_uncontacted fuel : ∀ q w,
  (∀ w tok, default 0 (contacted (transport w (GET_job_status tok)).1) = 0) →
  (wait_while_querying transport now sleep fuel (q, w)).1.1 = Diverge ∧
  sleeps (wait_while_querying transport now sleep fuel (q, w)).2 = fuel.
Proof.
  induction fuel as [|fuel IH]; intros q w H0; [done|].
  rewrite wait_while_querying_step.
  destruct (_still_querying_uncontacted q w H0) as ([q1 w1] & t & -> & Ht).
  cbn [fst snd].
  destruct (IH q1 (sleep w1) H0) as [Hr Hs].
  destruct (wait_while_querying _ _ _ _ _) as [[r2 s2] t2]. cbn [fst snd] in *.
  split; [done|].
  assert (Happ : ∀ a b : list (Event Row QP), sleeps (a ++ b) = (sleeps a + sleeps b)%nat).
  { induction a as [|e a IHa]; intros b; [done|].
    destruct e; cbn [app sleeps]; by rewrite IHa. }
  rewrite Happ, Ht. cbn [sleeps]. by rewrite Hs.
Qed.

(** X7: the timeout is only looked at when [contacted] is not 0.  While
    the status endpoint reports [contacted = 0] (or no [contacted] at all)
    [_count] and [_search] keep polling, whatever timeout is configured and
    however late it is: every unit of fuel is spent on a poll followed by
    a sleep, and the call does not return. *)
Theorem uncontacted_job_defeats_timeout fuel start rows q w :
  (∀ w tok, default 0 (contacted (transport w (GET_job_status tok)).1) = 0) →
  _count_valid (base q) = false →
  (EnrichedEventQuery_count transport now sleep fuel (q, w)).1.1 = Diverge ∧
  sleeps (EnrichedEventQuery_count transport now sleep fuel (q, w)).2 = fuel ∧
  (EnrichedEventQuery_search transport now sleep fuel start rows (q, w)).1.1 = Diverge ∧
  sleeps (EnrichedEventQuery_search transport now sleep fuel start rows (q, w)).2 = fuel.
Proof.
  intros H0 Hv. split; [|split].
  - rewrite EnrichedEventQuery_count_fresh by done.
    destruct (wait_while_querying_uncontacted fuel q w H0) as [Hr _].
    destruct (wait_while_querying _ _ _ _ _) as [[r1 s1] t1]. cbn [fst] in *.
    by subst r1.
  - rewrite EnrichedEventQuery_count_fresh by done.
    destruct (wait_while_querying_uncontacted fuel q w H0) as [Hr Hs].
    destruct (wait_while_querying _ _ _ _ _) as [[r1 s1] t1]. cbn [fst snd] in *.
    by subst r1.
  - rewrite EnrichedEventQuery_search_unfold. unfold search_prologue. cbn [fst].
    destruct (truthy_token (_query_token q)) eqn:Htok.
    + destruct (wait_while_querying_uncontacted fuel q w H0) as [Hr Hs].
      destruct (wait_while_querying _ _ _ _ _) as [[r1 s1] t1]. cbn [fst snd] in *.
      by subst r1.
    + rewrite (_submit_first _ _ _ _ _ _ _ Htok).
      destruct (transport w _) as [resp w1].
      destruct (wait_while_querying_uncontacted fuel (submitted q resp (now w1)) w1 H0)
        as [Hr Hs].
      destruct (wait_while_querying _ _ _ _ _) as [[r1 s1] t1]. cbn [fst snd] in *.
      by subst r1.
Qed.

Lemma sleeps_app (a b : list (Event Row QP)) : sleeps (a ++ b) = (sleeps a + sleeps b)%nat.
Proof.
  induction a as [|e a IH]; [done|].
  destruct e; cbn [app sleeps]; by rewrite IH.
Qed.

Lemma count_calls_app (p : Request QP → bool) (a b : list (Event Row QP)) :
  count_calls p (a ++ b) = (count_calls p a + count_calls p b)%nat.
Proof. unfold count_calls. by rewrite requests_app, filter_app, length_app. Qed.

(** *** The timeout *)

Section Timeout.

(** The status endpoint always reports fewer searchers completed than
    contacted; the clock never runs backwards over a request; a sleep
    takes half a second or more; a job creation answers with a job id. *)
Hypothesis incomplete : ∀ w tok,
  default 0 (contacted (transport w (GET_job_status tok)).1) ≠ 0 ∧
  default 0 (completed (transport w (GET_job_status tok)).1)
    < default 0 (contacted (transport w (GET_job_status tok)).1).
Hypothesis clock_monotone : ∀ w r, now w ≤ now (transport w r).2.
Hypothesis sleep_500 : ∀ w, now w + 500 ≤ now (sleep w).
Hypothesis job_ids : ∀ w body query,
  truthy_token (job_id (transport w (POST_search_jobs body query)).1) = true.

Lemma check_status_incomplete q w st :
  _timeout q ≠ 0 → _submit_time q = Some st →
  check_status transport now q w =
    let req := GET_job_status (_query_token q) in
    if _timeout q <? now (transport w req).2 - st
    then (Ok false, (set_timed_out true q, (transport w req).2),
          [Call req (transport w req).1])
    else (Ok true, (q, (transport w req).2), [Call req (transport w req).1]).
Proof.
  intros HT Hst. unfold check_status, status_verdict. cbv zeta.
  destruct (incomplete w (_query_token q)) as [Hc Hd].
  destruct (transport w _) as [resp w1]. cbn [fst snd] in *.
  rewrite (proj2 (Z.eqb_neq _ _) Hc), (proj2 (Z.ltb_lt _ _) Hd),
    (proj2 (Z.eqb_neq _ _) HT), Hst.
  by destruct (_ <? _).
Qed.

(** A poll that comes after the deadline ends the wait. *)
Lemma wait_while_querying_late fuel q w st :
  truthy_token (_query_token q) = true →
  _timeout q ≠ 0 → _submit_time q = Some st →
  st + _timeout q < now w →
  ∃ w', wait_while_querying transport now sleep (S fuel) (q, w) =
          (Ok tt, (set_timed_out true q, w'),
           [Call (GET_job_status (_query_token q))
              (transport w (GET_job_status (_query_token q))).1]).
Proof.
  intros Htok HT Hst Hlate.
  rewrite wait_while_querying_step, _still_querying_submitted by done.
  rewrite (check_status_incomplete q w st) by done. cbv zeta.
  pose proof (clock_monotone w (GET_job_status (_query_token q))) as Hm.
  rewrite (proj2 (Z.ltb_lt _ _)) by lia. by eexists.
Qed.

(** With a timeout below the sleep, the second poll of a submitted query
    is late. *)
Lemma wait_while_querying_submitted_times_out fuel q w st :
  truthy_token (_query_token q) = true →
  _timeout q ≠ 0 → _timeout q < 500 → _submit_time q = Some st → st ≤ now w →
  ∃ w' tr, wait_while_querying transport now sleep (S (S fuel)) (q, w) =
             (Ok tt, (set_timed_out true q, w'), tr) ∧ (sleeps tr ≤ 1)%nat.
Proof.
  intros Htok HT H500 Hst Hnow.
  rewrite wait_while_querying_step, _still_querying_submitted by done.
  rewrite (check_status_incomplete q w st) by done. cbv zeta.
  pose proof (clock_monotone w (GET_job_status (_query_token q))) as Hm.
  destruct (_ <? _).
  - eexists _, _. split; [done|]. cbn. lia.
  - cbn [fst snd].
    pose proof (sleep_500 (transport w (GET_job_status (_query_token q))).2) as Hs.
    destruct (wait_while_querying_late fuel q
                (sleep (transport w (GET_job_status (_query_token q))).2) st)
      as [w' ->]; [done..|lia|].
    eexists _, _. split; [done|]. cbn. lia.
Qed.

(** The same for any query that is unsubmitted, or was submitted in the
    past. *)
Lemma wait_while_querying_times_out fuel q w :
  _timeout q ≠ 0 → _timeout q < 500 →
  (truthy_token (_query_token q) = true →
     ∃ st, _submit_time q = Some st ∧ st ≤ now w) →
  ∃ q' w' tr, wait_while_querying transport now sleep (S (S fuel)) (q, w) =
                (Ok tt, (q', w'), tr) ∧
              _timed_out q' = true ∧ (sleeps tr ≤ 1)%nat.
Proof.
  intros HT H500 Hsub.
  destruct (truthy_token (_query_token q)) eqn:Htok.
  - destruct (Hsub eq_refl) as (st & Hst & Hnow).
    destruct (wait_while_querying_submitted_times_out fuel q w st)
      as (w' & tr & -> & Hs); [done..|].
    by eexists _, _, _.
  - rewrite wait_while_querying_step, _still_querying_unsubmitted by done.
    pose proof (job_ids w (_default_args q) (_collapse (_query_builder (base q)))) as Hjob.
    fold (@submit_request QP q) in Hjob.
    destruct (transport w (submit_request q)) as [resp0 w1]. cbn [fst] in Hjob.
    set (q1 := submitted q resp0 (now w1)).
    assert (Htok1 : truthy_token (_query_token q1) = true) by done.
    rewrite (check_status_incomplete q1 w1 (now w1)) by done. cbv zeta.
    pose proof (clock_monotone w1 (GET_job_status (_query_token q1))) as Hm.
    destruct (_ <? _).
    + eexists _, _, _. split; [done|]. split; [done|]. cbn. lia.
    + cbn [fst snd].
      pose proof (sleep_500 (transport w1 (GET_job_status (_query_token q1))).2) as Hs.
      destruct (wait_while_querying_late fuel q1
                  (sleep (transport w1 (GET_job_status (_query_token q1))).2) (now w1))
        as [w' ->]; [done..| |].
      { change (_timeout q1) with (_timeout q). lia. }
      eexists _, _, _. split; [done|]. split; [done|]. cbn. lia.
Qed.

(** X8: a non-zero timeout below the half second between two polls is
    noticed at the second poll at the latest.  For a job that stays
    incomplete, on a clock that does not run backwards, [_count] (without
    a cached count) and [_search] set [_timed_out] after at most one sleep
    and end by evaluating [raise TimeoutError(message=...)]; a negative
    timeout is accepted and fires at the first poll of an incomplete
    job. *)
Theorem timeout_below_poll_interval fuel start rows q w :
  _timeout q ≠ 0 → _timeout q < 500 →
  (truthy_token (_query_token q) = true →
     ∃ st, _submit_time q = Some st ∧ st ≤ now w) →
  _count_valid (base q) = false →
  let count := EnrichedEventQuery_count transport now sleep (S (S fuel)) (q, w) in
  let search :=
    EnrichedEventQuery_search transport now sleep (S (S fuel)) start rows (q, w) in
  count.1.1 = Raise (raise_with_message_kw "TimeoutError" timeout_message) ∧
  _timed_out count.1.2.1 = true ∧ (sleeps count.2 ≤ 1)%nat ∧
  search.1.1 = Raise (raise_with_message_kw "TimeoutError" timeout_message) ∧
  _timed_out search.1.2.1 = true ∧ (sleeps search.2 ≤ 1)%nat ∧
  rows_of search.2 = [].
Proof.
  intros HT H500 Hsub Hv. cbv zeta. split; [|split; [|split]].
  1-3: rewrite EnrichedEventQuery_count_fresh by done;
    destruct (wait_while_querying_times_out fuel q w HT H500 Hsub)
      as (q' & w' & tr & -> & Hto & Hs); cbn [fst snd]; by rewrite Hto.
  rewrite EnrichedEventQuery_search_unfold.
  pose proof (search_prologue_polling (S (S fuel)) q w) as [Hpoll _].
  assert (Hrows : ∀ t : list (Event Row QP), forallb polling_event t = true → rows_of t = []).
  { induction t as [|e t IH]; [done|]. cbn [forallb].
    intros [He Ht]%andb_true_iff. destruct e; [by apply IH|done|by apply IH]. }
  unfold search_prologue in *. cbn [fst] in *.
  pose proof (wait_while_querying_times_out fuel q w HT H500 Hsub) as Hwq.
  destruct (truthy_token (_query_token q)) eqn:Htok.
  - destruct Hwq as (q' & w' & tr & Hw & Hto & Hs).
    rewrite Hw in *. cbn [fst snd app] in *. rewrite Hto. cbn [fst snd].
    repeat split; [done..|]. by apply Hrows.
  - rewrite (_submit_first _ _ _ _ _ _ _ Htok) in *.
    pose proof (job_ids w (_default_args q) (_collapse (_query_builder (base q)))) as Hjob.
    fold (@submit_request QP q) in Hjob.
    destruct (transport w (submit_request q)) as [resp0 w1]. cbn [fst] in Hjob.
    destruct (wait_while_querying_times_out fuel (submitted q resp0 (now w1)) w1)
      as (q' & w' & tr & Hw & Hto & Hs); [done..| |].
    { intros _. exists (now w1). split; [done|lia]. }
    rewrite Hw in *. cbn [fst snd] in *. rewrite Hto. cbn [fst snd].
    repeat split; [done| |by apply Hrows]. cbn [app sleeps]. done.
Qed.

End Timeout.

(** *** After a timeout *)

(** A status check never lowers [_timed_out] and never touches the
    token. *)
Lemma check_status_keeps q w :
  _query_token (check_status transport now q w).1.2.1 = _query_token q ∧
  (_timed_out q = true → _timed_out (check_status transport now q w).1.2.1 = true) ∧
  count_requests (check_status transport now q w).2 = 0%nat ∧
  rows_of (check_status transport now q w).2 = [].
Proof.
  unfold check_status. destruct (transport w _) as [resp w1].
  destruct (status_verdict q resp (now w1)) as [r q'] eqn:Hv. cbn [fst snd].
  assert (q' = q ∨ q' = set_timed_out true q) as [->| ->]; [|done..].
  unfold status_verdict in Hv. cbv zeta in Hv.
  destruct (_ =? 0); [injection Hv as _ <-; by left|].
  destruct (_ <? _); [|injection Hv as _ <-; by left].
  destruct (_timeout q =? 0); [injection Hv as _ <-; by left|].
  destruct (_submit_time q); [|injection Hv as _ <-; by left].
  destruct (_ <? _); injection Hv as _ <-; [by right|by left].
Qed.

Lemma wait_while_querying_keeps fuel : ∀ q w,
  truthy_token (_query_token q) = true → _timed_out q = true →
  let run := wait_while_querying transport now sleep fuel (q, w) in
  truthy_token (_query_token run.1.2.1) = true ∧ _timed_out run.1.2.1 = true ∧
  count_requests run.2 = 0%nat ∧ rows_of run.2 = [].
Proof.
  induction fuel as [|fuel IH]; intros q w Htok Hto; [done|]. cbv zeta.
  rewrite wait_while_querying_step, _still_querying_submitted by done.
  destruct (check_status_keeps q w) as (Ht & Hk & Hc & Hr). specialize (Hk Hto).
  destruct (check_status _ _ _ _) as [[r1 [q1 w1]] t1]. cbn [fst snd] in *.
  assert (Htok1 : truthy_token (_query_token q1) = true) by by rewrite Ht.
  destruct r1 as [[|]| |]; [|done..].
  destruct (IH q1 (sleep w1) Htok1 Hk) as (H1 & H2 & H3 & H4).
  destruct (wait_while_querying _ _ _ _ _) as [[r2 s2] t2]. cbn [fst snd] in *.
  repeat split; [done..| |].
  - rewrite count_requests_app, Hc. by change (count_requests (Sleep :: t2)) with (count_requests t2).
  - rewrite rows_of_app, Hr. done.
Qed.

(** X9: [_timed_out] is only reset by [_submit], and a query that holds a
    token is never submitted again.  So on a query that has timed out,
    [_count] returns nothing but a count cached before, and [_search]
    never succeeds, yields no row and fetches no page, whatever the server
    answers, also when the job has completed in the meantime. *)
Theorem timed_out_is_final fuel start rows q w :
  truthy_token (_query_token q) = true →
  _timed_out q = true →
  (_count_valid (base q) = false →
     (∀ v, (EnrichedEventQuery_count transport now sleep fuel (q, w)).1.1 ≠ Ok v) ∧
     count_requests (EnrichedEventQuery_count transport now sleep fuel (q, w)).2 = 0%nat) ∧
  (EnrichedEventQuery_search transport now sleep fuel start rows (q, w)).1.1 ≠ Ok tt ∧
  rows_of (EnrichedEventQuery_search transport now sleep fuel start rows (q, w)).2 = [] ∧
  count_requests
    (EnrichedEventQuery_search transport now sleep fuel start rows (q, w)).2 = 0%nat.
Proof.
  intros Htok Hto.
  pose proof (wait_while_querying_keeps fuel q w Htok Hto) as (H1 & H2 & H3 & H4).
  split.
  - intros Hv. rewrite EnrichedEventQuery_count_fresh by done.
    destruct (wait_while_querying _ _ _ _ _) as [[r1 [q1 w1]] t1]. cbn [fst snd] in *.
    destruct r1 as [[]| |]; [|done..]. by rewrite H2.
  - rewrite EnrichedEventQuery_search_unfold. unfold search_prologue. cbn [fst].
    rewrite Htok.
    destruct (wait_while_querying _ _ _ _ _) as [[r1 [q1 w1]] t1]. cbn [fst snd app] in *.
    destruct r1 as [[]| |]; [|done..]. by rewrite H2.
Qed.

(** *** A job creation without a job id *)

(** X10: the token is whatever the job creation response has under
    ["job_id"].  When that is missing (or empty) the query stays without a
    token, and since [_still_querying] submits whenever there is no token,
    every poll of [_count] creates a new job before it asks for the
    status: as many job creations as status requests. *)
Theorem missing_job_id_resubmits fuel q w :
  truthy_token (_query_token q) = false →
  (∀ w body query,
     truthy_token (job_id (transport w (POST_search_jobs body query)).1) = false) →
  let run := wait_while_querying transport now sleep fuel (q, w) in
  truthy_token (_query_token run.1.2.1) = false ∧
  count_calls is_submit run.2 = count_calls is_status run.2 ∧
  (run.1.1 = Diverge → count_calls is_submit run.2 = fuel).
Proof.
  intros Htok Hjob. revert q w Htok.
  induction fuel as [|fuel IH]; intros q w Htok; [done|]. cbv zeta.
  rewrite wait_while_querying_step, _still_querying_unsubmitted by done.
  pose proof (Hjob w (_default_args q) (_collapse (_query_builder (base q)))) as Hj.
  fold (@submit_request QP q) in Hj.
  destruct (transport w (submit_request q)) as [resp0 w1]. cbn [fst] in Hj.
  set (q1 := submitted q resp0 (now w1)).
  pose proof (check_status_keeps q1 w1) as (Ht & _).
  assert (Hone : count_calls is_submit (check_status transport now q1 w1).2 = 0%nat ∧
                 count_calls is_status (check_status transport now q1 w1).2 = 1%nat).
  { unfold check_status. destruct (transport w1 _) as [resp w2].
    by destruct (status_verdict q1 resp (now w2)). }
  destruct Hone as [Hs0 Hs1].
  assert (Hnd : (check_status transport now q1 w1).1.1 ≠ Diverge).
  { unfold check_status, status_verdict. cbv zeta.
    destruct (transport w1 _) as [resp w2].
    destruct (_ =? 0); [done|]. destruct (_ <? _); [|done].
    destruct (_timeout q1 =? 0); [done|].
    destruct (_submit_time q1); [|done]. by destruct (_ <? _). }
  destruct (check_status _ _ _ _) as [[r1 [q2 w2]] t1]. cbn [fst snd] in *.
  assert (Htok2 : truthy_token (_query_token q2) = false) by by rewrite Ht.
  assert (Hhead : ∀ t : list (Event Row QP),
                       count_calls is_submit (Call (submit_request q) resp0 :: t) =
                        S (count_calls is_submit t) ∧
                       count_calls is_status (Call (submit_request q) resp0 :: t) =
                        count_calls is_status t) by done.
  destruct r1 as [[|]| |].
  - destruct (IH q2 (sleep w2) Htok2) as (H1 & H2 & H3).
    destruct (wait_while_querying _ _ _ _ _) as [[r2 s2] t2]. cbn [fst snd] in *.
    rewrite !count_calls_app. destruct (Hhead t1) as [-> ->]. rewrite Hs0, Hs1.
    change (count_calls is_submit (Sleep :: t2)) with (count_calls is_submit t2).
    change (count_calls is_status (Sleep :: t2)) with (count_calls is_status t2).
    split; [done|]. split; [lia|]. intros Hd. rewrite (H3 Hd). lia.
  - cbn [fst snd]. destruct (Hhead t1) as [-> ->]. split; [done|]. split; [lia|done].
  - cbn [fst snd]. destruct (Hhead t1) as [-> ->]. split; [done|]. split; [lia|done].
  - cbn [fst snd]. destruct (Hhead t1) as [-> ->]. split; [done|]. split; [lia|done].
Qed.

End JobFacts.

(** ** What the setters reach *)

Lemma split_once_first_colon key value :
  contains ":" key = false →
  split_once ":" (key ++ String ":" value) = Some (key, value).
Proof.
  induction key as [|a key IH]; intros H.
  - done.
  - cbn [contains] in H. apply orb_false_iff in H as [Ha Hk].
    simpl. rewrite Ha, IH by done. done.
Qed.

Lemma split_once_no_colon token :
  contains ":" token = false → split_once ":" token = None.
Proof.
  induction token as [|a token IH]; intros H; [done|].
  cbn [contains] in H. apply orb_false_iff in H as [Ha Hk].
  cbn [split_once]. by rewrite Ha, IH.
Qed.

(** X13: [prepare_query] splits a filter token at its first colon only, so
    the value may contain colons; both sides lose their leading and
    trailing parentheses; the pair replaces any parameter of the same name
    already in the request ([start] and [rows] included); a token without
    a colon (the words AND and OR) leaves the request as it is. *)
Theorem prepare_token_first_colon request key value :
  (contains ":" key = false →
     prepare_token request (key ++ String ":" value) =
       <[strip ")" (strip "(" key) := AStr (strip ")" (strip "(" value))]> request ∧
     prepare_token request (key ++ String ":" value) !! strip ")" (strip "(" key) =
       Some (AStr (strip ")" (strip "(" value)))) ∧
  (∀ token, contains ":" token = false → prepare_token request token = request).
Proof.
  split.
  - intros H. unfold prepare_token. rewrite split_once_first_colon by done.
    split; [done|]. apply lookup_insert_eq.
  - intros token H. unfold prepare_token. by rewrite split_once_no_colon.
Qed.

Lemma prepare_token_first_colon_witness :
  prepare_token {["rows" := AInt 100]} "(rows:5:6)" =
    <["rows" := AStr "5:6"]> ({["rows" := AInt 100]} : gmap string ArgVal) ∧
  prepare_token ({["rows" := AInt 100]} : gmap string ArgVal) "AND" =
    {["rows" := AInt 100]}.
Proof.
  split.
  - apply (proj1 (proj1 (prepare_token_first_colon {["rows" := AInt 100]} "(rows" "5:6)")
             eq_refl)).
  - apply (proj2 (prepare_token_first_colon {["rows" := AInt 100]} "" "") "AND").
    reflexivity.
Defined.

Section SetterFacts.

Variables Row World QP : Type.
Variable transport : World → Request QP → Response Row * World.
Variable now : World → Z.
Variable sleep : World → World.

(** *** The time range *)

Lemma set_time_range_shape start end_ window q :
  ∃ m, (set_time_range start end_ window q).2 = set_time_range_attr m q.
Proof.
  assert (Hid : q = set_time_range_attr (_time_range q) q) by by destruct q.
  unfold set_time_range. rewrite set_time_field_spec.
  destruct (passes start); [|by exists (_time_range q)].
  rewrite set_time_field_spec. destruct (passes end_); [|by eexists].
  rewrite set_time_field_spec. destruct (passes window); by eexists.
Qed.

Lemma _submit_time_range m q w :
  _submit transport now (set_time_range_attr m q, w) =
    with_time_range m (_submit transport now (q, w)).
Proof.
  destruct (truthy_token (_query_token q)) eqn:Htok.
  - by rewrite !_submit_again.
  - rewrite !_submit_first by done.
    change (submit_request (set_time_range_attr m q)) with (@submit_request QP q).
    by destruct (transport w _) as [resp w1].
Qed.

Lemma check_status_time_range m q w :
  check_status transport now (set_time_range_attr m q) w =
    with_time_range m (check_status transport now q w).
Proof.
  unfold check_status, status_verdict. cbv zeta.
  change (_query_token (set_time_range_attr m q)) with (_query_token q).
  change (_timeout (set_time_range_attr m q)) with (_timeout q).
  change (_submit_time (set_time_range_attr m q)) with (_submit_time q).
  destruct (transport w _) as [resp w1].
  destruct (_ =? 0); [done|]. destruct (_ <? _); [|done].
  destruct (_timeout q =? 0); [done|].
  destruct (_submit_time q); [|done]. by destruct (_ <? _).
Qed.

Lemma _still_querying_time_range m q w :
  _still_querying transport now (set_time_range_attr m q, w) =
    with_time_range m (_still_querying transport now (q, w)).
Proof.
  destruct (truthy_token (_query_token q)) eqn:Htok.
  - rewrite !_still_querying_submitted by done. apply check_status_time_range.
  - rewrite !_still_querying_unsubmitted by done.
    change (submit_request (set_time_range_attr m q)) with (@submit_request QP q).
    destruct (transport w _) as [resp w1].
    change (submitted (set_time_range_attr m q) resp (now w1))
      with (set_time_range_attr m (submitted q resp (now w1))).
    rewrite check_status_time_range.
    by destruct (check_status _ _ _ _) as [[r s] t].
Qed.

Lemma wait_while_querying_time_range m fuel : ∀ q w,
  wait_while_querying transport now sleep fuel (set_time_range_attr m q, w) =
    with_time_range m (wait_while_querying transport now sleep fuel (q, w)).
Proof.
  induction fuel as [|fuel IH]; intros q w; [done|].
  rewrite !wait_while_querying_step, _still_querying_time_range.
  destruct (_still_querying _ _ _) as [[r1 [q1 w1]] t1].
  unfold with_time_range at 1. cbn [fst snd].
  destruct r1 as [[|]| |]; [|done..].
  rewrite IH. by destruct (wait_while_querying _ _ _ _ _) as [[r2 s2] t2].
Qed.

(** X11: nothing reads [_time_range].  [set_time_range] stores its
    arguments there, the body of the job creation is built from
    [_default_args] and the filter alone, and so a call of
    [set_time_range], whatever its arguments, changes neither the job
    creation request nor anything [_count] requests or returns. *)
Theorem time_range_is_never_sent start end_ window fuel q w :
  let q' := (set_time_range start end_ window q).2 in
  @submit_request QP q' = submit_request q ∧
  (EnrichedEventQuery_count transport now sleep fuel (q', w)).1.1 =
    (EnrichedEventQuery_count transport now sleep fuel (q, w)).1.1 ∧
  (EnrichedEventQuery_count transport now sleep fuel (q', w)).2 =
    (EnrichedEventQuery_count transport now sleep fuel (q, w)).2.
Proof.
  cbv zeta. destruct (set_time_range_shape start end_ window q) as [m ->].
  split; [done|].
  destruct (_count_valid (base q)) eqn:Hv.
  - by rewrite !EnrichedEventQuery_count_cached.
  - rewrite !EnrichedEventQuery_count_fresh by done.
    rewrite wait_while_querying_time_range.
    destruct (wait_while_querying _ _ _ _ _) as [[r1 [q1 w1]] t1].
    unfold with_time_range. cbn [fst snd].
    destruct r1 as [[]| |]; [|done..].
    change (_timed_out (set_time_range_attr m q1)) with (_timed_out q1).
    destruct (_timed_out q1); [done|]. cbv zeta.
    change (_query_token (set_time_range_attr m q1)) with (_query_token q1).
    by destruct (transport w1 _) as [resp w2].
Qed.

(** *** The batch size *)

(** X12: [set_rows] with an integer (of any sign, or zero) stores it as the
    batch size and under ["rows"] in [_default_args], so that the job
    creation body carries it, every page request of [_search] asks for
    that many rows, and the sort list is untouched; with [None] or a
    string it raises a usage error and changes nothing. *)
Theorem set_rows_reaches_requests n q :
  (∀ rows, isinstance_int rows = false →
     ∃ e, is_UsageError e = true ∧ set_rows rows q = (Raise e, q)) ∧
  (set_rows (PyInt n) q).1 = Ok tt ∧
  @submit_request QP (set_rows (PyInt n) q).2 =
    POST_search_jobs (mkDefaultArgs (Some n) (da_sort (_default_args q)))
      (_collapse (_query_builder (base q))) ∧
  (∀ key direction,
     (set_rows (PyInt n) (sort_by key direction q)).2 =
       sort_by key direction (set_rows (PyInt n) q).2) ∧
  (∀ fuel start rows w r s' tr pre token first k resp post,
     EnrichedEventQuery_search transport now sleep fuel start rows
       ((set_rows (PyInt n) q).2, w) = (r, s', tr) →
     tr = pre ++ Call (GET_job_results_page token first k) resp :: post →
     k = n).
Proof.
  split; [|split; [|split; [|split]]].
  - intros rows H. unfold set_rows. rewrite H. eexists. split; [|reflexivity]. done.
  - done.
  - done.
  - intros key direction. unfold set_rows, sort_by.
    cbn [negb isinstance_int int_of snd].
    change (_sort (set_default_args ?a (set_base ?b q))) with (_sort q).
    by destruct (sort_loop key direction (_sort q)) as [l []].
  - intros fuel start rows w r s' tr pre token first k resp post Hrun Htr.
    pose proof search_page_request as Hpages.
    specialize Hpages with (1 := Hrun) (2 := Htr). by destruct Hpages as [_ ->].
Qed.

End SetterFacts.

(** ** The properties above on the servers of the test plan *)

Lemma Query_search_yields_pages_witness :
  rows_of (Query_search id (paged_server 250) 3 0 120 (Query_init, tt)).2 =
    limit_from 0 120 (pages_of (Query_search id (paged_server 250) 3 0 120 (Query_init, tt)).2) ∧
  yielded (Query_search id (paged_server 250) 3 0 120 (Query_init, tt)).2 ≤ 120.
Proof.
  pose proof (Query_search_yields_pages Z unit (gmap string ArgVal) id (paged_server 250)
                3%nat 0 120 Query_init tt) as [Hrows Hlimit].
  split; [exact Hrows|]. apply Hlimit. lia.
Defined.

Lemma Query_search_terminates_witness :
  (Query_search id (paged_server 250) 251 0 0 (Query_init, tt)).1.1 = Ok tt ∧
  (length (requests (Query_search id (paged_server 250) 251 0 0 (Query_init, tt)).2)
     ≤ Z.to_nat (250 - 0) + 1)%nat.
Proof.
  apply (Query_search_terminates Z unit (gmap string ArgVal) id (paged_server 250)
           250 251%nat 0 0 Query_init tt).
  - intros w []; simpl; lia.
  - simpl. lia.
Defined.

Lemma Query_search_null_page_witness :
  drop 133 run_capped.2 = [] ∧ run_capped.1.1 = Ok tt ∧
  _total_results run_capped.1.2.1 = 250 ∧
  _count_valid run_capped.1.2.1 = true.
Proof.
  apply (Query_search_null_page Z unit (gmap string ArgVal) id (capped_server 250 130)
           3%nat 0 0 Query_init tt run_capped.1.1 run_capped.1.2 run_capped.2
           (take 132 run_capped.2) (GET_search (page_params (Some 131)))
           (mkResponse (Some 250) Null None None None None) (drop 133 run_capped.2)).
  - vm_compute. reflexivity.
  - vm_compute. reflexivity.
  - reflexivity.
Defined.

Lemma EnrichedEventQuery_search_pages_witness :
  100 = 0 + yielded (take 105 run_job.2) ∧
  100 = _batch_size (base EnrichedEventQuery_init).
Proof.
  apply (EnrichedEventQuery_search_pages Z JobWorld (gmap string ArgVal)
           (job_server 2 250) clock sleep_half_second 4%nat 0 0
           EnrichedEventQuery_init world0 run_job.1.1 run_job.1.2 run_job.2
           (take 105 run_job.2) (Some "job-1") 100 100
           (mkResponse None (Rows (seqZ 101 100)) None None None (Some 250))
           (drop 106 run_job.2)).
  - vm_compute. reflexivity.
  - vm_compute. reflexivity.
Defined.

Lemma EnrichedEventQuery_search_empty_page_repeats_witness :
  (EnrichedEventQuery_search (empty_pages_server 10) clock sleep_half_second 3 0 0
     (query_submitted, world0)).1.1 = Diverge ∧
  requests (EnrichedEventQuery_search (empty_pages_server 10) clock sleep_half_second 3 0 0
              (query_submitted, world0)).2 =
    GET_job_status (Some "job-1")
      :: replicate 3 (GET_job_results_page (Some "job-1") 0 100).
Proof.
  apply (EnrichedEventQuery_search_empty_page_repeats Z JobWorld (gmap string ArgVal)
           (empty_pages_server 10) clock sleep_half_second 2%nat 0 0
           query_submitted world0).
  - reflexivity.
  - reflexivity.
  - intros w tok. simpl. lia.
  - intros w tok first n. simpl. split; [reflexivity | lia].
Defined.

Lemma uncontacted_job_defeats_timeout_witness :
  (EnrichedEventQuery_count uncontacted_server clock sleep_half_second 3
     (query_timeout_100, world0)).1.1 = Diverge ∧
  sleeps (EnrichedEventQuery_count uncontacted_server clock sleep_half_second 3
            (query_timeout_100, world0)).2 = 3%nat ∧
  (EnrichedEventQuery_search uncontacted_server clock sleep_half_second 3 0 0
     (query_timeout_100, world0)).1.1 = Diverge ∧
  sleeps (EnrichedEventQuery_search uncontacted_server clock sleep_half_second 3 0 0
            (query_timeout_100, world0)).2 = 3%nat.
Proof.
  apply (uncontacted_job_defeats_timeout Z JobWorld (gmap string ArgVal)
           uncontacted_server clock sleep_half_second 3%nat 0 0
           query_timeout_100 world0).
  - intros w tok. reflexivity.
  - reflexivity.
Defined.

Lemma timeout_below_poll_interval_witness :
  (EnrichedEventQuery_count stuck_server clock sleep_half_second 2
     (query_timeout_100, world0)).1.1 =
    Raise (raise_with_message_kw "TimeoutError" timeout_message) ∧
  (sleeps (EnrichedEventQuery_search stuck_server clock sleep_half_second 2 0 0
             (query_timeout_100, world0)).2 ≤ 1)%nat ∧
  rows_of (EnrichedEventQuery_search stuck_server clock sleep_half_second 2 0 0
             (query_timeout_100, world0)).2 = [].
Proof.
  pose proof (timeout_below_poll_interval Z JobWorld (gmap string ArgVal)
                stuck_server clock sleep_half_second) as H.
  specialize (H ltac:(intros w tok; simpl; lia)).
  specialize (H ltac:(intros w []; simpl; lia)).
  specialize (H ltac:(intros w; simpl; lia)).
  specialize (H ltac:(intros w body query; reflexivity)).
  specialize (H 0%nat 0 0 query_timeout_100 world0).
  specialize (H ltac:(vm_compute; discriminate)).
  specialize (H ltac:(vm_compute; reflexivity)).
  specialize (H ltac:(intros Htok; vm_compute in Htok; discriminate Htok)).
  specialize (H ltac:(reflexivity)).
  cbv zeta in H. destruct H as (Hcount & _ & _ & _ & _ & Hsleeps & Hrows).
  split; [exact Hcount|]. split; [exact Hsleeps | exact Hrows].
Defined.

Lemma timed_out_is_final_witness :
  (EnrichedEventQuery_search (job_server 1 250) clock sleep_half_second 3 0 0
     (query_timed_out, world0)).1.1 ≠ Ok tt ∧
  rows_of (EnrichedEventQuery_search (job_server 1 250) clock sleep_half_second 3 0 0
             (query_timed_out, world0)).2 = [] ∧
  count_requests (EnrichedEventQuery_search (job_server 1 250) clock sleep_half_second 3 0 0
                    (query_timed_out, world0)).2 = 0%nat.
Proof.
  apply (proj2 (timed_out_is_final Z JobWorld (gmap string ArgVal)
                  (job_server 1 250) clock sleep_half_second 3%nat 0 0
                  query_timed_out world0 eq_refl eq_refl)).
Defined.

Lemma missing_job_id_resubmits_witness :
  truthy_token
    (_query_token
       (wait_while_querying tokenless_server clock sleep_half_second 3
          (EnrichedEventQuery_init, world0)).1.2.1) = false ∧
  count_calls is_submit
    (wait_while_querying tokenless_server clock sleep_half_second 3
       (EnrichedEventQuery_init, world0)).2 =
  count_calls is_status
    (wait_while_querying tokenless_server clock sleep_half_second 3
       (EnrichedEventQuery_init, world0)).2.
Proof.
  pose proof (missing_job_id_resubmits Z JobWorld (gmap string ArgVal)
                tokenless_server clock sleep_half_second 3%nat
                EnrichedEventQuery_init world0) as H.
  specialize (H ltac:(reflexivity)).
  specialize (H ltac:(intros w body query; reflexivity)).
  cbv zeta in H. destruct H as (Htok & Hcalls & _). split; [exact Htok | exact Hcalls].
Defined.

Lemma set_rows_reaches_requests_witness :
  (∃ e, is_UsageError e = true ∧
        set_rows (PyStr "50") EnrichedEventQuery_init = (Raise e, EnrichedEventQuery_init)) ∧
  50 = 50.
Proof.
  pose proof (set_rows_reaches_requests Z JobWorld (gmap string ArgVal)
                (job_server 1 120) clock sleep_half_second 50 EnrichedEventQuery_init)
    as (Hraise & _ & _ & _ & Hpages).
  split.
  - apply (Hraise (PyStr "50")). reflexivity.
  - apply (Hpages 4%nat 0 0 world0 run_rows_50.1.1 run_rows_50.1.2 run_rows_50.2
             (take 53 run_rows_50.2) (Some "job-1") 50 50
             (mkResponse None (Rows (seqZ 51 50)) None None None (Some 120))
             (drop 54 run_rows_50.2)).
    + vm_compute. reflexivity.
    + vm_compute. reflexivity.
Defined.

(** * Updates of mutable models *)

Lemma dict_get_set_eq k v d : dict_get k (dict_set k v d) = Some v.
Proof.
  induction d as [|[k' v'] d IH]; cbn [dict_set dict_get].
  - by rewrite String.eqb_refl.
  - destruct (String.eqb k' k) eqn:E; cbn [dict_get]; by rewrite E.
Qed.

Lemma dict_get_set_ne k k' v d :
  k' ≠ k → dict_get k' (dict_set k v d) = dict_get k' d.
Proof.
  intros Hne. induction d as [|[k0 v0] d IH]; cbn [dict_set dict_get].
  - destruct (String.eqb k k') eqn:E; [|done]. apply String.eqb_eq in E. by subst.
  - destruct (String.eqb k0 k) eqn:E; cbn [dict_get].
    + apply String.eqb_eq in E. subst k0.
      destruct (String.eqb k k') eqn:E'; [|done]. apply String.eqb_eq in E'. by subst.
    + by rewrite IH.
Qed.

Lemma has_key_fst k d : has_key k d = true ↔ k ∈ map fst d.
Proof.
  unfold has_key. induction d as [|[k' v] d IH]; cbn [dict_get map fst].
  - split; [done|]. by intros ?%elem_of_nil.
  - destruct (String.eqb k' k) eqn:E.
    + apply String.eqb_eq in E. subst. split; [intros _; left | done].
    + apply String.eqb_neq in E. rewrite IH. split.
      * by right.
      * intros [?|?]%elem_of_cons; [by subst | done].
Qed.

(** The loop of [_patch_object]: the keys it was given take the values
    [_info] has for them, every other key keeps what it had. *)
Lemma collect_updates_spec info : ∀ keys updates,
  (∀ k, k ∈ keys → has_key k info = true) →
  ∃ updates',
    collect_updates keys info updates = inr updates' ∧
    ∀ k, dict_get k updates' =
           if bool_decide (k ∈ keys) then dict_get k info else dict_get k updates.
Proof.
  induction keys as [|k0 keys IH]; intros updates Hin; cbn [collect_updates].
  - exists updates. split; [done|]. intros k.
    rewrite bool_decide_eq_false_2; [done|]. by intros ?%elem_of_nil.
  - pose proof (Hin k0 ltac:(left)) as Hk0. unfold has_key in Hk0.
    destruct (dict_get k0 info) as [v|] eqn:Hv; [|done].
    destruct (IH (dict_set k0 v updates)) as (updates' & -> & Hget).
    { intros k Hk. apply Hin. by right. }
    exists updates'. split; [done|]. intros k. rewrite Hget.
    destruct (decide (k ∈ keys)) as [Hk|Hk].
    + rewrite !bool_decide_eq_true_2; [done| by right | done].
    + rewrite (bool_decide_eq_false_2 _ Hk).
      destruct (decide (k = k0)) as [->|Hne].
      * rewrite bool_decide_eq_true_2 by left. by rewrite dict_get_set_eq.
      * rewrite bool_decide_eq_false_2; [by apply dict_get_set_ne|].
        by intros [?|?]%elem_of_cons.
Qed.

Lemma collect_updates_spec_inv info : ∀ keys updates updates',
  collect_updates keys info updates = inr updates' →
  ∀ k, k ∈ keys → ∃ v, dict_get k info = Some v.
Proof.
  induction keys as [|k0 keys IH]; intros updates updates' Hc k Hk;
    [by apply elem_of_nil in Hk|].
  cbn [collect_updates] in Hc. destruct (dict_get k0 info) as [v|] eqn:Hv; [|done].
  apply elem_of_cons in Hk as [->|Hk]; [by exists v|]. by eapply IH.
Qed.

Lemma collect_updates_missing info : ∀ keys updates k,
  collect_updates keys info updates = inl k → k ∈ keys ∧ dict_get k info = None.
Proof.
  induction keys as [|k0 keys IH]; intros updates k; cbn [collect_updates]; [done|].
  destruct (dict_get k0 info) eqn:Hv.
  - intros [? ?]%IH. split; [by right | done].
  - intros [= <-]. split; [left | done].
Qed.

Section ModelFacts.

Variable World : Type.
Variable api_json_request : World → string → string → Json → HttpResponse * World.
Variable refresh : Model * World → outcome unit * (Model * World).
Variable _build_api_request_uri : Model → string.

Lemma _refresh_if_needed_rejected cls request_ret s :
  success_message request_ret = None →
  ∃ e, _refresh_if_needed refresh cls request_ret s = (Raised e, s, []).
Proof.
  unfold success_message, _refresh_if_needed. destruct s as [self w].
  destruct (_ && _); [|by eexists]. cbn [negb].
  destruct (json_body request_ret) as [[| | | | |message]|]; try by eexists.
  destruct (json_truthy _); [done | by eexists].
Qed.

Lemma send_and_refresh_rejected cls method uri data self w :
  success_message (api_json_request w method uri data).1 = None →
  ∃ e, (send_and_refresh api_json_request refresh cls method uri data (self, w)).1.1
         = Raised e ∧
       (send_and_refresh api_json_request refresh cls method uri data (self, w)).1.2.1
         = self ∧
       refreshes (send_and_refresh api_json_request refresh cls method uri data (self, w)).2
         = 0%nat.
Proof.
  intros Hrej. unfold send_and_refresh. cbn [fst snd].
  destruct (api_json_request w method uri data) as [ret w1]. cbn [fst] in Hrej.
  destruct (_refresh_if_needed_rejected cls ret (self, w1) Hrej) as [e ->].
  by exists e.
Qed.

(** X14: an update the server does not accept changes nothing.  If the
    answer to the request is anything but a 2xx status with a JSON
    dictionary whose ["success"] is truthy (a 4xx or 5xx status, a body
    that is no JSON or no dictionary, a missing or false ["success"]),
    [_update_object] raises, whichever of [_patch_object] and
    [_update_entire_object] it runs; the object is as before the call, its
    [_dirty_attributes] included, and [refresh] is not called. *)
Theorem rejected_update_keeps_object cls self w :
  (∀ method uri data,
     success_message (api_json_request w method uri data).1 = None) →
  ∃ e,
    (_update_object api_json_request refresh _build_api_request_uri cls (self, w)).1.1
      = Raised e ∧
    (_update_object api_json_request refresh _build_api_request_uri cls (self, w)).1.2.1
      = self ∧
    refreshes
      (_update_object api_json_request refresh _build_api_request_uri cls (self, w)).2
      = 0%nat.
Proof.
  intros Hrej. unfold _update_object, _update_entire_object, _patch_object. cbn [fst].
  destruct (negb _).
  - destruct (_ || _); by apply send_and_refresh_rejected.
  - destruct (_ || _); [by apply send_and_refresh_rejected|].
    destruct (collect_updates _ _ _) as [k|updates]; [by eexists|].
    by apply send_and_refresh_rejected.
Qed.

(** X15: what an accepted answer does.  If it carries the record (a
    dictionary under the class's [info_key]), the record becomes [_info],
    the object is fully initialised, [_dirty_attributes] is emptied,
    [refresh] is not called, and the call returns the id of that record:
    its entry under the primary key, [None] if it has none, whatever id
    the object had before.  Otherwise [refresh] is called exactly once, on
    an object whose [_dirty_attributes] is already empty and whose
    [_info] holds, under the primary key, the id the answer gave under
    [_change_object_key_name], if it gave one, so that this id is the
    [_model_unique_id] that [refresh] sees; the call returns what
    [_model_unique_id] is after the refresh, or raises what [refresh]
    raised. *)
Theorem accepted_update_refreshes_without_record cls request_ret self w message :
  success_message request_ret = Some message →
  (∀ info, dict_get (info_key cls) message = Some (JDict info) →
     _refresh_if_needed refresh cls request_ret (self, w) =
       (Returned (default JNull (dict_get (primary_key cls) info)),
        (mkModel info true [], w), [])) ∧
  ((∀ info, dict_get (info_key cls) message ≠ Some (JDict info)) →
     ∃ self1,
       _dirty_attributes self1 = [] ∧
       _full_init self1 = _full_init self ∧
       _info self1 =
         match dict_get (_change_object_key_name cls) message with
         | Some v => dict_set (primary_key cls) v (_info self)
         | None => _info self
         end ∧
       (∀ v, dict_get (_change_object_key_name cls) message = Some v →
          _model_unique_id cls self1 = v) ∧
       (_refresh_if_needed refresh cls request_ret (self, w)).2 = [Refreshed] ∧
       (_refresh_if_needed refresh cls request_ret (self, w)).1 =
         match refresh (self1, w) with
         | (Returned _, s2) => (Returned (_model_unique_id cls s2.1), s2)
         | (Raised e, s2) => (Raised e, s2)
         end).
Proof.
  unfold success_message, _refresh_if_needed. intros Hacc.
  destruct (_ && _); [|done]. cbn [negb].
  destruct (json_body request_ret) as [[| | | | |message']|]; try done.
  destruct (json_truthy _); [|done]. injection Hacc as ->.
  split.
  - by intros info ->.
  - intros Hno.
    destruct (dict_get (info_key cls) message) as [[| | | | |info]|] eqn:Hinfo;
      try (by destruct (Hno info));
      (exists (set_dirty_attributes []
                 match dict_get (_change_object_key_name cls) message with
                 | Some v => set_info (dict_set (primary_key cls) v (_info self)) self
                 | None => self
                 end);
       destruct (dict_get (_change_object_key_name cls) message) as [v|];
       (split; [done|]); (split; [done|]); (split; [done|]);
       (split;
        [intros v' [= <-] || intros v' [=];
         try (unfold _model_unique_id; cbn [_info set_dirty_attributes set_info];
              by rewrite dict_get_set_eq)|]);
       destruct (refresh _) as [[[]|e] [self2 w2]]; done).
Qed.

(** X16: an update of an existing object by PATCH sends the changed
    attributes and nothing else.  For a class whose
    [_change_object_http_method] is PATCH, an object that has an id and
    whose primary key is not among its dirty attributes, and dirty
    attributes that are all in [_info]: the request goes by PATCH to the
    object's own URI, and its body has, for every key, the value of
    [_info] if the key is dirty and no entry if it is not.  If a dirty
    attribute is missing from [_info], the call raises [KeyError] for it
    and nothing is sent. *)
Theorem _patch_object_sends_changes cls self w :
  _change_object_http_method cls = "PATCH" →
  has_key (primary_key cls) (_dirty_attributes self) = false →
  is_null (_model_unique_id cls self) = false →
  ((∀ k, has_key k (_dirty_attributes self) = true → has_key k (_info self) = true) →
   ∃ updates ret t,
     (_update_object api_json_request refresh _build_api_request_uri cls (self, w)).2 =
       Sent "PATCH" (_build_api_request_uri self) (JDict updates) ret :: t ∧
     ∀ k, dict_get k updates =
            if has_key k (_dirty_attributes self) then dict_get k (_info self) else None) ∧
  (∀ k, has_key k (_dirty_attributes self) = true → has_key k (_info self) = false →
     ∃ k',
       _update_object api_json_request refresh _build_api_request_uri cls (self, w) =
         (Raised (KeyError k'), (self, w), []) ∧
       has_key k' (_dirty_attributes self) = true ∧ has_key k' (_info self) = false).
Proof.
  intros Hm Hpk Hid. unfold _update_object, _patch_object. cbn [fst].
  rewrite Hm, Hpk, Hid. cbn [String.eqb Ascii.eqb Bool.eqb negb orb].
  split.
  - intros Hall.
    destruct (collect_updates_spec (_info self) (map fst (_dirty_attributes self)) [])
      as (updates & -> & Hget).
    { intros k Hk. apply Hall. by apply has_key_fst. }
    unfold send_and_refresh. cbn [fst snd].
    destruct (api_json_request w _ _ _) as [ret w1].
    destruct (_refresh_if_needed _ _ _ _) as [[r s'] t].
    exists updates, ret, t. split; [done|]. intros k. rewrite Hget.
    destruct (has_key k (_dirty_attributes self)) eqn:Hk.
    + rewrite bool_decide_eq_true_2; [done|]. by apply has_key_fst.
    + rewrite bool_decide_eq_false_2; [done|].
      intros Hin%has_key_fst. by rewrite Hin in Hk.
  - intros k Hk Hno.
    destruct (collect_updates _ _ _) as [k'|updates] eqn:Hc.
    + apply collect_updates_missing in Hc as [Hin Hnone].
      exists k'. split; [done|]. split; [by apply has_key_fst|].
      unfold has_key. by rewrite Hnone.
    + destruct (collect_updates_spec_inv (_info self) (map fst (_dirty_attributes self))
                  [] updates Hc k) as [v Hv]; [by apply has_key_fst|].
      unfold has_key in Hno. by rewrite Hv in Hno.
Qed.

End ModelFacts.

(** ** A device with a changed name *)

Lemma rejected_update_keeps_object_witness :
  ∃ e,
    (_update_object failing_api idle_refresh device_uri (Device "POST" false)
       (renamed_device, tt)).1.1 = Raised e ∧
    (_update_object failing_api idle_refresh device_uri (Device "POST" false)
       (renamed_device, tt)).1.2.1 = renamed_device ∧
    refreshes
      (_update_object failing_api idle_refresh device_uri (Device "POST" false)
         (renamed_device, tt)).2 = 0%nat.
Proof.
  apply (rejected_update_keeps_object unit failing_api idle_refresh device_uri
           (Device "POST" false) renamed_device tt).
  intros method uri data. reflexivity.
Defined.

Lemma accepted_update_refreshes_without_record_witness :
  _refresh_if_needed idle_refresh (Device "POST" false)
    (record_api [("deviceId", JNum 9); ("name", JStr "new")] tt "PATCH" "" JNull).1
    (renamed_device, tt) =
    (Returned (JNum 9),
     (mkModel [("deviceId", JNum 9); ("name", JStr "new")] true [], tt), []).
Proof.
  apply (proj1 (accepted_update_refreshes_without_record unit idle_refresh
                  (Device "POST" false)
                  (record_api [("deviceId", JNum 9); ("name", JStr "new")] tt "PATCH" ""
                     JNull).1
                  renamed_device tt
                  [("success", JBool true);
                   ("deviceInfo", JDict [("deviceId", JNum 9); ("name", JStr "new")])]
                  eq_refl)
           [("deviceId", JNum 9); ("name", JStr "new")]).
  reflexivity.
Defined.

Lemma _patch_object_sends_changes_witness :
  ∃ updates ret t,
    (_update_object failing_api idle_refresh device_uri (Device "POST" false)
       (renamed_device, tt)).2 =
      Sent "PATCH" (device_uri renamed_device) (JDict updates) ret :: t ∧
    ∀ k, dict_get k updates =
           if has_key k (_dirty_attributes renamed_device)
           then dict_get k (_info renamed_device) else None.
Proof.
  apply (proj1 (_patch_object_sends_changes unit failing_api idle_refresh device_uri
                  (Device "POST" false) renamed_device tt eq_refl eq_refl eq_refl)).
  intros k. unfold has_key, renamed_device. cbn [dict_get _dirty_attributes _info].
  destruct (String.eqb "deviceId" k); [reflexivity|].
  destruct (String.eqb "name" k); [reflexivity | discriminate].
Defined.
